(** * silero-vad-go: the speech segmentation engine of [speech/detector.go]

    A shallow embedding of [DetectorConfig.IsValid], [NewDetector],
    [Detector.Detect], [Detector.Reset], the setters and
    [LogLevel.OrtLoggingLevel], and of the tester [cmd/vad_tester/main.go]
    with its [readPCMFile], followed by the properties of the
    segmentation state machine and of the tester.

    Conventions of the embedding.
    - Go's [int] is the 64-bit two's complement integer: values are [Z],
      and every arithmetic operation of the source goes through
      [GoInt.wrap].
    - Go's [float32] and [float64] are IEEE 754 binary32 and binary64,
      given by the executable specification [SpecFloat] of the standard
      library at precision 24 / 53 (round to nearest even).
    - Go's [error] values built with [fmt.Errorf] are kept as their
      message, with the [%w] wrapping explicit.
    - The method [sd.infer] (the ONNX inference call) lives outside the
      translated file: it is a parameter [infer] of the development, a
      function of the sample rate, the recurrent buffers and the window.
    - The pointer receiver [sd *Detector] is an [option Detector]; the
      mutated detector is returned next to the Go results. *)

From Stdlib Require Import ZArith List Bool Lia String Ascii.
From Stdlib Require Import Floats.SpecFloat.
Import ListNotations.

Local Open Scope string_scope.
Local Open Scope list_scope.
Local Open Scope Z_scope.

(* ===================================================================== *)
(** ** Machine integers *)
(* ===================================================================== *)

Module GoInt.

Definition min_int : Z := - 2 ^ 63.
Definition max_int : Z := 2 ^ 63 - 1.

(** Reduction of a mathematical integer to the signed 64-bit range. *)
Definition wrap (z : Z) : Z := (z + 2 ^ 63) mod 2 ^ 64 - 2 ^ 63.

Definition add (x y : Z) : Z := wrap (x + y).
Definition sub (x y : Z) : Z := wrap (x - y).
Definition mul (x y : Z) : Z := wrap (x * y).
(** Go's [/] truncates toward zero. *)
Definition quo (x y : Z) : Z := wrap (Z.quot x y).

Definition in_range (z : Z) : Prop := min_int <= z <= max_int.

End GoInt.

(* ===================================================================== *)
(** ** Floating point numbers *)
(* ===================================================================== *)

Module F32.

Definition prec : Z := 24.
Definition emax : Z := 128.

Definition t : Type := spec_float.

Definition zero : t := S754_zero false.
Definition one : t := S754_finite false 8388608 (-23).
Definition nan : t := S754_nan.

Definition valid (x : t) : bool := valid_binary prec emax x.

Definition of_int (n : Z) : t := binary_normalize prec emax n 0 false.
Definition sub (x y : t) : t := SFsub prec emax x y.
Definition div (x y : t) : t := SFdiv prec emax x y.

(** Go's comparison operators; all are false on NaN. *)
Definition eqb (x y : t) : bool := SFeqb x y.
Definition ltb (x y : t) : bool := SFltb x y.
Definition leb (x y : t) : bool := SFleb x y.
Definition gtb (x y : t) : bool := SFltb y x.
Definition geb (x y : t) : bool := SFleb y x.

(** The constant [0.15] converted to [float32]. *)
Definition c0_15 : t := S754_finite false 10066330 (-26).

End F32.

Module F64.

Definition prec : Z := 53.
Definition emax : Z := 1024.

Definition t : Type := spec_float.

Definition zero : t := S754_zero false.

Definition valid (x : t) : bool := valid_binary prec emax x.

(** The conversion [float64(n)] of an [int]. *)
Definition of_int (n : Z) : t := binary_normalize prec emax n 0 false.
Definition sub (x y : t) : t := SFsub prec emax x y.
Definition mul (x y : t) : t := SFmul prec emax x y.
Definition div (x y : t) : t := SFdiv prec emax x y.

Definition eqb (x y : t) : bool := SFeqb x y.
Definition ltb (x y : t) : bool := SFltb x y.
Definition leb (x y : t) : bool := SFleb x y.
Definition geb (x y : t) : bool := SFleb y x.

End F64.

(* ===================================================================== *)
(** ** Errors *)
(* ===================================================================== *)

(** [Errorf msg] is [fmt.Errorf(msg)]; [Wrapf p e] is
    [fmt.Errorf(p + ": %w", e)]. *)
Inductive error : Type :=
| Errorf (msg : string)
| Wrapf (prefix : string) (err : error).

(** The method [Error()] of the error value. *)
Fixpoint Error (e : error) : string :=
  match e with
  | Errorf msg => msg
  | Wrapf p e' => (p ++ ": " ++ Error e')%string
  end.

Definition errModelPath : error :=
  Errorf "invalid ModelPath: should not be empty".
Definition errSampleRate : error :=
  Errorf "invalid SampleRate: valid values are 8000 and 16000".
Definition errThreshold : error :=
  Errorf "invalid Threshold: should be in range (0, 1)".
Definition errNegativeThresholdRange : error :=
  Errorf "invalid NegativeThreshold: should be in range [0, 1)".
Definition errNegativeThresholdOrder : error :=
  Errorf "invalid NegativeThreshold: should be less than Threshold".
Definition errMinSilenceDurationMs : error :=
  Errorf "invalid MinSilenceDurationMs: should be a positive number".
Definition errMinSpeechDurationMs : error :=
  Errorf "invalid MinSpeechDurationMs: should be a positive number".
Definition errSpeechPadMs : error :=
  Errorf "invalid SpeechPadMs: should be a positive number".
Definition errNilDetector : error := Errorf "invalid nil detector".
Definition errNotEnoughSamples : error := Errorf "not enough samples".
Definition errUnexpectedSpeechEnd : error := Errorf "unexpected speech end".
Definition errInferFailed (err : error) : error := Wrapf "infer failed" err.
Definition errInvalidConfig (err : error) : error := Wrapf "invalid config" err.

(* ===================================================================== *)
(** ** Configuration *)
(* ===================================================================== *)

Definition stateLen : Z := 2 * 1 * 128.
Definition contextLen : Z := 64.

Record DetectorConfig : Type := mkConfig {
  ModelPath : string;
  SampleRate : Z;
  Threshold : F32.t;
  NegativeThreshold : F32.t;
  MinSilenceDurationMs : Z;
  MinSpeechDurationMs : Z;
  SpeechPadMs : Z;
  LogLevel : Z
}.

(** [IsValid] returns [None] for Go's [nil] error. *)
Definition IsValid (c : DetectorConfig) : option error :=
  if String.eqb (ModelPath c) "" then Some errModelPath
  else if negb (SampleRate c =? 8000) && negb (SampleRate c =? 16000)
  then Some errSampleRate
  else if F32.leb (Threshold c) F32.zero || F32.geb (Threshold c) F32.one
  then Some errThreshold
  else if F32.ltb (NegativeThreshold c) F32.zero
          || F32.geb (NegativeThreshold c) F32.one
  then Some errNegativeThresholdRange
  else if F32.gtb (NegativeThreshold c) F32.zero
          && F32.geb (NegativeThreshold c) (Threshold c)
  then Some errNegativeThresholdOrder
  else if MinSilenceDurationMs c <? 0 then Some errMinSilenceDurationMs
  else if MinSpeechDurationMs c <? 0 then Some errMinSpeechDurationMs
  else if SpeechPadMs c <? 0 then Some errSpeechPadMs
  else None.

Definition withNegativeThreshold (c : DetectorConfig) (v : F32.t) :=
  mkConfig (ModelPath c) (SampleRate c) (Threshold c) v
           (MinSilenceDurationMs c) (MinSpeechDurationMs c) (SpeechPadMs c)
           (LogLevel c).

Definition withThreshold (c : DetectorConfig) (v : F32.t) :=
  mkConfig (ModelPath c) (SampleRate c) v (NegativeThreshold c)
           (MinSilenceDurationMs c) (MinSpeechDurationMs c) (SpeechPadMs c)
           (LogLevel c).

Definition withMinSpeechDurationMs (c : DetectorConfig) (v : Z) :=
  mkConfig (ModelPath c) (SampleRate c) (Threshold c) (NegativeThreshold c)
           (MinSilenceDurationMs c) v (SpeechPadMs c) (LogLevel c).

Definition withSpeechPadMs (c : DetectorConfig) (v : Z) :=
  mkConfig (ModelPath c) (SampleRate c) (Threshold c) (NegativeThreshold c)
           (MinSilenceDurationMs c) (MinSpeechDurationMs c) v (LogLevel c).

(* ===================================================================== *)
(** ** The detector *)
(* ===================================================================== *)

(** The fields of [Detector] that the Go code reads and writes; the ONNX
    runtime handles are not part of the model. *)
Record Detector : Type := mkDetector {
  cfg : DetectorConfig;
  state : list F32.t;
  ctx : list F32.t;
  currSample : Z;
  triggered : bool;
  tempEnd : Z
}.

Definition zeros (n : Z) : list F32.t := repeat F32.zero (Z.to_nat n).

Definition withCfg (sd : Detector) (c : DetectorConfig) :=
  mkDetector c (state sd) (ctx sd) (currSample sd) (triggered sd) (tempEnd sd).
Definition withBuffers (sd : Detector) (b : list F32.t * list F32.t) :=
  mkDetector (cfg sd) (fst b) (snd b) (currSample sd) (triggered sd)
             (tempEnd sd).
Definition withCurrSample (sd : Detector) (v : Z) :=
  mkDetector (cfg sd) (state sd) (ctx sd) v (triggered sd) (tempEnd sd).
Definition withTriggered (sd : Detector) (v : bool) :=
  mkDetector (cfg sd) (state sd) (ctx sd) (currSample sd) v (tempEnd sd).
Definition withTempEnd (sd : Detector) (v : Z) :=
  mkDetector (cfg sd) (state sd) (ctx sd) (currSample sd) (triggered sd) v.

Record Segment : Type := mkSegment {
  SpeechStartAt : F64.t;
  SpeechEndAt : F64.t
}.

(** [segments[len(segments)-1].SpeechEndAt = v] on a non-empty slice. *)
Definition setLastEnd (segments : list Segment) (v : F64.t) : list Segment :=
  match rev segments with
  | [] => []
  | s :: before => rev before ++ [mkSegment (SpeechStartAt s) v]
  end.

(** The Go expression [float64(n) / float64(sd.cfg.SampleRate)]. *)
Definition seconds (sampleRate n : Z) : F64.t :=
  F64.div (F64.of_int n) (F64.of_int sampleRate).

Definition len {A : Type} (l : list A) : Z := Z.of_nat (List.length l).

(** The slice expression [pcm[i : j]]. *)
Definition slice {A : Type} (l : list A) (i j : Z) : list A :=
  firstn (Z.to_nat (j - i)) (skipn (Z.to_nat i) l).

(* ===================================================================== *)
(** ** The engine *)
(* ===================================================================== *)

(** The recurrent buffers [sd.state] and [sd.ctx] handed to the adapter. *)
Definition buffers : Type := (list F32.t * list F32.t)%type.

(** The type of [sd.infer]: from the sample rate, the recurrent buffers
    and one window to the updated buffers and [speechProb] or an error. *)
Definition adapter : Type :=
  Z -> buffers -> list F32.t -> buffers * (F32.t + error).

(** What one iteration of the window loop of [Detect] leads to: the next
    iteration ([continue] or the end of the body) or [return nil, err]. *)
Inductive flow : Type :=
| Next (sd : Detector) (segments : list Segment)
| Return (sd : Detector) (err : error).

Section Engine.

Variable infer : adapter.

(** The outcome of the ONNX runtime calls of [NewDetector] (environment,
    session options, session, memory info): [None] when all succeed. *)
Variable ortSetup : DetectorConfig -> option error.

Definition NewDetector (c : DetectorConfig)
  : option Detector * option error :=
  match IsValid c with
  | Some err => (None, Some (errInvalidConfig err))
  | None =>
      let c :=
        if F32.eqb (NegativeThreshold c) F32.zero
        then withNegativeThreshold c (F32.sub (Threshold c) F32.c0_15)
        else c in
      let c :=
        if MinSpeechDurationMs c =? 0
        then withMinSpeechDurationMs c 250
        else c in
      let sd := mkDetector c (zeros stateLen) (zeros contextLen) 0 false 0 in
      match ortSetup c with
      | Some err => (None, Some err)
      | None => (Some sd, None)
      end
  end.

(** [sd.currSample += windowSize] *)
Definition advance (windowSize : Z) (sd : Detector) : Detector :=
  withCurrSample sd (GoInt.add (currSample sd) windowSize).

(** [if speechProb >= sd.cfg.Threshold && sd.tempEnd != 0 { ... }] *)
Definition rearm (speechProb : F32.t) (sd : Detector) : Detector :=
  if F32.geb speechProb (Threshold (cfg sd)) && negb (tempEnd sd =? 0)
  then withTempEnd sd 0
  else sd.

(** [if speechProb >= sd.cfg.Threshold && !sd.triggered { ... }] *)
Definition trigger (windowSize speechPadSamples : Z) (speechProb : F32.t)
           (sd : Detector) (segments : list Segment)
  : Detector * list Segment :=
  if F32.geb speechProb (Threshold (cfg sd)) && negb (triggered sd)
  then
    let sd := withTriggered sd true in
    let speechStartAt :=
      seconds (SampleRate (cfg sd))
              (GoInt.sub (GoInt.sub (currSample sd) windowSize)
                         speechPadSamples) in
    let speechStartAt :=
      if F64.ltb speechStartAt F64.zero then F64.zero else speechStartAt in
    (sd, segments ++ [mkSegment speechStartAt F64.zero])
  else (sd, segments).

(** [if sd.tempEnd == 0 { sd.tempEnd = sd.currSample }] *)
Definition markCandidate (sd : Detector) : Detector :=
  if tempEnd sd =? 0 then withTempEnd sd (currSample sd) else sd.

(** [if speechProb < sd.cfg.NegativeThreshold && sd.triggered { ... }] *)
Definition silence (minSilenceSamples speechPadSamples : Z)
           (speechProb : F32.t) (sd : Detector) (segments : list Segment)
  : flow :=
  if F32.ltb speechProb (NegativeThreshold (cfg sd)) && triggered sd
  then
    let sd := markCandidate sd in
    if GoInt.sub (currSample sd) (tempEnd sd) <? minSilenceSamples
    then Next sd segments
    else
      let speechEndAt :=
        seconds (SampleRate (cfg sd))
                (GoInt.add (tempEnd sd) speechPadSamples) in
      let sd := withTriggered (withTempEnd sd 0) false in
      if len segments <? 1 then Return sd errUnexpectedSpeechEnd
      else Next sd (setLastEnd segments speechEndAt)
  else Next sd segments.

(** The body of the window loop of [Detect], on the window
    [pcm[i : i+windowSize]]: the inference call, then the four blocks
    above in the order of the source. *)
Definition detectWindow (windowSize minSilenceSamples speechPadSamples : Z)
           (sd : Detector) (segments : list Segment) (window : list F32.t)
  : flow :=
  let (bufs, r) := infer (SampleRate (cfg sd)) (state sd, ctx sd) window in
  let sd := withBuffers sd bufs in
  match r with
  | inr err => Return sd (errInferFailed err)
  | inl speechProb =>
      let sd := advance windowSize sd in
      let sd := rearm speechProb sd in
      let (sd, segments) :=
        trigger windowSize speechPadSamples speechProb sd segments in
      silence minSilenceSamples speechPadSamples speechProb sd segments
  end.

(** [for i := 0; i < len(pcm)-windowSize; i += windowSize { ... }],
    entered at index [i]; [None] when the fuel runs out. *)
Fixpoint detectLoop (fuel : nat)
         (windowSize minSilenceSamples speechPadSamples : Z)
         (pcm : list F32.t) (i : Z) (sd : Detector)
         (segments : list Segment) : option flow :=
  match fuel with
  | O => None
  | S fuel' =>
      if i <? GoInt.sub (len pcm) windowSize then
        match detectWindow windowSize minSilenceSamples speechPadSamples
                           sd segments
                           (slice pcm i (GoInt.add i windowSize)) with
        | Next sd' segments' =>
            detectLoop fuel' windowSize minSilenceSamples speechPadSamples
                       pcm (GoInt.add i windowSize) sd' segments'
        | Return sd' err => Some (Return sd' err)
        end
      else Some (Next sd segments)
  end.

(** The test of the filter loop: does [segment] go to
    [filteredSegments]? *)
Definition keepSegment (c : DetectorConfig) (minSpeechSamples : Z)
           (segment : Segment) : bool :=
  if F64.eqb (SpeechEndAt segment) F64.zero then true
  else
    let durationSamples :=
      F64.mul (F64.sub (SpeechEndAt segment) (SpeechStartAt segment))
              (F64.of_int (SampleRate c)) in
    F64.geb durationSamples (F64.of_int minSpeechSamples).

(** [// Filter out segments that are too short] *)
Definition filterShort (c : DetectorConfig) (minSpeechSamples : Z)
           (segments : list Segment) : list Segment :=
  if MinSpeechDurationMs c >? 0
  then filter (keepSegment c minSpeechSamples) segments
  else segments.

(** [windowSize := 512; if sd.cfg.SampleRate == 8000 { windowSize = 256 }] *)
Definition windowSizeOf (c : DetectorConfig) : Z :=
  if SampleRate c =? 8000 then 256 else 512.

(** The three conversions from milliseconds to samples at the head of
    [Detect], of the form [ms * sd.cfg.SampleRate / 1000]. *)
Definition minSilenceSamplesOf (c : DetectorConfig) : Z :=
  GoInt.quo (GoInt.mul (MinSilenceDurationMs c) (SampleRate c)) 1000.
Definition speechPadSamplesOf (c : DetectorConfig) : Z :=
  GoInt.quo (GoInt.mul (SpeechPadMs c) (SampleRate c)) 1000.
Definition minSpeechSamplesOf (c : DetectorConfig) : Z :=
  GoInt.quo (GoInt.mul (MinSpeechDurationMs c) (SampleRate c)) 1000.

(** [Detect]: the detector after the call, the returned slice ([nil] is
    the empty list) and the returned error; [None] only if the loop ran
    out of fuel, which [Detect_total] excludes. *)
Definition Detect (p : option Detector) (pcm : list F32.t)
  : option (option Detector * (list Segment * option error)) :=
  match p with
  | None => Some (None, ([], Some errNilDetector))
  | Some sd =>
      let windowSize := windowSizeOf (cfg sd) in
      if len pcm <? windowSize
      then Some (Some sd, ([], Some errNotEnoughSamples))
      else
        let minSilenceSamples := minSilenceSamplesOf (cfg sd) in
        let speechPadSamples := speechPadSamplesOf (cfg sd) in
        let minSpeechSamples := minSpeechSamplesOf (cfg sd) in
        match detectLoop (S (List.length pcm)) windowSize minSilenceSamples
                         speechPadSamples pcm 0 sd [] with
        | None => None
        | Some (Return sd' err) => Some (Some sd', ([], Some err))
        | Some (Next sd' segments) =>
            Some (Some sd',
                  (filterShort (cfg sd') minSpeechSamples segments, None))
        end
  end.

(** [Reset]; the arrays [state] and [ctx] have the fixed lengths
    [stateLen] and [contextLen]. *)
Definition Reset (p : option Detector) : option Detector * option error :=
  match p with
  | None => (None, Some errNilDetector)
  | Some sd =>
      (Some (mkDetector (cfg sd) (zeros stateLen) (zeros contextLen)
                        0 false 0), None)
  end.

(** The setters; they write the configuration and nothing else. *)
Definition SetThreshold (sd : Detector) (value : F32.t) : Detector :=
  withCfg sd (withThreshold (cfg sd) value).
Definition SetNegativeThreshold (sd : Detector) (value : F32.t) : Detector :=
  withCfg sd (withNegativeThreshold (cfg sd) value).
Definition SetMinSpeechDurationMs (sd : Detector) (value : Z) : Detector :=
  withCfg sd (withMinSpeechDurationMs (cfg sd) value).

End Engine.

(** An adapter for worked examples: the probability of a window is its
    first sample, the recurrent buffers are left as they are, and a window
    that starts with NaN makes the inference fail. *)
Definition firstSample : adapter :=
  fun _ bufs window =>
    match window with
    | S754_nan :: _ => (bufs, inr (Errorf "inference failed"))
    | p :: _ => (bufs, inl p)
    | [] => (bufs, inr (Errorf "empty window"))
    end.

(** A window of [n] samples that starts with [p]. *)
Definition windowOf (n : nat) (p : F32.t) : list F32.t :=
  p :: repeat F32.zero (n - 1).

Definition pcmOf (n : nat) (probs : list F32.t) : list F32.t :=
  List.concat (map (windowOf n) probs).

Definition ortOk : DetectorConfig -> option error := fun _ => None.

(** The [float32] and [float64] nearest to [num / den]. *)
Definition f32 (num den : Z) : F32.t :=
  F32.div (F32.of_int num) (F32.of_int den).
Definition f64 (num den : Z) : F64.t :=
  F64.div (F64.of_int num) (F64.of_int den).

(** Configurations of worked examples: 8 kHz and 16 kHz, threshold 0.5,
    negative threshold 0.35, no minimum silence, no padding. *)
Definition cfg8k : DetectorConfig :=
  mkConfig "silero_vad.onnx" 8000 (f32 1 2) (f32 35 100) 0 0 0 0.
Definition cfg16k : DetectorConfig :=
  mkConfig "silero_vad.onnx" 16000 (f32 1 2) (f32 35 100) 0 0 0 0.

(** The detectors that [NewDetector] builds from them
    ([MinSpeechDurationMs] defaults to 250). *)
Definition detector8k : Detector :=
  mkDetector (withMinSpeechDurationMs cfg8k 250)
             (zeros stateLen) (zeros contextLen) 0 false 0.
Definition detector16k : Detector :=
  mkDetector (withMinSpeechDurationMs cfg16k 250)
             (zeros stateLen) (zeros contextLen) 0 false 0.

(** A threshold below 0.15 with the negative threshold left unset. *)
Definition cfgLow : DetectorConfig :=
  mkConfig "silero_vad.onnx" 16000 (f32 1 10) F32.zero 0 0 0 0.

(** Thresholds that are not numbers. *)
Definition cfgNaN : DetectorConfig :=
  mkConfig "silero_vad.onnx" 16000 F32.nan F32.zero 0 0 0 0.
Definition cfgNegNaN : DetectorConfig :=
  mkConfig "silero_vad.onnx" 16000 (f32 1 2) F32.nan 0 0 0 0.

(** Buffers at 8 kHz, one probability per window; the last window of
    each is never inferred. *)
Definition speech : F32.t := f32 9 10.
Definition quiet : F32.t := f32 1 10.

(** Eight windows of speech, then silence. *)
Definition pcmSpeech : list F32.t :=
  pcmOf 256 (repeat speech 8 ++ [quiet; F32.zero]).
(** One window of speech. *)
Definition pcmOpen : list F32.t := pcmOf 256 [speech; F32.zero].
(** A window between the thresholds, then silence. *)
Definition pcmFade : list F32.t := pcmOf 256 [f32 4 10; quiet; F32.zero].
(** Speech, a dip to 0.3, five windows of speech, silence. *)
Definition pcmDip : list F32.t :=
  pcmOf 256 ([speech; f32 3 10] ++ repeat speech 5 ++ [quiet; F32.zero]).

(** Speech, then a window on which the inference fails. *)
Definition pcmBroken : list F32.t := pcmOf 256 [speech; F32.nan; F32.zero].
(** At 16 kHz: silence, eight windows of speech, silence. *)
Definition pcmPadded : list F32.t :=
  pcmOf 512 ([quiet] ++ repeat speech 8 ++ [quiet; F32.zero]).

(** One window of speech, then silence. *)
Definition pcmBlip : list F32.t := pcmOf 256 [speech; quiet; F32.zero].
(** At 16 kHz: ten windows of silence, ten of speech, silence. *)
Definition pcmShift : list F32.t :=
  pcmOf 512 (repeat quiet 10 ++ repeat speech 10 ++ [quiet; F32.zero]).
(** At 16 kHz: silence, six windows of speech, silence. *)
Definition pcmBrief : list F32.t :=
  pcmOf 512 ([quiet] ++ repeat speech 6 ++ [quiet; F32.zero]).

(** A padding that [IsValid] accepts and whose product with the sample
    rate leaves the range of [int]: [(2^58 - 64) * 8000] wraps around to
    [-512000], which gives a padding of [-512] samples. *)
Definition cfgWrapped : DetectorConfig := withSpeechPadMs cfg8k (2 ^ 58 - 64).
Definition detectorWrapped : Detector :=
  mkDetector (withMinSpeechDurationMs cfgWrapped 250)
             (zeros stateLen) (zeros contextLen) 0 false 0.

(** [detector16k] with the padding [P] in milliseconds. *)
Definition detector16kPad (P : Z) : Detector :=
  withCfg detector16k (withSpeechPadMs (cfg detector16k) P).

(** [detector8k] as the call on [pcmOpen] leaves it, inside a segment,
    and as the call on [pcmSpeech] leaves it, 2304 samples later. *)
Definition detectorOpen : Detector :=
  mkDetector (cfg detector8k) (zeros stateLen) (zeros contextLen) 256 true 0.
Definition detectorUsed : Detector :=
  mkDetector (cfg detector8k) (zeros stateLen) (zeros contextLen) 2304 false 0.

(** The configuration of [TestNewDetector]: threshold 0.5, the negative
    threshold left unset. *)
Definition cfgDefault : DetectorConfig :=
  mkConfig "silero_vad.onnx" 16000 (f32 1 2) F32.zero 0 0 0 0.

(** At 16 kHz, a probability trace with the shape of the one of
    [testfiles/samples.pcm]: speech from sample 16896, silence at the
    window that ends at sample 26112, speech from 46080, silence at the
    window that ends at 51712, speech from 71168 to the end. *)
Definition pcmTrace : list F32.t :=
  pcmOf 512 (repeat quiet 33 ++ repeat speech 17 ++ repeat quiet 40
             ++ repeat speech 10 ++ repeat quiet 39 ++ repeat speech 16
             ++ [F32.zero]).

(* ===================================================================== *)
(** ** The loop as a run over its windows *)
(* ===================================================================== *)

(** The windows that the header of the loop of [Detect] visits from index
    [i] on, in order: the arguments of the successive [sd.infer] calls as
    long as no iteration returns. *)
Fixpoint loopWindows (fuel : nat) (windowSize : Z) (pcm : list F32.t) (i : Z)
  : list (list F32.t) :=
  match fuel with
  | O => []
  | S fuel' =>
      if i <? GoInt.sub (len pcm) windowSize
      then slice pcm i (GoInt.add i windowSize)
           :: loopWindows fuel' windowSize pcm (GoInt.add i windowSize)
      else []
  end.

(** The loop body iterated over a list of windows. *)
Fixpoint runWindows (infer : adapter)
         (windowSize minSilenceSamples speechPadSamples : Z)
         (windows : list (list F32.t)) (sd : Detector)
         (segments : list Segment) : flow :=
  match windows with
  | [] => Next sd segments
  | w :: rest =>
      match detectWindow infer windowSize minSilenceSamples speechPadSamples
                         sd segments w with
      | Next sd' segments' =>
          runWindows infer windowSize minSilenceSamples speechPadSamples
                     rest sd' segments'
      | Return sd' err => Return sd' err
      end
  end.

(** The windows of a [Detect] call and its flow before the filter. *)
Definition detectWindows (c : DetectorConfig) (pcm : list F32.t)
  : list (list F32.t) :=
  loopWindows (S (List.length pcm)) (windowSizeOf c) pcm 0.

Definition emitted (infer : adapter) (sd : Detector) (pcm : list F32.t)
  : flow :=
  runWindows infer (windowSizeOf (cfg sd)) (minSilenceSamplesOf (cfg sd))
             (speechPadSamplesOf (cfg sd)) (detectWindows (cfg sd) pcm) sd [].

(* ===================================================================== *)
(** ** Predicates on the running state *)
(* ===================================================================== *)

(** The counters of a detector are coherent for a window size: the sample
    counter is not negative, a pending silence candidate lies between one
    window and the sample counter, and a candidate is pending only while
    triggered. A new detector and a reset detector are coherent. *)
Definition coherent (windowSize : Z) (sd : Detector) : Prop :=
  0 <= currSample sd
  /\ (tempEnd sd = 0 \/ windowSize <= tempEnd sd <= currSample sd)
  /\ (tempEnd sd <> 0 -> triggered sd = true).

(** The sample counter can take [n] more windows without leaving the
    range of [int]. *)
Definition room (windowSize : Z) (n : nat) (sd : Detector) : Prop :=
  currSample sd + windowSize * Z.of_nat n <= GoInt.max_int.

(** The last element of the slice [segments], if any. *)
Definition lastSegment (segments : list Segment) : option Segment :=
  match rev segments with
  | [] => None
  | s :: _ => Some s
  end.

(** A segment is open while its [SpeechEndAt] compares equal to 0. *)
Definition isOpen (s : Segment) : bool := F64.eqb (SpeechEndAt s) F64.zero.

(** The last emitted segment exists and is open. *)
Definition lastOpen (segments : list Segment) : bool :=
  match lastSegment segments with
  | Some s => isOpen s
  | None => false
  end.

(** Lines 232-251 of the body: the counter, the re-arm and the trigger. *)
Definition enter (windowSize speechPadSamples : Z) (speechProb : F32.t)
           (sd : Detector) (segments : list Segment)
  : Detector * list Segment :=
  trigger windowSize speechPadSamples speechProb
          (rearm speechProb (advance windowSize sd)) segments.

(** The window is silence-confirming and closes the segment: the test of
    line 253 holds and the test of line 259 fails. *)
Definition closes (minSilenceSamples : Z) (speechProb : F32.t)
           (sd : Detector) : bool :=
  F32.ltb speechProb (NegativeThreshold (cfg sd)) && triggered sd
  && negb (GoInt.sub (currSample (markCandidate sd))
                     (tempEnd (markCandidate sd)) <? minSilenceSamples).

(** The value of [sd.tempEnd] after lines 254-256. *)
Definition candidateOf (sd : Detector) : Z :=
  if tempEnd sd =? 0 then currSample sd else tempEnd sd.

(** The start time that the trigger block computes from the sample
    position [n]: [float64(n) / float64(SampleRate)], clamped at zero. *)
Definition startAt (sampleRate n : Z) : F64.t :=
  let speechStartAt := seconds sampleRate n in
  if F64.ltb speechStartAt F64.zero then F64.zero else speechStartAt.

(** The open segment that the trigger block appends. *)
Definition opened (sampleRate n : Z) : Segment :=
  mkSegment (startAt sampleRate n) F64.zero.

(** Two segments that come from the same sample positions, the second
    with the positions moved by [c] samples and padded by [pad2] instead
    of [pad1]: the starts are those of the positions [n - pad1] and
    [n + c - pad2], the ends are both unset or those of the positions
    [e + pad1] and [e + c + pad2]. *)
Definition moved (sampleRate c pad1 pad2 : Z) (a b : Segment) : Prop :=
  (exists n, 0 <= n
             /\ SpeechStartAt a = startAt sampleRate (n - pad1)
             /\ SpeechStartAt b = startAt sampleRate (n + c - pad2))
  /\ ((SpeechEndAt a = F64.zero /\ SpeechEndAt b = F64.zero)
      \/ (exists e, 0 < e
                    /\ SpeechEndAt a = seconds sampleRate (e + pad1)
                    /\ SpeechEndAt b = seconds sampleRate (e + c + pad2))).

(** The segment [b] is the segment [a] of the run without padding, with
    the padding of [pad] samples applied: [a] starts at the sample
    position [n] and [b] at the position [n - pad], clamped at zero
    exactly when [n < pad]; both are open, or [a] ends at the sample
    position [e] and [b] at the position [e + pad]. The time stamps are
    the [float64] quotients of the positions by the sample rate. *)
Definition padded (sampleRate pad : Z) (a b : Segment) : Prop :=
  exists n,
    0 <= n
    /\ SpeechStartAt a = seconds sampleRate n
    /\ SpeechStartAt b = startAt sampleRate (n - pad)
    /\ (pad <= n -> SpeechStartAt b = seconds sampleRate (n - pad))
    /\ (n < pad -> SpeechStartAt b = F64.zero)
    /\ ((SpeechEndAt a = F64.zero /\ SpeechEndAt b = F64.zero)
        \/ (exists e, 0 < e
                      /\ SpeechEndAt a = seconds sampleRate e
                      /\ SpeechEndAt b = seconds sampleRate (e + pad))).

(** The sample rate is one of the two supported ones (there is no
    setter for it), and the padding is not negative and converts to
    samples without leaving the range of [int]. *)
Definition wellPadded (c : DetectorConfig) : Prop :=
  (SampleRate c = 8000 \/ SampleRate c = 16000)
  /\ 0 <= SpeechPadMs c
  /\ SpeechPadMs c * SampleRate c <= GoInt.max_int.

(** The window of [pcm] at offset [i + k * windowSize]. *)
Definition windowAt (windowSize : Z) (pcm : list F32.t) (i : Z) (k : nat)
  : list F32.t :=
  slice pcm (i + Z.of_nat k * windowSize)
        (i + Z.of_nat k * windowSize + windowSize).

(** While triggered, the slice of the current call is not empty. *)
Definition covered (sd : Detector) (segments : list Segment) : Prop :=
  triggered sd = true -> segments <> [].

(** The trigger flag tells whether the last segment of the current call
    is open; [n] windows are still to come. *)
Definition flagged (c0 : DetectorConfig) (ws pad : Z) (n : nat)
           (sd : Detector) (segments : list Segment) : Prop :=
  coherent ws sd /\ cfg sd = c0
  /\ currSample sd + ws * Z.of_nat n + pad <= GoInt.max_int
  /\ triggered sd = lastOpen segments.

(** Two runs over the same windows, run 1 with the lower negative
    threshold: whenever run 2 is inside a segment so is run 1, a
    candidate of run 1 is not older than the one of run 2, and run 1 has
    opened no more segments than run 2. *)
Definition lags (c1 c2 : DetectorConfig) (ws : Z) (n : nat)
           (sd1 : Detector) (segments1 : list Segment)
           (sd2 : Detector) (segments2 : list Segment) : Prop :=
  (coherent ws sd1 /\ coherent ws sd2 /\ room ws n sd1
   /\ covered sd1 segments1 /\ covered sd2 segments2)
  /\ (cfg sd1 = c1 /\ cfg sd2 = c2 /\ currSample sd1 = currSample sd2
      /\ state sd1 = state sd2 /\ ctx sd1 = ctx sd2)
  /\ (triggered sd2 = true -> triggered sd1 = true)
  /\ (triggered sd2 = true -> tempEnd sd1 <> 0 ->
      tempEnd sd2 <> 0 /\ tempEnd sd2 <= tempEnd sd1)
  /\ (List.length segments1 <= List.length segments2)%nat.

(** Two runs over the same windows, run 2 with the sample counter [c]
    samples ahead of run 1 and with the padding [pad2] for [pad1]. *)
Definition ahead (c1 c2 : DetectorConfig) (ws pad1 pad2 c : Z) (n : nat)
           (sd1 : Detector) (segments1 : list Segment)
           (sd2 : Detector) (segments2 : list Segment) : Prop :=
  (coherent ws sd1 /\ coherent ws sd2
   /\ currSample sd2 + ws * Z.of_nat n + pad1 <= GoInt.max_int
   /\ currSample sd2 + ws * Z.of_nat n + pad2 <= GoInt.max_int
   /\ covered sd1 segments1 /\ covered sd2 segments2)
  /\ (cfg sd1 = c1 /\ cfg sd2 = c2
      /\ currSample sd2 = currSample sd1 + c
      /\ state sd1 = state sd2 /\ ctx sd1 = ctx sd2
      /\ triggered sd1 = triggered sd2)
  /\ ((tempEnd sd1 = 0 /\ tempEnd sd2 = 0)
      \/ (tempEnd sd1 <> 0 /\ tempEnd sd2 = tempEnd sd1 + c))
  /\ Forall2 (moved (SampleRate c1) c pad1 pad2) segments1 segments2.

(** The conjunction of the constraints that [IsValid] checks, in the
    order of the checks. *)
Definition constraints (c : DetectorConfig) : Prop :=
  (SampleRate c = 8000 \/ SampleRate c = 16000)
  /\ (F32.gtb (Threshold c) F32.zero = true
      /\ F32.ltb (Threshold c) F32.one = true)
  /\ (F32.geb (NegativeThreshold c) F32.zero = true
      /\ F32.ltb (NegativeThreshold c) F32.one = true)
  /\ (F32.eqb (NegativeThreshold c) F32.zero = true
      \/ F32.ltb (NegativeThreshold c) (Threshold c) = true)
  /\ 0 <= MinSilenceDurationMs c
  /\ 0 <= MinSpeechDurationMs c
  /\ 0 <= SpeechPadMs c.

(* ===================================================================== *)
(** ** Log levels *)
(* ===================================================================== *)

(** The enumeration [OrtLoggingLevel] of the ONNX runtime C API. *)
Inductive COrtLoggingLevel : Type :=
| ORT_LOGGING_LEVEL_VERBOSE
| ORT_LOGGING_LEVEL_INFO
| ORT_LOGGING_LEVEL_WARNING
| ORT_LOGGING_LEVEL_ERROR
| ORT_LOGGING_LEVEL_FATAL.

(** The constants of type [LogLevel], declared with [iota + 1]. *)
Definition LevelVerbose : Z := 0 + 1.
Definition LogLevelInfo : Z := 1 + 1.
Definition LogLevelWarn : Z := 2 + 1.
Definition LogLevelError : Z := 3 + 1.
Definition LogLevelFatal : Z := 4 + 1.

(** The method [LogLevel.OrtLoggingLevel]. *)
Definition OrtLoggingLevel (l : Z) : COrtLoggingLevel :=
  if l =? LevelVerbose then ORT_LOGGING_LEVEL_VERBOSE
  else if l =? LogLevelInfo then ORT_LOGGING_LEVEL_INFO
  else if l =? LogLevelWarn then ORT_LOGGING_LEVEL_WARNING
  else if l =? LogLevelError then ORT_LOGGING_LEVEL_ERROR
  else if l =? LogLevelFatal then ORT_LOGGING_LEVEL_FATAL
  else ORT_LOGGING_LEVEL_WARNING.

(** The configuration with another [MinSilenceDurationMs]. *)
Definition withMinSilenceDurationMs (c : DetectorConfig) (v : Z) :=
  mkConfig (ModelPath c) (SampleRate c) (Threshold c) (NegativeThreshold c)
           v (MinSpeechDurationMs c) (SpeechPadMs c) (LogLevel c).

(* ===================================================================== *)
(** ** The probabilities of a call and the shape of its segments *)
(* ===================================================================== *)

(** The values of [speechProb] on the successive windows of a run, up to
    the first window on which [sd.infer] fails: the adapter is called on
    each window with the buffers that the call before has left. *)
Fixpoint probabilities (infer : adapter) (sampleRate : Z) (bufs : buffers)
         (windows : list (list F32.t)) : list F32.t :=
  match windows with
  | [] => []
  | w :: rest =>
      match infer sampleRate bufs w with
      | (bufs', inl p) => p :: probabilities infer sampleRate bufs' rest
      | (_, inr _) => []
      end
  end.

(** The segment that the loop leaves for speech that was opened at the
    sample position [n] and closed at the position [e]. *)
Definition closedAt (sampleRate pad n e : Z) : Segment :=
  mkSegment (startAt sampleRate (n - pad)) (seconds sampleRate (e + pad)).

(** [timeline segments open next]: the slice [segments] as a call that
    started at the sample position [c0] can have built it, with [next] a
    position that no boundary exceeds. Every segment runs from the start
    [n] of a window to the end [e] of that or of a later window; a segment
    starts at least [ms] samples, and not before, the end of the one
    before it; only the last segment can be open, and [open] tells
    whether it is. *)
Inductive timeline (sampleRate ws ms pad c0 : Z)
  : list Segment -> bool -> Z -> Prop :=
| timeline_nil (next : Z) :
    c0 <= next -> timeline sampleRate ws ms pad c0 [] false next
| timeline_closed (segments : list Segment) (lo n e next : Z) :
    timeline sampleRate ws ms pad c0 segments false lo ->
    lo <= n -> (ws | n - c0) ->
    n + ws <= e -> (ws | e - c0) ->
    e <= next -> e + ms <= next ->
    timeline sampleRate ws ms pad c0
             (segments ++ [closedAt sampleRate pad n e]) false next
| timeline_open (segments : list Segment) (lo n next : Z) :
    timeline sampleRate ws ms pad c0 segments false lo ->
    lo <= n -> (ws | n - c0) ->
    n + ws <= next ->
    timeline sampleRate ws ms pad c0
             (segments ++ [opened sampleRate (n - pad)]) true next.

(** The state of the window loop of a call that started at the sample
    position [c0], with [n] windows still to come. *)
Definition scheduled (c : DetectorConfig) (ws ms pad c0 : Z) (n : nat)
           (sd : Detector) (segments : list Segment) : Prop :=
  coherent ws sd /\ cfg sd = c
  /\ currSample sd + ws * Z.of_nat n + pad <= GoInt.max_int
  /\ (ws | currSample sd - c0)
  /\ exists next,
      timeline (SampleRate c) ws ms pad c0 segments (triggered sd) next
      /\ next <= currSample sd
      /\ (tempEnd sd <> 0 -> next <= tempEnd sd /\ (ws | tempEnd sd - c0)).

(** The two tests of the loop body on the probability of a window:
    [speechProb >= sd.cfg.Threshold] and
    [speechProb < sd.cfg.NegativeThreshold]. *)
Definition isSpeech (c : DetectorConfig) (p : F32.t) : bool :=
  F32.geb p (Threshold c).
Definition isSilence (c : DetectorConfig) (p : F32.t) : bool :=
  F32.ltb p (NegativeThreshold c).

(** The state before a window: coherent counters that can take the
    windows still to come with the padding, and a slice that is not
    empty while triggered. *)
Definition ready (c : DetectorConfig) (ws pad : Z) (sd : Detector)
           (segments : list Segment) (windows : list (list F32.t)) : Prop :=
  coherent ws sd /\ cfg sd = c /\ covered sd segments
  /\ currSample sd + ws * len windows + pad <= GoInt.max_int.

(** Two runs over the same windows, run 1 with the longer minimum of
    silence: whenever run 2 is inside a segment so is run 1, with the
    same candidate, and run 1 has opened no more segments than run 2. *)
Definition outlasts (c1 c2 : DetectorConfig) (ws pad : Z) (n : nat)
           (sd1 : Detector) (segments1 : list Segment)
           (sd2 : Detector) (segments2 : list Segment) : Prop :=
  (coherent ws sd1 /\ coherent ws sd2
   /\ currSample sd1 + ws * Z.of_nat n + pad <= GoInt.max_int
   /\ covered sd1 segments1 /\ covered sd2 segments2)
  /\ (cfg sd1 = c1 /\ cfg sd2 = c2 /\ currSample sd1 = currSample sd2
      /\ state sd1 = state sd2 /\ ctx sd1 = ctx sd2)
  /\ (triggered sd2 = true ->
      triggered sd1 = true /\ tempEnd sd1 = tempEnd sd2)
  /\ (List.length segments1 <= List.length segments2)%nat.

(** A time stamp is zero or a positive number. *)
Definition nonNegative (x : F64.t) : Prop :=
  F64.eqb x F64.zero = true \/ F64.ltb F64.zero x = true.

(* ===================================================================== *)
(** ** The tester: [cmd/vad_tester/main.go] *)
(* ===================================================================== *)

(** [binary.LittleEndian.Uint32(b)] on a slice of four bytes. *)
Definition Uint32 (b : list Byte.byte) : Z :=
  let byteAt k := Z.of_N (Byte.to_N (nth k b Byte.x00)) in
  Z.lor (Z.lor (Z.lor (byteAt 0%nat) (Z.shiftl (byteAt 1%nat) 8))
               (Z.shiftl (byteAt 2%nat) 16))
        (Z.shiftl (byteAt 3%nat) 24).

(** [math.Float32frombits(b)]: bit 31 is the sign, bits 30-23 the biased
    exponent, bits 22-0 the fraction. *)
Definition Float32frombits (b : Z) : F32.t :=
  let sign := Z.testbit b 31 in
  let exponent := Z.land (Z.shiftr b 23) 255 in
  let fraction := Z.land b (2 ^ 23 - 1) in
  if exponent =? 255 then
    if fraction =? 0 then S754_infinity sign else S754_nan
  else if exponent =? 0 then
    match fraction with
    | Zpos m => S754_finite sign m (-149)
    | _ => S754_zero sign
    end
  else S754_finite sign (Z.to_pos (fraction + 2 ^ 23)) (exponent - 150).

(** The loop of [readPCMFile],
    [for i := 0; i < len(data); i += 4 { if i+4 <= len(data) { ... } }],
    entered at index [i]; [None] when the fuel runs out. *)
Fixpoint readLoop (fuel : nat) (data : list Byte.byte) (i : Z)
         (samples : list F32.t) : option (list F32.t) :=
  match fuel with
  | O => None
  | S fuel' =>
      if i <? len data then
        let samples :=
          if GoInt.add i 4 <=? len data
          then samples
               ++ [Float32frombits (Uint32 (slice data i (GoInt.add i 4)))]
          else samples in
        readLoop fuel' data (GoInt.add i 4) samples
      else Some samples
  end.

(** The conversion [float32(x)] of a [float64]. *)
Definition float32 (x : F64.t) : F32.t :=
  match x with
  | S754_finite s m e =>
      binary_normalize F32.prec F32.emax (cond_Zopp s (Zpos m)) e s
  | _ => x
  end.

(** The sum [x + y] of two [float64]. *)
Definition F64add (x y : F64.t) : F64.t := SFadd F64.prec F64.emax x y.

(** The command line flags of the tester. *)
Record Flags : Type := mkFlags {
  modelPath : string;
  audioPath : string;
  sampleRate : Z;
  threshold : F64.t;
  negThreshold : F64.t;
  minSilence : Z;
  minSpeech : Z;
  speechPad : Z;
  verbose : bool
}.

(** What the tester prints after a detection: the segments, the total
    duration of the finished ones, the duration of the audio and the
    share of speech in it, in percent. *)
Record Report : Type := mkReport {
  detected : list Segment;
  totalSpeechDuration : F64.t;
  audioDuration : F64.t;
  speechPercent : F64.t
}.

(** The run of [main]: [os.Exit(1)] after logging an error, or the
    report. *)
Inductive outcome : Type :=
| Exit1 (err : error)
| Done (report : Report).

(** One iteration of the loop over the segments in [main]. *)
Definition addDuration (total : F64.t) (segment : Segment) : F64.t :=
  let segmentDuration :=
    F64.sub (SpeechEndAt segment) (SpeechStartAt segment) in
  if F64.ltb F64.zero (SpeechEndAt segment)
  then F64add total segmentDuration
  else total.

Section Tester.

(** [os.ReadFile]. *)
Variable ReadFile : string -> list Byte.byte + error.
Variable infer : adapter.
Variable ortSetup : DetectorConfig -> option error.

Definition readPCMFile (path : string) : option (list F32.t + error) :=
  match ReadFile path with
  | inr err => Some (inr (Wrapf "failed to read file" err))
  | inl data =>
      match readLoop (S (List.length data)) data 0 [] with
      | Some samples => Some (inl samples)
      | None => None
      end
  end.

(** The configuration that [main] builds from the flags. *)
Definition configOf (f : Flags) : DetectorConfig :=
  mkConfig (modelPath f) (sampleRate f) (float32 (threshold f))
           (float32 (negThreshold f)) (minSilence f) (minSpeech f)
           (speechPad f) LogLevelError.

(** [main] without its log lines and the formatting of the output;
    [None] only if a loop ran out of fuel. *)
Definition main (f : Flags) : option outcome :=
  match readPCMFile (audioPath f) with
  | None => None
  | Some (inr err) => Some (Exit1 err)
  | Some (inl samples) =>
      match NewDetector ortSetup (configOf f) with
      | (_, Some err) => Some (Exit1 err)
      | (detector, None) =>
          match Detect infer detector samples with
          | None => None
          | Some (_, (_, Some err)) => Some (Exit1 err)
          | Some (_, (segments, None)) =>
              let totalSpeechDuration :=
                fold_left addDuration segments F64.zero in
              let audioDuration := seconds (sampleRate f) (len samples) in
              Some (Done (mkReport
                            segments totalSpeechDuration audioDuration
                            (F64.mul
                               (F64.div totalSpeechDuration audioDuration)
                               (F64.of_int 100))))
          end
      end
  end.

End Tester.

(* ===================================================================== *)
(** ** Further worked examples *)
(* ===================================================================== *)

(** At 8 kHz: two windows below the threshold. *)
Definition pcmQuiet : list F32.t := pcmOf 256 [quiet; quiet; F32.zero].

(** A detector whose threshold is not a number. *)
Definition detectorNaN : Detector :=
  mkDetector cfgNaN (zeros stateLen) (zeros contextLen) 0 false 0.

(** The four bytes of the [float32] 0.9, [0x3F666666], in the order of
    the file. *)
Definition bytesSpeech : list Byte.byte :=
  [Byte.x66; Byte.x66; Byte.x66; Byte.x3f].

(** A file system for the tester: a file of 512 samples, one of 100
    samples, one of one sample, one of three bytes and the concatenation
    of the last two. *)
Definition exampleFiles (path : string) : list Byte.byte + error :=
  if String.eqb path "speech.pcm"
  then inl (List.concat (repeat bytesSpeech 512))
  else if String.eqb path "short.pcm"
  then inl (List.concat (repeat bytesSpeech 100))
  else if String.eqb path "head.pcm" then inl bytesSpeech
  else if String.eqb path "tail.pcm"
  then inl [Byte.x66; Byte.x66; Byte.x66]
  else if String.eqb path "both.pcm"
  then inl (bytesSpeech ++ [Byte.x66; Byte.x66; Byte.x66])
  else inr (Errorf "no such file").

(** The flags [-sr 8000 -audio speech.pcm], the others at their
    defaults, and the same with [-audio short.pcm]. *)
Definition flags8k : Flags :=
  mkFlags "testfiles/silero_vad.onnx" "speech.pcm" 8000 (f64 1 2) F64.zero
          500 250 30 false.
Definition flagsShort : Flags :=
  mkFlags "testfiles/silero_vad.onnx" "short.pcm" 8000 (f64 1 2) F64.zero
          500 250 30 false.

(* ===================================================================== *)
(** * Properties *)
(* ===================================================================== *)

(** ** Machine integers *)

Lemma wrap_id (z : Z) : GoInt.in_range z -> GoInt.wrap z = z.
Proof.
  unfold GoInt.in_range, GoInt.wrap, GoInt.min_int, GoInt.max_int.
  intros H. rewrite Z.mod_small; lia.
Qed.

Lemma wrap_range (z : Z) : GoInt.in_range (GoInt.wrap z).
Proof.
  unfold GoInt.in_range, GoInt.wrap, GoInt.min_int, GoInt.max_int.
  pose proof (Z.mod_pos_bound (z + 2 ^ 63) (2 ^ 64)). lia.
Qed.

Lemma add_id (x y : Z) : GoInt.in_range (x + y) -> GoInt.add x y = x + y.
Proof. apply wrap_id. Qed.

Lemma sub_id (x y : Z) : GoInt.in_range (x - y) -> GoInt.sub x y = x - y.
Proof. apply wrap_id. Qed.

Lemma mul_id (x y : Z) : GoInt.in_range (x * y) -> GoInt.mul x y = x * y.
Proof. apply wrap_id. Qed.

Lemma quo_id (x y : Z) :
  GoInt.in_range (Z.quot x y) -> GoInt.quo x y = Z.quot x y.
Proof. apply wrap_id. Qed.

(** ** Comparisons of floating point numbers *)

Ltac cmp_cases :=
  repeat match goal with
  | |- context [Pos.compare_cont Eq ?a ?b] =>
      change (Pos.compare_cont Eq a b) with (Pos.compare a b);
      destruct (Pos.compare_spec a b)
  | H : context [Pos.compare_cont Eq ?a ?b] |- _ =>
      change (Pos.compare_cont Eq a b) with (Pos.compare a b) in H;
      destruct (Pos.compare_spec a b)
  | |- context [Z.compare ?a ?b] => destruct (Z.compare_spec a b)
  | H : context [Z.compare ?a ?b] |- _ => destruct (Z.compare_spec a b)
  end.

Lemma SFcompare_antisym (x y : spec_float) :
  SFcompare y x = option_map CompOpp (SFcompare x y).
Proof.
  destruct x as [sx | sx | | sx mx ex], y as [sy | sy | | sy my ey];
    try destruct sx; try destruct sy; try reflexivity;
    cbn [SFcompare option_map]; f_equal;
    cmp_cases; subst; cbn; try reflexivity; try lia.
Qed.

Lemma F32_ltb_trans (x y z : F32.t) :
  F32.ltb x y = true -> F32.ltb y z = true -> F32.ltb x z = true.
Proof.
  unfold F32.ltb, SFltb.
  destruct x as [sx | sx | | sx mx ex], y as [sy | sy | | sy my ey],
           z as [sz | sz | | sz mz ez];
    try destruct sx; try destruct sy; try destruct sz;
    cbn [SFcompare]; try discriminate; try reflexivity;
    intros H1 H2; cmp_cases; subst; cbn in *;
    try discriminate; try reflexivity; try lia.
Qed.

(** ** Rounding of floating point numbers *)

Lemma digits2_pos_bounds (m : positive) :
  2 ^ (Zpos (digits2_pos m) - 1) <= Zpos m < 2 ^ Zpos (digits2_pos m).
Proof.
  induction m as [m IH | m IH |]; cbn [digits2_pos].
  - rewrite Pos2Z.inj_succ.
    replace (Z.succ (Zpos (digits2_pos m)) - 1) with (Zpos (digits2_pos m) - 1 + 1) by lia.
    rewrite !Z.pow_succ_r, Z.pow_add_r by lia. lia.
  - rewrite Pos2Z.inj_succ.
    replace (Z.succ (Zpos (digits2_pos m)) - 1) with (Zpos (digits2_pos m) - 1 + 1) by lia.
    rewrite !Z.pow_succ_r, Z.pow_add_r by lia. lia.
  - cbn. lia.
Qed.

Lemma shr_1_m (mrs : shr_record) :
  0 <= shr_m mrs -> shr_m (shr_1 mrs) = shr_m mrs / 2.
Proof.
  destruct mrs as [m r s]. cbn [shr_m]. intros Hm.
  destruct m as [| p | p]; [reflexivity | | lia].
  destruct p as [p | p |]; cbn [shr_1 shr_m].
  - rewrite Pos2Z.inj_xI. apply Z.div_unique with (r := 1); lia.
  - rewrite Pos2Z.inj_xO. apply Z.div_unique with (r := 0); lia.
  - reflexivity.
Qed.

Lemma pow2_xI (p : positive) :
  2 ^ Zpos p~1 = 2 * (2 ^ Zpos p * 2 ^ Zpos p).
Proof.
  rewrite (Pos2Z.inj_xI p).
  replace (2 * Zpos p + 1) with (Z.succ (Zpos p + Zpos p)) by lia.
  rewrite Z.pow_succ_r, Z.pow_add_r by lia. reflexivity.
Qed.

Lemma pow2_xO (p : positive) : 2 ^ Zpos p~0 = 2 ^ Zpos p * 2 ^ Zpos p.
Proof.
  rewrite (Pos2Z.inj_xO p).
  replace (2 * Zpos p) with (Zpos p + Zpos p) by lia.
  rewrite Z.pow_add_r by lia. reflexivity.
Qed.

Lemma iter_pos_shr_1_m (p : positive) :
  forall mrs, 0 <= shr_m mrs ->
    shr_m (iter_pos shr_1 p mrs) = shr_m mrs / 2 ^ Zpos p.
Proof.
  assert (Hpow : forall q, 0 < 2 ^ Zpos q)
    by (intros; apply Z.pow_pos_nonneg; lia).
  induction p as [p IH | p IH |]; intros mrs Hm; cbn [iter_pos].
  - assert (H1 : 0 <= shr_m (shr_1 mrs))
      by (rewrite shr_1_m by assumption; apply Z.div_pos; lia).
    assert (H2 : 0 <= shr_m (iter_pos shr_1 p (shr_1 mrs)))
      by (rewrite IH by assumption; apply Z.div_pos; [assumption | apply Hpow]).
    rewrite IH, IH, shr_1_m by assumption.
    pose proof (Hpow p).
    rewrite !Z.div_div by lia. rewrite pow2_xI. reflexivity.
  - assert (H2 : 0 <= shr_m (iter_pos shr_1 p mrs))
      by (rewrite IH by assumption; apply Z.div_pos; [assumption | apply Hpow]).
    rewrite IH, IH by assumption.
    pose proof (Hpow p).
    rewrite !Z.div_div by lia. rewrite pow2_xO. reflexivity.
  - rewrite shr_1_m by assumption. reflexivity.
Qed.

Lemma shr_record_of_loc_m (m : Z) (l : location) :
  shr_m (shr_record_of_loc m l) = m.
Proof. destruct l as [| []]; reflexivity. Qed.

Section Round.
Variables prec emax : Z.
Hypothesis prec_pos : 0 < prec.

Lemma shr_fexp_pos (m : positive) (e : Z) (l : location) :
  emin prec emax <= e ->
  0 < shr_m (fst (shr_fexp prec emax (Zpos m) e l))
  /\ e <= snd (shr_fexp prec emax (Zpos m) e l).
Proof.
  intros He. unfold shr_fexp, shr. cbn [Zdigits2].
  pose proof (digits2_pos_bounds m) as [Hlo Hhi].
  set (d := Zpos (digits2_pos m)) in *.
  destruct (fexp prec emax (d + e) - e) as [| k | k] eqn:Ek; cbn [fst snd];
    rewrite ?shr_record_of_loc_m; try lia.
  rewrite iter_pos_shr_1_m by (rewrite shr_record_of_loc_m; lia).
  rewrite shr_record_of_loc_m.
  assert (Hk : Zpos k = d - prec) by (unfold fexp in Ek; lia).
  split; [| lia].
  apply Z.lt_le_trans with (2 ^ (prec - 1)); [apply Z.pow_pos_nonneg; lia |].
  apply Z.div_le_lower_bound; [apply Z.pow_pos_nonneg; lia |].
  rewrite <- Z.pow_add_r by lia.
  replace (Zpos k + (prec - 1)) with (d - 1) by lia. exact Hlo.
Qed.

Lemma round_nearest_even_pos (m : Z) (l : location) :
  0 < m -> 0 < round_nearest_even m l.
Proof.
  intros Hm. destruct l as [| []]; cbn; try lia. destruct (Z.even m); lia.
Qed.

Lemma binary_round_aux_pos (sx : bool) (m : positive) (e : Z) (l : location) :
  emin prec emax <= e ->
  binary_round_aux prec emax sx (Zpos m) e l = S754_infinity sx
  \/ exists m' e',
      binary_round_aux prec emax sx (Zpos m) e l = S754_finite sx m' e'
      /\ e <= e'.
Proof.
  intros He. unfold binary_round_aux.
  pose proof (shr_fexp_pos m e l He) as [H1 H2].
  destruct (shr_fexp prec emax (Zpos m) e l) as [mrs' e']. cbn [fst snd] in *.
  pose proof (round_nearest_even_pos (shr_m mrs') (loc_of_shr_record mrs') H1) as H3.
  destruct (round_nearest_even (shr_m mrs') (loc_of_shr_record mrs')) as [| m1 | m1];
    try lia.
  pose proof (shr_fexp_pos m1 e' loc_Exact ltac:(lia)) as [H4 H5].
  destruct (shr_fexp prec emax (Zpos m1) e' loc_Exact) as [mrs'' e'']. cbn [fst snd] in *.
  destruct (shr_m mrs'') as [| m2 | m2]; try lia.
  destruct (e'' <=? emax - prec); [right | left; reflexivity].
  exists m2, e''. split; [reflexivity | lia].
Qed.

Lemma shr_fexp_nonneg (m e : Z) (l : location) :
  0 <= m -> 0 <= shr_m (fst (shr_fexp prec emax m e l)).
Proof.
  intros Hm. unfold shr_fexp, shr.
  destruct (fexp prec emax (Zdigits2 m + e) - e) as [| k | k];
    cbn [fst]; rewrite ?shr_record_of_loc_m; try lia.
  rewrite iter_pos_shr_1_m by (rewrite shr_record_of_loc_m; lia).
  rewrite shr_record_of_loc_m.
  apply Z.div_pos; [lia | apply Z.pow_pos_nonneg; lia].
Qed.

(** Rounding keeps the sign: no NaN comes out of a mantissa that is
    not negative. *)
Lemma binary_round_aux_sign (sx : bool) (m e : Z) (l : location) :
  0 <= m ->
  binary_round_aux prec emax sx m e l = S754_zero sx
  \/ binary_round_aux prec emax sx m e l = S754_infinity sx
  \/ exists m' e', binary_round_aux prec emax sx m e l = S754_finite sx m' e'.
Proof.
  intros Hm. unfold binary_round_aux.
  pose proof (shr_fexp_nonneg m e l Hm) as H1.
  destruct (shr_fexp prec emax m e l) as [mrs' e']. cbn [fst] in H1.
  assert (H3 : 0 <= round_nearest_even (shr_m mrs') (loc_of_shr_record mrs')).
  { destruct (loc_of_shr_record mrs') as [| []]; cbn; try lia.
    destruct (Z.even (shr_m mrs')); lia. }
  pose proof (shr_fexp_nonneg _ e' loc_Exact H3) as H4.
  destruct (shr_fexp prec emax _ e' loc_Exact) as [mrs'' e''].
  cbn [fst] in H4.
  destruct (shr_m mrs'') as [| m2 | m2]; try lia; [auto |].
  destruct (e'' <=? emax - prec); eauto.
Qed.

Lemma shl_align_exp (m : positive) (e e' : Z) :
  snd (shl_align m e e') = Z.min e e'.
Proof.
  unfold shl_align. destruct (e' - e) eqn:E; cbn [snd]; lia.
Qed.

Lemma binary_round_pos (sx : bool) (m : positive) (e : Z) :
  emin prec emax <= e ->
  binary_round prec emax sx m e = S754_infinity sx
  \/ exists m' e',
      binary_round prec emax sx m e = S754_finite sx m' e'
      /\ Z.min e (fexp prec emax (Zpos (digits2_pos m) + e)) <= e'.
Proof.
  intros He. unfold binary_round.
  pose proof (shl_align_exp m e (fexp prec emax (Zpos (digits2_pos m) + e)))
    as Hexp.
  destruct (shl_align m e _) as [mz ez]. cbn [snd] in Hexp.
  assert (Hez : emin prec emax <= ez) by (unfold fexp in Hexp; lia).
  destruct (binary_round_aux_pos sx mz ez loc_Exact Hez)
    as [H | [m' [e' [H H']]]]; [left; exact H | right].
  exists m', e'. split; [exact H | lia].
Qed.

Lemma binary_round_sign (sx : bool) (m : positive) (e : Z) :
  binary_round prec emax sx m e = S754_zero sx
  \/ binary_round prec emax sx m e = S754_infinity sx
  \/ exists m' e', binary_round prec emax sx m e = S754_finite sx m' e'.
Proof.
  unfold binary_round. destruct (shl_align m e _) as [mz ez].
  apply binary_round_aux_sign. lia.
Qed.

(** A quotient of two positive numbers that is not below the least
    positive number is finite and positive, or the positive infinity. *)
Lemma SFdiv_pos (s1 s2 : bool) (m1 m2 : positive) (e1 e2 : Z) :
  emin prec emax <= e1 - e2 ->
  emin prec emax
  <= Zpos (digits2_pos m1) + e1 - (Zpos (digits2_pos m2) + e2) - prec ->
  SFdiv prec emax (S754_finite s1 m1 e1) (S754_finite s2 m2 e2)
  = S754_infinity (xorb s1 s2)
  \/ exists m e,
      SFdiv prec emax (S754_finite s1 m1 e1) (S754_finite s2 m2 e2)
      = S754_finite (xorb s1 s2) m e.
Proof.
  intros H1 H2. cbn [SFdiv]. unfold SFdiv_core_binary. cbn [Zdigits2].
  pose proof (digits2_pos_bounds m1) as [Hlo1 Hhi1].
  pose proof (digits2_pos_bounds m2) as [Hlo2 Hhi2].
  set (d1 := Zpos (digits2_pos m1)) in *.
  set (d2 := Zpos (digits2_pos m2)) in *.
  set (e' := Z.min (fexp prec emax (d1 + e1 - (d2 + e2))) (e1 - e2)).
  assert (He' : emin prec emax <= e') by (unfold e', fexp; lia).
  assert (Hs : 0 <= e1 - e2 - e') by (unfold e'; lia).
  set (m' := match e1 - e2 - e' with
             | 0 => Zpos m1
             | Zpos _ => Z.shiftl (Zpos m1) (e1 - e2 - e')
             | Zneg _ => 0
             end).
  assert (Hm' : m' = Zpos m1 * 2 ^ (e1 - e2 - e')).
  { unfold m'. clear m'. generalize dependent (e1 - e2 - e').
    intros sft Hsft. destruct sft as [| k | k]; try lia.
    rewrite Z.shiftl_mul_pow2 by lia. reflexivity. }
  assert (Hq : Zpos m2 <= m').
  { rewrite Hm'.
    destruct (Z.le_gt_cases (d2 + prec) d1) as [Hbig | Hsmall].
    - assert (2 ^ d2 <= 2 ^ (d1 - 1)) by (apply Z.pow_le_mono_r; lia).
      assert (0 < 2 ^ (e1 - e2 - e')) by (apply Z.pow_pos_nonneg; lia).
      nia.
    - assert (Hs' : prec + d2 - d1 <= e1 - e2 - e')
        by (unfold e', fexp; lia).
      assert (2 ^ (prec + d2 - d1) <= 2 ^ (e1 - e2 - e'))
        by (apply Z.pow_le_mono_r; lia).
      assert (Hx : 2 ^ (d1 - 1) * 2 ^ (prec + d2 - d1) = 2 ^ (prec + d2 - 1)).
      { rewrite <- Z.pow_add_r by lia. f_equal. lia. }
      assert (2 ^ d2 <= 2 ^ (prec + d2 - 1)) by (apply Z.pow_le_mono_r; lia).
      assert (0 < 2 ^ (d1 - 1)) by (apply Z.pow_pos_nonneg; lia).
      nia. }
  pose proof (Z.div_eucl_eq m' (Zpos m2) ltac:(lia)) as Heq.
  pose proof (Z.mod_pos_bound m' (Zpos m2) ltac:(lia)) as Hr.
  unfold Z.modulo in Hr.
  destruct (Z.div_eucl m' (Zpos m2)) as [q r].
  assert (Hqpos : 0 < q) by nia.
  destruct q as [| q | q]; try lia.
  destruct (binary_round_aux_pos (xorb s1 s2) q e'
                                 (new_location (Zpos m2) r) He')
    as [H | [m [e [H _]]]]; [left; exact H | right; eauto].
Qed.
End Round.


Lemma of_int_sign (n : Z) :
  n <> 0 ->
  F64.of_int n = S754_infinity (n <? 0)
  \/ exists m e, F64.of_int n = S754_finite (n <? 0) m e /\ -52 <= e.
Proof.
  intros Hn. unfold F64.of_int, F64.prec, F64.emax, binary_normalize.
  destruct n as [| p | p]; [congruence | |].
  - destruct (binary_round_pos 53 1024 ltac:(lia) false p 0)
      as [H | [m [e [H H']]]]; [unfold emin; lia | left; exact H | right].
    exists m, e. split; [exact H |]. unfold fexp, emin in H'. lia.
  - destruct (binary_round_pos 53 1024 ltac:(lia) true p 0)
      as [H | [m [e [H H']]]]; [unfold emin; lia | left; exact H | right].
    exists m, e. split; [exact H |]. unfold fexp, emin in H'. lia.
Qed.

Lemma seconds_sign (sampleRate n : Z) :
  sampleRate = 8000 \/ sampleRate = 16000 ->
  n <> 0 ->
  seconds sampleRate n = S754_infinity (n <? 0)
  \/ exists m e, seconds sampleRate n = S754_finite (n <? 0) m e.
Proof.
  intros Hsr Hn. unfold seconds, F64.div, F64.prec, F64.emax.
  assert (Hrate : exists m2 e2,
             F64.of_int sampleRate = S754_finite false m2 e2
             /\ -40 <= e2 <= -39 /\ Zpos (digits2_pos m2) = 53).
  { destruct Hsr; subst sampleRate; do 2 eexists;
      (split; [vm_compute; reflexivity | split; [lia | reflexivity]]). }
  destruct Hrate as [m2 [e2 [E2 [He2 Hd2]]]]. rewrite E2.
  destruct (of_int_sign n Hn) as [E1 | [m1 [e1 [E1 He1]]]]; rewrite E1.
  - left. cbn. destruct (n <? 0); reflexivity.
  - pose proof (SFdiv_pos 53 1024 ltac:(lia) (n <? 0) false m1 m2 e1 e2) as H.
    rewrite xorb_false_r in H.
    pose proof (Pos2Z.is_pos (digits2_pos m1)).
    apply H; unfold emin; rewrite ?Hd2; lia.
Qed.

Lemma iter_xO_val (d m : positive) :
  Zpos (Pos.iter xO m d) = Zpos m * 2 ^ Zpos d.
Proof.
  induction d as [| d IH] using Pos.peano_ind.
  - cbn. lia.
  - rewrite Pos.iter_succ, Pos2Z.inj_xO, IH, Pos2Z.inj_succ, Z.pow_succ_r by lia.
    lia.
Qed.

Lemma shl_align_val (m : positive) (e ez : Z) :
  ez <= e -> Zpos (fst (shl_align m e ez)) = Zpos m * 2 ^ (e - ez).
Proof.
  intros H. unfold shl_align.
  destruct (ez - e) as [| d | d] eqn:E; cbn [fst]; try lia.
  - replace (e - ez) with 0 by lia. rewrite Z.pow_0_r. lia.
  - rewrite iter_xO_val. f_equal. f_equal. lia.
Qed.

Lemma valid32_digits (s : bool) (m : positive) (e : Z) :
  valid_binary 24 128 (S754_finite s m e) = true ->
  -149 <= e <= 104
  /\ Zpos (digits2_pos m) <= 24
  /\ (-149 < e -> Zpos (digits2_pos m) = 24).
Proof.
  cbn [valid_binary]. unfold bounded, canonical_mantissa, fexp, emin.
  intros H. apply andb_prop in H. destruct H as [H1 H2].
  apply Z.eqb_eq in H1. apply Z.leb_le in H2. lia.
Qed.

Lemma SFleb_zero_sign (x : spec_float) :
  x = S754_zero false \/ x = S754_infinity false
  \/ (exists m e, x = S754_finite false m e) ->
  SFleb (S754_zero false) x = true.
Proof. intros [H | [H | [m [e H]]]]; subst; reflexivity. Qed.

Lemma sub_c0_15_nonneg (t : F32.t) :
  F32.valid t = true ->
  F32.geb t F32.c0_15 = true ->
  F32.geb (F32.sub t F32.c0_15) F32.zero = true.
Proof.
  unfold F32.valid, F32.geb, F32.leb, F32.sub, F32.zero, F32.prec, F32.emax.
  intros Hv Hle.
  destruct t as [s | s | | s m e];
    [ discriminate
    | destruct s; [discriminate | reflexivity]
    | discriminate
    | destruct s; [discriminate |] ].
  destruct (valid32_digits _ _ _ Hv) as [He [Hd Hd']].
  pose proof (digits2_pos_bounds m) as [Hlo Hhi].
  unfold F32.c0_15 in *. cbn [SFsub cond_Zopp].
  assert (Hez : Z.min e (-26) = -26).
  { unfold SFleb in Hle. cbn [SFcompare] in Hle.
    destruct (Z.compare_spec (-26) e); try discriminate; lia. }
  rewrite Hez, !shl_align_val by lia.
  replace (-26 - -26) with 0 by lia. rewrite Z.pow_0_r, Z.mul_1_r.
  assert (HD : 0 <= Zpos m * 2 ^ (e - -26) - 10066330).
  { unfold SFleb in Hle. cbn [SFcompare] in Hle.
    destruct (Z.compare_spec (-26) e) as [E | E | E]; try discriminate.
    - subst e. change (Pos.compare_cont Eq 10066330 m)
        with (Pos.compare 10066330 m) in Hle.
      destruct (Pos.compare_spec 10066330 m); try discriminate;
        replace (-26 - -26) with 0 by lia; rewrite Z.pow_0_r; lia.
    - rewrite Hd' in Hlo by lia.
      assert (2 ^ 1 <= 2 ^ (e - -26)) by (apply Z.pow_le_mono_r; lia).
      change (2 ^ (24 - 1)) with 8388608 in Hlo. change (2 ^ 1) with 2 in *.
      nia. }
  apply SFleb_zero_sign. unfold binary_normalize.
  destruct (Zpos m * 2 ^ (e - -26) - 10066330) as [| D | D]; [auto | | lia].
  destruct (binary_round_sign 24 128 false D (-26)) as [H | [H | H]]; auto.
Qed.

(** ** The window loop *)

Lemma windowSizeOf_cases (c : DetectorConfig) :
  windowSizeOf c = 256 \/ windowSizeOf c = 512.
Proof. unfold windowSizeOf. destruct (SampleRate c =? 8000); auto. Qed.

Lemma windowSizeOf_pos (c : DetectorConfig) : 256 <= windowSizeOf c <= 512.
Proof. destruct (windowSizeOf_cases c) as [H | H]; rewrite H; lia. Qed.

Section Loop.

Variable infer : adapter.
Variables windowSize minSilenceSamples speechPadSamples : Z.
Variable pcm : list F32.t.

Hypothesis windowSize_pos : 0 < windowSize.
Hypothesis pcm_fits : len pcm <= GoInt.max_int.
Hypothesis windowSize_le : windowSize <= len pcm.

Lemma loop_bound : GoInt.sub (len pcm) windowSize = len pcm - windowSize.
Proof.
  apply sub_id. unfold GoInt.in_range, GoInt.min_int, GoInt.max_int in *.
  lia.
Qed.

Lemma loop_index (i : Z) :
  0 <= i -> i < len pcm - windowSize ->
  GoInt.add i windowSize = i + windowSize.
Proof.
  intros H0 H1. apply add_id.
  unfold GoInt.in_range, GoInt.min_int, GoInt.max_int in *. lia.
Qed.

(** With enough fuel the loop terminates, and it is the run of the body
    over [loopWindows]. *)
Lemma detectLoop_run (fuel : nat) :
  forall (i : Z) (sd : Detector) (segments : list Segment),
    0 <= i ->
    Z.max 0 (len pcm - windowSize - i) < Z.of_nat fuel ->
    detectLoop infer fuel windowSize minSilenceSamples speechPadSamples
               pcm i sd segments
    = Some (runWindows infer windowSize minSilenceSamples speechPadSamples
                       (loopWindows fuel windowSize pcm i) sd segments).
Proof.
  induction fuel as [| fuel IH]; intros i sd segments Hi Hfuel.
  - exfalso. lia.
  - cbn [detectLoop loopWindows]. rewrite loop_bound.
    destruct (i <? len pcm - windowSize) eqn:Hlt.
    + apply Z.ltb_lt in Hlt. cbn [runWindows].
      destruct (detectWindow infer windowSize minSilenceSamples
                             speechPadSamples sd segments
                             (slice pcm i (GoInt.add i windowSize)))
        as [sd' segments' | sd' err]; [| reflexivity].
      rewrite loop_index by assumption. apply IH; lia.
    + reflexivity.
Qed.

End Loop.

Section DetectShape.

Variable infer : adapter.

Lemma detectLoop_emitted (sd : Detector) (pcm : list F32.t) :
  len pcm <= GoInt.max_int ->
  windowSizeOf (cfg sd) <= len pcm ->
  detectLoop infer (S (List.length pcm)) (windowSizeOf (cfg sd))
             (minSilenceSamplesOf (cfg sd)) (speechPadSamplesOf (cfg sd))
             pcm 0 sd []
  = Some (emitted infer sd pcm).
Proof.
  intros Hfit Hlen. pose proof (windowSizeOf_pos (cfg sd)) as Hws.
  unfold emitted, detectWindows.
  apply detectLoop_run; try lia.
  unfold len in *. lia.
Qed.

(** [Detect] always returns, and its result is read off the run of the
    loop body over the windows of the buffer. *)
Lemma Detect_emitted (sd : Detector) (pcm : list F32.t) :
  len pcm <= GoInt.max_int ->
  Detect infer (Some sd) pcm
  = Some
      (if len pcm <? windowSizeOf (cfg sd)
       then (Some sd, ([], Some errNotEnoughSamples))
       else
         match emitted infer sd pcm with
         | Return sd' err => (Some sd', ([], Some err))
         | Next sd' segments =>
             (Some sd',
              (filterShort (cfg sd') (minSpeechSamplesOf (cfg sd)) segments,
               None))
         end).
Proof.
  intros Hfit. unfold Detect.
  destruct (len pcm <? windowSizeOf (cfg sd)) eqn:Hshort; [reflexivity |].
  apply Z.ltb_ge in Hshort.
  rewrite (detectLoop_emitted sd pcm Hfit Hshort).
  destruct (emitted infer sd pcm); reflexivity.
Qed.

Lemma Detect_total (p : option Detector) (pcm : list F32.t) :
  len pcm <= GoInt.max_int -> Detect infer p pcm <> None.
Proof.
  intros Hfit. destruct p as [sd |]; [| discriminate].
  rewrite Detect_emitted by assumption. discriminate.
Qed.

End DetectShape.

(** *** Which windows the loop visits *)

Section WindowCount.

Variable windowSize : Z.
Variable pcm : list F32.t.

Hypothesis windowSize_pos : 0 < windowSize.
Hypothesis pcm_fits : len pcm <= GoInt.max_int.
Hypothesis windowSize_le : windowSize <= len pcm.

Lemma loopWindows_enum (fuel : nat) :
  forall i : Z,
    0 <= i ->
    Z.max 0 (len pcm - windowSize - i) < Z.of_nat fuel ->
    loopWindows fuel windowSize pcm i
    = map (windowAt windowSize pcm i)
          (seq 0 (Z.to_nat ((len pcm - i - 1) / windowSize))).
Proof.
  induction fuel as [| fuel IH]; intros i Hi Hfuel; [exfalso; lia |].
  cbn [loopWindows].
  rewrite (loop_bound windowSize pcm) by assumption.
  destruct (i <? len pcm - windowSize) eqn:Hlt.
  - apply Z.ltb_lt in Hlt.
    rewrite (loop_index windowSize pcm) by (assumption || lia).
    rewrite IH by lia.
    replace (len pcm - i - 1) with ((len pcm - (i + windowSize) - 1)
                                    + 1 * windowSize) by lia.
    rewrite Z.div_add by lia.
    assert (Hq : 0 <= (len pcm - (i + windowSize) - 1) / windowSize)
      by (apply Z.div_pos; lia).
    rewrite Z2Nat.inj_add by lia.
    replace (Z.to_nat 1) with 1%nat by reflexivity.
    rewrite Nat.add_comm. cbn [Nat.add seq map]. f_equal.
    + unfold windowAt. f_equal; lia.
    + rewrite <- seq_shift, map_map. apply map_ext. intros k.
      unfold windowAt. f_equal; lia.
  - apply Z.ltb_ge in Hlt.
    assert (Hq : (len pcm - i - 1) / windowSize <= 0).
    { destruct (Z.le_gt_cases 0 (len pcm - i - 1)) as [Hnn | Hneg].
      - rewrite Z.div_small by lia. lia.
      - apply Z.lt_le_incl. apply Z.div_lt_upper_bound; lia. }
    replace (Z.to_nat ((len pcm - i - 1) / windowSize)) with 0%nat by lia.
    reflexivity.
Qed.

End WindowCount.

(** ** The loop body, block by block *)

Lemma runWindows_app (infer : adapter) (ws ms pad : Z)
      (pre post : list (list F32.t)) :
  forall (sd : Detector) (segments : list Segment),
    runWindows infer ws ms pad (pre ++ post) sd segments
    = match runWindows infer ws ms pad pre sd segments with
      | Next sd' segments' => runWindows infer ws ms pad post sd' segments'
      | Return sd' err => Return sd' err
      end.
Proof.
  induction pre as [| w pre IH]; intros sd segments; [reflexivity |].
  cbn [app runWindows].
  destruct (detectWindow infer ws ms pad sd segments w); [apply IH | reflexivity].
Qed.

(** An invariant of the body, indexed by the number of windows still to
    come, is an invariant of the run. *)
Lemma runWindows_invariant (infer : adapter) (ws ms pad : Z)
      (P : nat -> Detector -> list Segment -> Prop)
      (Q : Detector -> error -> Prop) :
  (forall n sd segments w,
      P (S n) sd segments ->
      match detectWindow infer ws ms pad sd segments w with
      | Next sd' segments' => P n sd' segments'
      | Return sd' err => Q sd' err
      end) ->
  forall windows k sd segments,
    P (List.length windows + k)%nat sd segments ->
    match runWindows infer ws ms pad windows sd segments with
    | Next sd' segments' => P k sd' segments'
    | Return sd' err => Q sd' err
    end.
Proof.
  intros Hstep. induction windows as [| w windows IH];
    intros k sd segments HP; [exact HP |].
  cbn [runWindows]. specialize (Hstep _ _ _ w HP).
  destruct (detectWindow infer ws ms pad sd segments w); [| exact Hstep].
  apply IH. exact Hstep.
Qed.

Lemma lastSegment_snoc (segments : list Segment) (s : Segment) :
  lastSegment (segments ++ [s]) = Some s.
Proof. unfold lastSegment. rewrite rev_app_distr. reflexivity. Qed.

Lemma setLastEnd_snoc (segments : list Segment) (s : Segment) (v : F64.t) :
  setLastEnd (segments ++ [s]) v = segments ++ [mkSegment (SpeechStartAt s) v].
Proof.
  unfold setLastEnd. rewrite rev_app_distr. cbn [rev app].
  rewrite rev_involutive. reflexivity.
Qed.

Lemma segments_snoc (segments : list Segment) :
  segments <> [] -> exists before s, segments = before ++ [s].
Proof.
  intros H. destruct (exists_last H) as [before [s E]]. eauto.
Qed.

Lemma len_nonempty {A : Type} (l : list A) : l <> [] -> (len l <? 1) = false.
Proof.
  intros H. apply Z.ltb_ge. destruct l; [congruence |].
  unfold len. cbn [List.length]. lia.
Qed.

Section Machine.

Variable infer : adapter.
Variables ws ms pad : Z.

(** *** No close without an open segment *)

Lemma trigger_covered p sd segments :
  covered sd segments ->
  covered (fst (trigger ws pad p sd segments))
          (snd (trigger ws pad p sd segments)).
Proof.
  unfold covered, trigger. intros H.
  destruct (F32.geb p (Threshold (cfg sd)) && negb (triggered sd));
    cbn; [| exact H].
  intros _ E. destruct segments; discriminate.
Qed.

Lemma silence_covered p sd segments :
  covered sd segments ->
  match silence ms pad p sd segments with
  | Next sd' segments' => covered sd' segments'
  | Return _ _ => False
  end.
Proof.
  unfold covered, silence, markCandidate. intros H.
  destruct (F32.ltb p (NegativeThreshold (cfg sd))); cbn [andb]; [| exact H].
  destruct (triggered sd) eqn:Ht; [| intros Ht'; congruence].
  specialize (H eq_refl).
  destruct (tempEnd sd =? 0); cbn;
    destruct (_ <? ms); cbn; try (intros _; exact H);
    rewrite (len_nonempty segments H); cbn; discriminate.
Qed.

Lemma detectWindow_covered sd segments w :
  covered sd segments ->
  match detectWindow infer ws ms pad sd segments w with
  | Next sd' segments' => covered sd' segments'
  | Return _ err => exists e, err = errInferFailed e
  end.
Proof.
  intros H. unfold detectWindow.
  destruct (infer (SampleRate (cfg sd)) (state sd, ctx sd) w) as [bufs [p | e]];
    [| eauto].
  assert (H1 : covered (rearm p (advance ws (withBuffers sd bufs))) segments).
  { unfold covered, rearm, advance. destruct (_ && _); cbn; exact H. }
  pose proof (trigger_covered p _ _ H1) as H2.
  destruct (trigger ws pad p _ segments) as [sd2 segments2]. cbn [fst snd] in H2.
  pose proof (silence_covered p _ _ H2) as H3.
  destruct (silence ms pad p sd2 segments2); [exact H3 | contradiction].
Qed.

Lemma runWindows_covered windows sd segments :
  covered sd segments ->
  match runWindows infer ws ms pad windows sd segments with
  | Next sd' segments' => covered sd' segments'
  | Return _ err => exists e, err = errInferFailed e
  end.
Proof.
  intros H.
  apply (runWindows_invariant infer ws ms pad
           (fun _ => covered) (fun _ err => exists e, err = errInferFailed e))
    with (k := 0%nat); [| exact H].
  intros _ sd0 segments0 w0. apply detectWindow_covered.
Qed.

End Machine.

(** ** Errors of [Detect] *)

Lemma detectWindows_short (c : DetectorConfig) (pcm : list F32.t) :
  len pcm <= GoInt.max_int -> len pcm <= windowSizeOf c ->
  detectWindows c pcm = [].
Proof.
  intros Hfit Hshort. unfold detectWindows. cbn [loopWindows].
  pose proof (windowSizeOf_pos c) as Hws.
  rewrite sub_id.
  - destruct (0 <? len pcm - windowSizeOf c) eqn:E; [| reflexivity].
    apply Z.ltb_lt in E. lia.
  - unfold GoInt.in_range, GoInt.min_int, GoInt.max_int, len in *. lia.
Qed.

Lemma detectWindow_enter (infer : adapter) (ws ms pad : Z) (sd : Detector)
      (segments : list Segment) (w : list F32.t) (bufs : buffers) (p : F32.t) :
  infer (SampleRate (cfg sd)) (state sd, ctx sd) w = (bufs, inl p) ->
  detectWindow infer ws ms pad sd segments w
  = silence ms pad p (fst (enter ws pad p (withBuffers sd bufs) segments))
            (snd (enter ws pad p (withBuffers sd bufs) segments)).
Proof.
  intros E. unfold detectWindow, enter. rewrite E.
  destruct (trigger ws pad p _ segments). reflexivity.
Qed.

Lemma detectWindow_fails (infer : adapter) (ws ms pad : Z) (sd : Detector)
      (segments : list Segment) (w : list F32.t) (bufs : buffers) (e : error) :
  infer (SampleRate (cfg sd)) (state sd, ctx sd) w = (bufs, inr e) ->
  detectWindow infer ws ms pad sd segments w
  = Return (withBuffers sd bufs) (errInferFailed e).
Proof. intros E. unfold detectWindow. rewrite E. reflexivity. Qed.

Lemma silence_closes (ms pad : Z) (p : F32.t) (sd : Detector)
      (segments : list Segment) :
  closes ms p sd = true ->
  silence ms pad p sd segments
  = let sd' := markCandidate sd in
    if len segments <? 1
    then Return (withTriggered (withTempEnd sd' 0) false) errUnexpectedSpeechEnd
    else Next (withTriggered (withTempEnd sd' 0) false)
              (setLastEnd segments
                          (seconds (SampleRate (cfg sd'))
                                   (GoInt.add (tempEnd sd') pad))).
Proof.
  unfold closes, silence. intros H.
  apply andb_prop in H. destruct H as [H1 H2]. rewrite H1.
  apply negb_true_iff in H2. rewrite H2. reflexivity.
Qed.

(** C5. A silence-confirming window that closes while the slice of the
    current call is still empty makes [Detect] return the error
    "unexpected speech end" (and no segments); and a call entered with
    [triggered == false], as it is after [Reset], never returns that
    error, whatever the probabilities. *)
Theorem unexpected_speech_end
        (infer : adapter) (sd : Detector) (pcm : list F32.t) :
  len pcm <= GoInt.max_int ->
  (forall pre w post sdk bufs p,
      detectWindows (cfg sd) pcm = pre ++ w :: post ->
      runWindows infer (windowSizeOf (cfg sd)) (minSilenceSamplesOf (cfg sd))
                 (speechPadSamplesOf (cfg sd)) pre sd [] = Next sdk [] ->
      infer (SampleRate (cfg sdk)) (state sdk, ctx sdk) w = (bufs, inl p) ->
      snd (enter (windowSizeOf (cfg sd)) (speechPadSamplesOf (cfg sd)) p
                 (withBuffers sdk bufs) []) = [] ->
      closes (minSilenceSamplesOf (cfg sd)) p
             (fst (enter (windowSizeOf (cfg sd)) (speechPadSamplesOf (cfg sd))
                         p (withBuffers sdk bufs) [])) = true ->
      exists sd',
        Detect infer (Some sd) pcm
        = Some (Some sd', ([], Some errUnexpectedSpeechEnd)))
  /\ (triggered sd = false ->
      exists sd' segments err,
        Detect infer (Some sd) pcm = Some (Some sd', (segments, err))
        /\ err <> Some errUnexpectedSpeechEnd).
Proof.
  intros Hfit. split.
  - intros pre w post sdk bufs p Hwin Hpre Hinfer Hnone Hclose.
    rewrite Detect_emitted by assumption.
    destruct (len pcm <? windowSizeOf (cfg sd)) eqn:Hshort.
    { apply Z.ltb_lt in Hshort.
      rewrite detectWindows_short in Hwin by lia.
      destruct pre; discriminate. }
    unfold emitted. rewrite Hwin, runWindows_app, Hpre. cbn [runWindows].
    rewrite (detectWindow_enter _ _ _ _ _ _ _ _ _ Hinfer).
    rewrite (silence_closes _ _ _ _ _ Hclose), Hnone. cbn.
    eauto.
  - intros Htrig. rewrite Detect_emitted by assumption.
    destruct (len pcm <? windowSizeOf (cfg sd)).
    { do 3 eexists. split; [reflexivity | discriminate]. }
    unfold emitted.
    pose proof (runWindows_covered infer (windowSizeOf (cfg sd))
                  (minSilenceSamplesOf (cfg sd)) (speechPadSamplesOf (cfg sd))
                  (detectWindows (cfg sd) pcm) sd []) as H.
    destruct (runWindows _ _ _ _ _ sd []) as [sd' segments | sd' err].
    + do 3 eexists. split; [reflexivity | discriminate].
    + destruct H as [e He].
      { unfold covered. congruence. }
      subst err. do 3 eexists. split; [reflexivity | discriminate].
Qed.

(** C9. An error of [Detect] comes with the [nil] slice: when the
    inference fails at a window, the segments emitted before that window
    are not returned, and the error is the wrapped inference error; a
    buffer shorter than one window gives the error "not enough samples"
    and no segments. *)
Theorem no_partial_segments
        (infer : adapter) (sd : Detector) (pcm : list F32.t) :
  len pcm <= GoInt.max_int ->
  exists sd' segments err,
    Detect infer (Some sd) pcm = Some (sd', (segments, err))
    /\ (err <> None -> segments = [])
    /\ (len pcm < windowSizeOf (cfg sd) ->
        err = Some errNotEnoughSamples /\ sd' = Some sd)
    /\ (forall pre w post sdk segmentsk bufs e,
          detectWindows (cfg sd) pcm = pre ++ w :: post ->
          runWindows infer (windowSizeOf (cfg sd))
                     (minSilenceSamplesOf (cfg sd))
                     (speechPadSamplesOf (cfg sd)) pre sd []
          = Next sdk segmentsk ->
          infer (SampleRate (cfg sdk)) (state sdk, ctx sdk) w = (bufs, inr e) ->
          err = Some (errInferFailed e) /\ segments = []).
Proof.
  intros Hfit. rewrite Detect_emitted by assumption.
  destruct (len pcm <? windowSizeOf (cfg sd)) eqn:Hshort.
  - apply Z.ltb_lt in Hshort.
    do 3 eexists. split; [reflexivity |].
    split; [reflexivity |]. split; [split; reflexivity |].
    intros pre w post sdk segmentsk bufs e Hwin.
    rewrite detectWindows_short in Hwin by lia. destruct pre; discriminate.
  - apply Z.ltb_ge in Hshort. unfold emitted.
    destruct (runWindows _ _ _ _ (detectWindows (cfg sd) pcm) sd [])
      as [sd' segments | sd' err] eqn:Hrun;
      do 3 eexists; (split; [reflexivity |]);
        (split; [congruence |]); (split; [lia |]).
    all: intros pre w post sdk segmentsk bufs e Hwin Hpre Hinfer.
    all: rewrite Hwin, runWindows_app, Hpre in Hrun; cbn [runWindows] in Hrun.
    all: rewrite (detectWindow_fails _ _ _ _ _ _ _ _ _ Hinfer) in Hrun.
    all: split; congruence.
Qed.

(** ** The counters *)

Lemma detectWindows_enum (c : DetectorConfig) (pcm : list F32.t) :
  len pcm <= GoInt.max_int -> windowSizeOf c <= len pcm ->
  detectWindows c pcm
  = map (windowAt (windowSizeOf c) pcm 0)
        (seq 0 (Z.to_nat ((len pcm - 1) / windowSizeOf c))).
Proof.
  intros Hfit Hlen. pose proof (windowSizeOf_pos c) as Hws.
  unfold detectWindows. rewrite loopWindows_enum; try lia.
  - repeat f_equal. lia.
  - unfold len in *. lia.
Qed.

Lemma detectWindows_room (c : DetectorConfig) (pcm : list F32.t) :
  len pcm <= GoInt.max_int ->
  windowSizeOf c * Z.of_nat (List.length (detectWindows c pcm)) <= len pcm.
Proof.
  intros Hfit. pose proof (windowSizeOf_pos c) as Hws.
  destruct (Z.le_gt_cases (windowSizeOf c) (len pcm)) as [Hlen | Hshort].
  - rewrite detectWindows_enum by assumption.
    rewrite length_map, length_seq, Z2Nat.id by (apply Z.div_pos; lia).
    pose proof (Z.mul_div_le (len pcm - 1) (windowSizeOf c)). lia.
  - rewrite detectWindows_short by lia. cbn. unfold len. lia.
Qed.

Section Counters.

Variable infer : adapter.
Variables ws ms pad : Z.
Hypothesis ws_pos : 0 < ws.

Lemma rearm_fields p s :
  cfg (rearm p s) = cfg s /\ currSample (rearm p s) = currSample s
  /\ triggered (rearm p s) = triggered s
  /\ state (rearm p s) = state s /\ ctx (rearm p s) = ctx s
  /\ (tempEnd (rearm p s) = tempEnd s \/ tempEnd (rearm p s) = 0).
Proof. unfold rearm. destruct (_ && _); cbn; auto 10. Qed.

Lemma trigger_fields p s segments :
  let s' := fst (trigger ws pad p s segments) in
  cfg s' = cfg s /\ currSample s' = currSample s
  /\ tempEnd s' = tempEnd s
  /\ state s' = state s /\ ctx s' = ctx s
  /\ (triggered s' = triggered s \/ triggered s' = true).
Proof. unfold trigger. destruct (_ && _); cbn; auto 10. Qed.

Lemma advance_fields s :
  0 <= currSample s -> room ws 1 s ->
  cfg (advance ws s) = cfg s /\ currSample (advance ws s) = currSample s + ws
  /\ triggered (advance ws s) = triggered s
  /\ state (advance ws s) = state s /\ ctx (advance ws s) = ctx s
  /\ tempEnd (advance ws s) = tempEnd s.
Proof.
  unfold room, advance. intros Hc Hroom. cbn. repeat split.
  apply add_id. unfold GoInt.in_range, GoInt.min_int, GoInt.max_int in *.
  lia.
Qed.

Lemma enter_coherent p sd segments :
  coherent ws sd -> room ws 1 sd ->
  let s := fst (enter ws pad p sd segments) in
  coherent ws s /\ currSample s = currSample sd + ws /\ cfg s = cfg sd
  /\ state s = state sd /\ ctx s = ctx sd.
Proof.
  unfold coherent. intros [Hc [Ht Hp]] Hroom.
  pose proof (advance_fields sd Hc Hroom) as HA.
  unfold enter. remember (advance ws sd) as a eqn:Ea. clear Ea.
  pose proof (rearm_fields p a) as HR.
  remember (rearm p a) as r eqn:Er. clear Er.
  pose proof (trigger_fields p r segments) as HT.
  remember (fst (trigger ws pad p r segments)) as t eqn:Et. clear Et.
  cbv zeta in *.
  destruct HA as [A1 [A2 [A3 [A4 [A5 A6]]]]].
  destruct HR as [R1 [R2 [R3 [R4 [R5 R6]]]]].
  destruct HT as [T1 [T2 [T3 [T4 [T5 T6]]]]].
  repeat split; try congruence; try lia.
  intros Hne. destruct T6 as [T6 | T6]; [| exact T6].
  rewrite T6, R3, A3. apply Hp. destruct R6; congruence.
Qed.

Lemma markCandidate_bounds s :
  coherent ws s -> ws <= currSample s ->
  ws <= tempEnd (markCandidate s) <= currSample s
  /\ (tempEnd s = 0 -> tempEnd (markCandidate s) = currSample s).
Proof.
  unfold coherent, markCandidate. intros [Hc [Ht Hp]] Hcs.
  destruct (tempEnd s =? 0) eqn:E; cbn.
  - split; [lia | reflexivity].
  - apply Z.eqb_neq in E. split; [lia | intros; lia].
Qed.

Lemma silence_coherent p s segments :
  coherent ws s -> ws <= currSample s ->
  match silence ms pad p s segments with
  | Next sd' _ | Return sd' _ =>
      coherent ws sd' /\ currSample sd' = currSample s /\ cfg sd' = cfg s
  end.
Proof.
  intros Hco Hcs. pose proof (markCandidate_bounds s Hco Hcs) as [Hb _].
  unfold silence.
  destruct (F32.ltb p (NegativeThreshold (cfg s))); cbn [andb]; [| auto].
  destruct (triggered s) eqn:Etr; [| auto].
  assert (Hm : currSample (markCandidate s) = currSample s
               /\ cfg (markCandidate s) = cfg s
               /\ triggered (markCandidate s) = true).
  { unfold markCandidate. destruct (tempEnd s =? 0); cbn; auto. }
  destruct Hm as [Hm1 [Hm2 Hm3]].
  destruct (_ <? ms).
  - unfold coherent in *. rewrite Hm1, Hm2, Hm3. repeat split; try lia; auto.
  - destruct (len segments <? 1); unfold coherent; cbn;
      rewrite ?Hm1, ?Hm2; repeat split; try lia; auto; congruence.
Qed.

Lemma detectWindow_coherent sd segments w :
  coherent ws sd -> room ws 1 sd ->
  match detectWindow infer ws ms pad sd segments w with
  | Next sd' _ =>
      coherent ws sd' /\ currSample sd' = currSample sd + ws
      /\ cfg sd' = cfg sd
  | Return sd' _ =>
      coherent ws sd' /\ cfg sd' = cfg sd
      /\ currSample sd <= currSample sd' <= currSample sd + ws
  end.
Proof.
  intros Hco Hroom.
  destruct (infer (SampleRate (cfg sd)) (state sd, ctx sd) w)
    as [bufs [p | e]] eqn:E.
  - rewrite (detectWindow_enter _ _ _ _ _ _ _ _ _ E).
    assert (Hco' : coherent ws (withBuffers sd bufs)) by exact Hco.
    assert (Hroom' : room ws 1 (withBuffers sd bufs)) by exact Hroom.
    pose proof (enter_coherent p _ segments Hco' Hroom') as [H1 [H2 [H3 _]]].
    cbn [currSample cfg withBuffers] in H2, H3.
    assert (Hcs : ws <= currSample
                          (fst (enter ws pad p (withBuffers sd bufs) segments))).
    { rewrite H2. destruct Hco as [Hc _]. lia. }
    pose proof (silence_coherent p _
                  (snd (enter ws pad p (withBuffers sd bufs) segments))
                  H1 Hcs) as H4.
    destruct (silence ms pad p _ _); destruct H4 as [H5 [H6 H7]];
      (split; [exact H5 |]); split; try congruence; lia.
  - rewrite (detectWindow_fails _ _ _ _ _ _ _ _ _ E).
    repeat split; try apply Hco; cbn; lia.
Qed.

Lemma runWindows_counting windows k sd segments :
  coherent ws sd -> room ws (List.length windows + k) sd ->
  match runWindows infer ws ms pad windows sd segments with
  | Next sd' _ =>
      coherent ws sd' /\ cfg sd' = cfg sd
      /\ currSample sd' = currSample sd + ws * Z.of_nat (List.length windows)
      /\ room ws k sd'
  | Return sd' _ => coherent ws sd' /\ cfg sd' = cfg sd
  end.
Proof.
  intros Hco Hroom. unfold room in Hroom.
  pose proof (runWindows_invariant infer ws ms pad
                (fun n sd' _ =>
                   coherent ws sd' /\ cfg sd' = cfg sd
                   /\ currSample sd' + ws * Z.of_nat n
                      = currSample sd
                        + ws * Z.of_nat (List.length windows + k))
                (fun sd' _ => coherent ws sd' /\ cfg sd' = cfg sd)) as H.
  specialize (H ltac:(
    intros n sd0 segments0 w0 [H1 [H2 H3]];
    pose proof (detectWindow_coherent sd0 segments0 w0 H1) as H4;
    unfold room in H4;
    destruct (detectWindow infer ws ms pad sd0 segments0 w0);
    [ destruct H4 as [H5 [H6 H7]]; [lia |];
      repeat split; try apply H5; try congruence; lia
    | destruct H4 as [H5 [H6 H7]]; [lia |];
      repeat split; try apply H5; congruence ])).
  specialize (H windows k sd segments).
  destruct (runWindows infer ws ms pad windows sd segments).
  - destruct H as [H1 [H2 H3]]; [repeat split; try apply Hco; lia |].
    unfold room. repeat split; try apply H1; auto; lia.
  - apply H. repeat split; try apply Hco; lia.
Qed.

End Counters.

Lemma Detect_room (sd : Detector) (pcm : list F32.t) :
  0 <= currSample sd ->
  currSample sd + len pcm <= GoInt.max_int ->
  len pcm <= GoInt.max_int
  /\ room (windowSizeOf (cfg sd))
          (List.length (detectWindows (cfg sd) pcm)) sd.
Proof.
  intros Hc Hfit. assert (Hlen : len pcm <= GoInt.max_int) by lia.
  split; [exact Hlen |]. unfold room.
  pose proof (detectWindows_room (cfg sd) pcm Hlen). lia.
Qed.

(** C10. In a call of [Detect] on a detector with coherent counters (a
    new or reset detector, or one left by earlier calls) the value that
    [tempEnd] holds after lines 254-256 of any window is at least one
    window, hence positive: when the block assigns, it assigns
    [currSample], which has been advanced past the window before. So the
    sentinel 0 never stands for a candidate, not even at the first window
    of a buffer, and the detector is left with coherent counters. *)
Theorem candidate_never_zero
        (infer : adapter) (sd : Detector) (pcm : list F32.t) :
  let ws := windowSizeOf (cfg sd) in
  let ms := minSilenceSamplesOf (cfg sd) in
  let pad := speechPadSamplesOf (cfg sd) in
  coherent ws sd ->
  currSample sd + len pcm <= GoInt.max_int ->
  (forall pre w post sdk segmentsk bufs p,
      detectWindows (cfg sd) pcm = pre ++ w :: post ->
      runWindows infer ws ms pad pre sd [] = Next sdk segmentsk ->
      infer (SampleRate (cfg sdk)) (state sdk, ctx sdk) w = (bufs, inl p) ->
      let s := fst (enter ws pad p (withBuffers sdk bufs) segmentsk) in
      currSample s = currSample sdk + ws
      /\ 0 < ws <= tempEnd (markCandidate s)
      /\ (tempEnd s = 0 -> tempEnd (markCandidate s) = currSample s))
  /\ (exists sd' r,
        Detect infer (Some sd) pcm = Some (Some sd', r) /\ coherent ws sd').
Proof.
  intros ws ms pad Hco Hfit.
  pose proof (windowSizeOf_pos (cfg sd)) as Hws. fold ws in Hws.
  assert (Hws0 : 0 < ws) by lia.
  destruct (Detect_room sd pcm) as [Hlen Hroom]; [apply Hco | exact Hfit |].
  fold ws in Hroom. split.
  - intros pre w post sdk segmentsk bufs p Hwin Hpre Hinfer s.
    rewrite Hwin, length_app in Hroom. cbn [List.length] in Hroom.
    pose proof (runWindows_counting infer ws ms pad Hws0 pre
                  (S (List.length post)) sd [] Hco Hroom) as H.
    rewrite Hpre in H. destruct H as [Hcok [_ [_ Hroomk]]].
    assert (Hroom1 : room ws 1 (withBuffers sdk bufs)).
    { unfold room in *. cbn [currSample withBuffers]. lia. }
    pose proof (enter_coherent ws pad Hws0 p (withBuffers sdk bufs) segmentsk
                  Hcok Hroom1) as [Hs [Hcs _]].
    fold s in Hs, Hcs. cbn [currSample withBuffers] in Hcs.
    assert (Hge : ws <= currSample s).
    { rewrite Hcs. destruct Hcok as [Hc _]. lia. }
    pose proof (markCandidate_bounds ws s Hs Hge) as [Hb Hz].
    repeat split; lia || exact Hz.
  - rewrite Detect_emitted by assumption.
    destruct (len pcm <? windowSizeOf (cfg sd)); [eauto |].
    unfold emitted. fold ws ms pad.
    replace (List.length (detectWindows (cfg sd) pcm))
      with (List.length (detectWindows (cfg sd) pcm) + 0)%nat in Hroom by lia.
    pose proof (runWindows_counting infer ws ms pad Hws0
                  (detectWindows (cfg sd) pcm) 0 sd [] Hco Hroom) as H.
    destruct (runWindows infer ws ms pad _ sd []);
      do 2 eexists; (split; [reflexivity | apply H]).
Qed.

(** ** The blocks of the body as case distinctions *)

Lemma length_setLastEnd (segments : list Segment) (v : F64.t) :
  List.length (setLastEnd segments v) = List.length segments.
Proof.
  destruct segments as [| s0 rest]; [reflexivity |].
  destruct (segments_snoc (s0 :: rest)) as [before [s E]]; [discriminate |].
  rewrite E, setLastEnd_snoc, !length_app. reflexivity.
Qed.

Section Cases.

Variables ws ms pad : Z.
Hypothesis ws_pos : 0 < ws.

Lemma enter_cases p sd segments :
  0 <= currSample sd -> room ws 1 sd ->
  let s := fst (enter ws pad p sd segments) in
  let segments' := snd (enter ws pad p sd segments) in
  cfg s = cfg sd /\ state s = state sd /\ ctx s = ctx sd
  /\ currSample s = currSample sd + ws
  /\ ((F32.geb p (Threshold (cfg sd)) = true
       /\ tempEnd s = 0 /\ triggered s = true
       /\ ((triggered sd = true /\ segments' = segments)
           \/ (triggered sd = false
               /\ segments'
                  = segments
                      ++ [opened (SampleRate (cfg sd))
                                 (GoInt.sub (currSample sd) pad)])))
      \/ (F32.geb p (Threshold (cfg sd)) = false
          /\ tempEnd s = tempEnd sd /\ triggered s = triggered sd
          /\ segments' = segments)).
Proof.
  intros Hc Hroom.
  assert (Hadd : GoInt.add (currSample sd) ws = currSample sd + ws).
  { apply add_id. unfold room, GoInt.in_range, GoInt.min_int, GoInt.max_int in *.
    lia. }
  assert (Hsub : GoInt.sub (currSample sd + ws) ws = currSample sd).
  { rewrite sub_id; [lia |].
    unfold room, GoInt.in_range, GoInt.min_int, GoInt.max_int in *. lia. }
  unfold enter, trigger, rearm, advance. cbn. rewrite Hadd.
  destruct (F32.geb p (Threshold (cfg sd))) eqn:G; cbn;
    destruct (tempEnd sd =? 0) eqn:E; cbn; rewrite ?G; cbn;
      destruct (triggered sd) eqn:Tr; cbn; rewrite ?Hsub;
        try apply Z.eqb_eq in E;
        (do 4 (split; [reflexivity |]));
        try (right; repeat split; reflexivity);
        left; (do 3 (split; [solve [auto] |])); auto.
Qed.

Lemma silence_cases p s segments :
  coherent ws s -> ws <= currSample s <= GoInt.max_int ->
  covered s segments ->
  exists s' segments',
    silence ms pad p s segments = Next s' segments'
    /\ cfg s' = cfg s /\ state s' = state s /\ ctx s' = ctx s
    /\ currSample s' = currSample s
    /\ List.length segments' = List.length segments
    /\ ((F32.ltb p (NegativeThreshold (cfg s)) && triggered s = false
         /\ triggered s' = triggered s /\ tempEnd s' = tempEnd s
         /\ segments' = segments)
        \/ (F32.ltb p (NegativeThreshold (cfg s)) = true
            /\ triggered s = true
            /\ ws <= candidateOf s <= currSample s
            /\ ((currSample s - candidateOf s < ms
                 /\ triggered s' = true /\ tempEnd s' = candidateOf s
                 /\ segments' = segments)
                \/ (ms <= currSample s - candidateOf s
                    /\ triggered s' = false /\ tempEnd s' = 0
                    /\ segments'
                       = setLastEnd segments
                                    (seconds (SampleRate (cfg s))
                                             (GoInt.add (candidateOf s)
                                                        pad)))))).
Proof.
  intros Hco [Hcs Hmax] Hcov.
  pose proof (markCandidate_bounds ws s Hco Hcs) as [Hb _].
  assert (Hm : tempEnd (markCandidate s) = candidateOf s
               /\ currSample (markCandidate s) = currSample s
               /\ cfg (markCandidate s) = cfg s
               /\ state (markCandidate s) = state s
               /\ ctx (markCandidate s) = ctx s
               /\ triggered (markCandidate s) = triggered s).
  { unfold markCandidate, candidateOf.
    destruct (tempEnd s =? 0); cbn; auto 10. }
  destruct Hm as [M1 [M2 [M3 [M4 [M5 M6]]]]].
  unfold silence.
  destruct (F32.ltb p (NegativeThreshold (cfg s))) eqn:Elt; cbn [andb].
  2:{ do 2 eexists. split; [reflexivity |]. repeat split. left. auto. }
  destruct (triggered s) eqn:Etr.
  2:{ do 2 eexists. split; [reflexivity |]. repeat split. left. auto. }
  rewrite M1, M2, M3. rewrite M1 in Hb.
  rewrite sub_id
    by (destruct Hco as [Hc _];
        unfold GoInt.in_range, GoInt.min_int, GoInt.max_int in *; lia).
  destruct (currSample s - candidateOf s <? ms) eqn:Ems.
  - apply Z.ltb_lt in Ems.
    do 2 eexists. split; [reflexivity |].
    repeat split; auto. right. repeat split; try lia. left. auto.
  - apply Z.ltb_ge in Ems.
    rewrite (len_nonempty segments (Hcov Etr)).
    do 2 eexists. split; [reflexivity |]. cbn.
    rewrite length_setLastEnd.
    repeat split; auto. right. repeat split; try lia. right. auto.
Qed.

End Cases.

(** ** Two runs over the same windows *)

(** A relation between the states of two runs, indexed by the number of
    windows still to come, that the body preserves is preserved by the
    runs; the two runs leave the loop together. *)
Lemma runWindows_simulation (infer : adapter) (ws ms1 pad1 ms2 pad2 : Z)
      (R : nat -> Detector -> list Segment -> Detector -> list Segment -> Prop) :
  (forall n sd1 segments1 sd2 segments2 w,
      R (S n) sd1 segments1 sd2 segments2 ->
      match detectWindow infer ws ms1 pad1 sd1 segments1 w,
            detectWindow infer ws ms2 pad2 sd2 segments2 w with
      | Next sd1' segments1', Next sd2' segments2' =>
          R n sd1' segments1' sd2' segments2'
      | Return _ err1, Return _ err2 => err1 = err2
      | _, _ => False
      end) ->
  forall windows k sd1 segments1 sd2 segments2,
    R (List.length windows + k)%nat sd1 segments1 sd2 segments2 ->
    match runWindows infer ws ms1 pad1 windows sd1 segments1,
          runWindows infer ws ms2 pad2 windows sd2 segments2 with
    | Next sd1' segments1', Next sd2' segments2' =>
        R k sd1' segments1' sd2' segments2'
    | Return _ err1, Return _ err2 => err1 = err2
    | _, _ => False
    end.
Proof.
  intros Hstep. induction windows as [| w windows IH];
    intros k sd1 segments1 sd2 segments2 HR; [exact HR |].
  cbn [runWindows]. specialize (Hstep _ _ _ _ _ w HR).
  destruct (detectWindow infer ws ms1 pad1 sd1 segments1 w),
           (detectWindow infer ws ms2 pad2 sd2 segments2 w);
    try contradiction; [| exact Hstep].
  apply IH. exact Hstep.
Qed.

Lemma covered_enter (ws pad : Z) (p : F32.t) (sd : Detector)
      (segments : list Segment) :
  covered sd segments ->
  covered (fst (enter ws pad p sd segments)) (snd (enter ws pad p sd segments)).
Proof.
  intros H. unfold enter. apply trigger_covered.
  unfold covered, rearm, advance in *. destruct (_ && _); cbn; exact H.
Qed.

(** What one window does to a coherent, covered state, when the
    inference succeeds: the body goes on to the next window. *)
Lemma detectWindow_next (infer : adapter) (ws ms pad : Z) (sd : Detector)
      (segments : list Segment) (w : list F32.t) (bufs : buffers) (p : F32.t) :
  0 < ws -> coherent ws sd -> room ws 1 sd -> covered sd segments ->
  infer (SampleRate (cfg sd)) (state sd, ctx sd) w = (bufs, inl p) ->
  let s := fst (enter ws pad p (withBuffers sd bufs) segments) in
  let segments0 := snd (enter ws pad p (withBuffers sd bufs) segments) in
  coherent ws s /\ ws <= currSample s <= GoInt.max_int
  /\ covered s segments0
  /\ exists sd' segments',
      detectWindow infer ws ms pad sd segments w = Next sd' segments'
      /\ silence ms pad p s segments0 = Next sd' segments'
      /\ coherent ws sd' /\ covered sd' segments'.
Proof.
  intros Hws Hco Hroom Hcov Hinfer s segments0.
  assert (Hco' : coherent ws (withBuffers sd bufs)) by exact Hco.
  assert (Hroom' : room ws 1 (withBuffers sd bufs)) by exact Hroom.
  assert (Hcov' : covered (withBuffers sd bufs) segments) by exact Hcov.
  pose proof (enter_coherent ws pad Hws p _ segments Hco' Hroom')
    as [H1 [H2 _]]. fold s in H1, H2. cbn [currSample withBuffers] in H2.
  pose proof (covered_enter ws pad p _ segments Hcov') as H3.
  fold s segments0 in H3.
  assert (Hcs : ws <= currSample s <= GoInt.max_int).
  { rewrite H2. destruct Hco as [Hc _]. unfold room in Hroom. lia. }
  split; [exact H1 |]. split; [exact Hcs |]. split; [exact H3 |].
  rewrite (detectWindow_enter _ _ _ _ _ _ _ _ _ Hinfer). fold s segments0.
  pose proof (silence_covered ms pad p s segments0 H3) as H4.
  pose proof (silence_coherent ws ms pad Hws p s segments0 H1 (proj1 Hcs))
    as H5.
  destruct (silence ms pad p s segments0) as [sd' segments' |];
    [| contradiction].
  exists sd', segments'. repeat split; try apply H5. exact H4.
Qed.

(** ** Lowering the negative threshold *)

Section Monotone.

Variable infer : adapter.
Variables c1 c2 : DetectorConfig.
Variables ws ms pad : Z.

Hypothesis ws_pos : 0 < ws.
Hypothesis same_rate : SampleRate c1 = SampleRate c2.
Hypothesis same_threshold : Threshold c1 = Threshold c2.
Hypothesis lower :
  F32.ltb (NegativeThreshold c1) (NegativeThreshold c2) = true.

Lemma lags_step n sd1 segments1 sd2 segments2 w :
  lags c1 c2 ws (S n) sd1 segments1 sd2 segments2 ->
  match detectWindow infer ws ms pad sd1 segments1 w,
        detectWindow infer ws ms pad sd2 segments2 w with
  | Next sd1' segments1', Next sd2' segments2' =>
      lags c1 c2 ws n sd1' segments1' sd2' segments2'
  | Return _ err1, Return _ err2 => err1 = err2
  | _, _ => False
  end.
Proof.
  intros [[Hco1 [Hco2 [Hroom [Hcov1 Hcov2]]]]
            [[Hc1 [Hc2 [Hcs [Hst Hctx]]]] [Htr [Hte Hlen]]]].
  assert (Hroom1 : room ws 1 sd1) by (unfold room in *; lia).
  assert (Hroom2 : room ws 1 sd2) by (unfold room in *; lia).
  destruct (infer (SampleRate (cfg sd1)) (state sd1, ctx sd1) w)
    as [bufs [p | e]] eqn:E1.
  2:{ assert (E2 := E1). rewrite Hc1, same_rate, <- Hc2, Hst, Hctx in E2.
      rewrite (detectWindow_fails _ _ _ _ _ _ _ _ _ E1).
      rewrite (detectWindow_fails _ _ _ _ _ _ _ _ _ E2). reflexivity. }
  assert (E2 := E1). rewrite Hc1, same_rate, <- Hc2, Hst, Hctx in E2.
  pose proof (detectWindow_next infer ws ms pad sd1 segments1 w bufs p
                ws_pos Hco1 Hroom1 Hcov1 E1) as N1.
  pose proof (detectWindow_next infer ws ms pad sd2 segments2 w bufs p
                ws_pos Hco2 Hroom2 Hcov2 E2) as N2.
  pose proof (enter_cases ws pad ws_pos p (withBuffers sd1 bufs) segments1
                (proj1 Hco1) Hroom1) as X1.
  pose proof (enter_cases ws pad ws_pos p (withBuffers sd2 bufs) segments2
                (proj1 Hco2) Hroom2) as X2.
  cbv zeta in N1, N2, X1, X2.
  remember (fst (enter ws pad p (withBuffers sd1 bufs) segments1)) as s1.
  remember (snd (enter ws pad p (withBuffers sd1 bufs) segments1)) as g1.
  remember (fst (enter ws pad p (withBuffers sd2 bufs) segments2)) as s2.
  remember (snd (enter ws pad p (withBuffers sd2 bufs) segments2)) as g2.
  clear Heqs1 Heqg1 Heqs2 Heqg2.
  cbn [cfg state ctx currSample triggered tempEnd withBuffers] in X1, X2.
  destruct N1 as [Hs1 [Hr1 [Hv1 [sd1' [segments1' [D1 [S1 [Hco1' Hcov1']]]]]]]].
  destruct N2 as [Hs2 [Hr2 [Hv2 [sd2' [segments2' [D2 [S2 [Hco2' Hcov2']]]]]]]].
  rewrite D1, D2.
  pose proof (silence_cases ws ms pad ws_pos p s1 g1 Hs1 Hr1 Hv1)
    as [t1 [h1 [S1' Y1]]].
  pose proof (silence_cases ws ms pad ws_pos p s2 g2 Hs2 Hr2 Hv2)
    as [t2 [h2 [S2' Y2]]].
  rewrite S1 in S1'. rewrite S2 in S2'.
  injection S1' as <- <-. injection S2' as <- <-.
  destruct X1 as [A1 [A2 [A3 [A4 A5]]]].
  destruct X2 as [B1 [B2 [B3 [B4 B5]]]].
  destruct Y1 as [P1 [P2 [P3 [P4 [P5 P6]]]]].
  destruct Y2 as [Q1 [Q2 [Q3 [Q4 [Q5 Q6]]]]].
  assert (Hthr : Threshold (cfg sd1) = Threshold (cfg sd2)) by congruence.
  assert (Hneg : F32.ltb p (NegativeThreshold (cfg s1)) = true ->
                 F32.ltb p (NegativeThreshold (cfg s2)) = true).
  { rewrite A1, B1, Hc1, Hc2. intros H.
    exact (F32_ltb_trans _ _ _ H lower). }
  assert (K1 : (tempEnd s1 = 0 /\ candidateOf s1 = currSample s1)
               \/ (tempEnd s1 <> 0 /\ candidateOf s1 = tempEnd s1)).
  { unfold candidateOf. destruct (Z.eqb_spec (tempEnd s1) 0); auto. }
  assert (K2 : (tempEnd s2 = 0 /\ candidateOf s2 = currSample s2)
               \/ (tempEnd s2 <> 0 /\ candidateOf s2 = tempEnd s2)).
  { unfold candidateOf. destruct (Z.eqb_spec (tempEnd s2) 0); auto. }
  assert (Hroom' : room ws n sd1') by (unfold room in *; lia).
  unfold lags.
  split; [ auto 10 |].
  split; [ repeat split; congruence || lia |].
  clear D1 D2 S1 S2 E1 E2 Hco1' Hco2' Hcov1' Hcov2' Hroom Hroom1 Hroom2
        Hroom' Hcov1 Hcov2 Hv1 Hv2.
  destruct Hco1 as [_ [Ht1 _]]. destruct Hco2 as [_ [Ht2 _]].
  destruct Hs1 as [_ [Hs1 _]]. destruct Hs2 as [_ [Hs2 _]].
  destruct (F32.ltb p (NegativeThreshold (cfg s1))) eqn:L1;
    [specialize (Hneg eq_refl); rewrite Hneg in Q6 | clear Hneg].
  all: cbn [andb] in P6, Q6.
  all: destruct A5 as [[G1 [A5 [A6 [[A7 A8] | [A7 A8]]]]] | [G1 [A5 [A6 A8]]]];
    destruct B5 as [[G2 [B5 [B6 [[B7 B8] | [B7 B8]]]]] | [G2 [B5 [B6 B8]]]];
    try congruence.
  all: destruct P6 as [[P6 [P7 [P8 P9]]]
                      | [P6' [P6 [P7 [[P8 [P9 [P10 P11]]]
                                   | [P8 [P9 [P10 P11]]]]]]]];
    try congruence.
  all: destruct Q6 as [[Q6 [Q7 [Q8 Q9]]]
                      | [Q6' [Q6 [Q7 [[Q8 [Q9 [Q10 Q11]]]
                                   | [Q8 [Q9 [Q10 Q11]]]]]]]];
    try congruence.
  all: try match type of Q6 with
           | (_ && _ = false) =>
               apply andb_false_iff in Q6; destruct Q6 as [Q6 | Q6]
           end; try congruence.
  all: subst g1 g2; rewrite ?length_app in *; cbn [List.length] in *.
  all: destruct (triggered sd2) eqn:T2;
    [ specialize (Htr eq_refl); specialize (Hte eq_refl)
    | clear Htr Hte ]; try congruence.
  all: try solve [split; [intros; first [congruence | exfalso; lia] |];
                  (split; [| lia]);
                  intros T2' Hne; first [congruence | lia]].
Qed.

Lemma lags_run windows k sd1 segments1 sd2 segments2 :
  lags c1 c2 ws (List.length windows + k) sd1 segments1 sd2 segments2 ->
  match runWindows infer ws ms pad windows sd1 segments1,
        runWindows infer ws ms pad windows sd2 segments2 with
  | Next sd1' segments1', Next sd2' segments2' =>
      lags c1 c2 ws k sd1' segments1' sd2' segments2'
  | Return _ err1, Return _ err2 => err1 = err2
  | _, _ => False
  end.
Proof.
  apply (runWindows_simulation infer ws ms pad ms pad (lags c1 c2 ws)).
  intros n sd1' s1 sd2' s2 w. apply lags_step.
Qed.

End Monotone.

Lemma filterShort_disabled (c : DetectorConfig) (m : Z)
      (segments : list Segment) :
  MinSpeechDurationMs c <= 0 -> filterShort c m segments = segments.
Proof.
  intros H. unfold filterShort.
  destruct (MinSpeechDurationMs c >? 0) eqn:E; [| reflexivity].
  apply Z.gtb_lt in E. lia.
Qed.

(** C6, amended. Lowering [NegativeThreshold] never increases the number
    of segments that the window loop emits, that is the count before the
    filter of short segments, and so the returned count when
    [MinSpeechDurationMs <= 0] switches the filter off; the two calls
    fail together, with the same error. *)
Theorem lower_negative_threshold_emits_no_more
        (infer : adapter) (sd : Detector) (n1 n2 : F32.t) (pcm : list F32.t) :
  triggered sd = false -> tempEnd sd = 0 -> 0 <= currSample sd ->
  currSample sd + len pcm <= GoInt.max_int ->
  F32.ltb n1 n2 = true ->
  let sd1 := SetNegativeThreshold sd n1 in
  let sd2 := SetNegativeThreshold sd n2 in
  match emitted infer sd1 pcm, emitted infer sd2 pcm with
  | Next _ segments1, Next _ segments2 =>
      (List.length segments1 <= List.length segments2)%nat
  | Return _ err1, Return _ err2 => err1 = err2
  | _, _ => False
  end
  /\ (MinSpeechDurationMs (cfg sd) <= 0 ->
      exists sd1' sd2' segments1 segments2 err,
        Detect infer (Some sd1) pcm = Some (sd1', (segments1, err))
        /\ Detect infer (Some sd2) pcm = Some (sd2', (segments2, err))
        /\ (List.length segments1 <= List.length segments2)%nat).
Proof.
  intros Htr Hte Hc Hfit Hlt sd1 sd2.
  pose proof (windowSizeOf_pos (cfg sd)) as Hws.
  destruct (Detect_room sd pcm Hc Hfit) as [Hlen Hroom].
  assert (Hrun :
    match emitted infer sd1 pcm, emitted infer sd2 pcm with
    | Next sd1' segments1, Next sd2' segments2 =>
        lags (cfg sd1) (cfg sd2) (windowSizeOf (cfg sd)) 0
             sd1' segments1 sd2' segments2
    | Return _ err1, Return _ err2 => err1 = err2
    | _, _ => False
    end).
  { unfold emitted.
    apply (lags_run infer (cfg sd1) (cfg sd2) (windowSizeOf (cfg sd))
                    (minSilenceSamplesOf (cfg sd)) (speechPadSamplesOf (cfg sd)));
      try reflexivity; try lia; try exact Hlt.
    unfold lags, coherent, covered, room in *. cbn.
    rewrite Nat.add_0_r.
    repeat split; try lia; try congruence; try (intros; congruence);
      auto. }
  split.
  - destruct (emitted infer sd1 pcm), (emitted infer sd2 pcm);
      try contradiction; [apply Hrun | exact Hrun].
  - intros Hoff. rewrite !Detect_emitted by assumption.
    change (windowSizeOf (cfg sd1)) with (windowSizeOf (cfg sd)).
    change (windowSizeOf (cfg sd2)) with (windowSizeOf (cfg sd)).
    destruct (len pcm <? windowSizeOf (cfg sd)).
    { do 5 eexists. split; [reflexivity |]. split; [reflexivity |]. cbn. lia. }
    destruct (emitted infer sd1 pcm) as [sd1' segments1 | sd1' err1],
             (emitted infer sd2 pcm) as [sd2' segments2 | sd2' err2];
      try contradiction.
    + destruct Hrun as [_ [[Hc1 [Hc2 _]] [_ [_ Hle]]]].
      rewrite !filterShort_disabled by (rewrite ?Hc1, ?Hc2; exact Hoff).
      do 5 eexists. split; [reflexivity |]. split; [reflexivity |]. exact Hle.
    + subst err2.
      do 5 eexists. split; [reflexivity |]. split; [reflexivity |]. cbn. lia.
Qed.

(** ** Moving the sample counter and the padding *)

Lemma Forall2_setLastEnd (R : Segment -> Segment -> Prop)
      (g1 g2 : list Segment) (v1 v2 : F64.t) :
  Forall2 R g1 g2 ->
  (forall a b, R a b ->
               R (mkSegment (SpeechStartAt a) v1)
                 (mkSegment (SpeechStartAt b) v2)) ->
  Forall2 R (setLastEnd g1 v1) (setLastEnd g2 v2).
Proof.
  intros HF Hset.
  destruct g1 as [| a0 r1].
  { inversion HF. subst. constructor. }
  destruct (segments_snoc (a0 :: r1)) as [b1 [a E1]]; [discriminate |].
  rewrite E1 in *. clear E1 a0 r1.
  apply Forall2_app_inv_l in HF.
  destruct HF as [b2 [l2 [HF1 [HF2 E2]]]]. subst g2.
  inversion HF2 as [| a' b l1' l2' Hab Hnil]; subst.
  inversion Hnil; subst.
  rewrite !setLastEnd_snoc.
  apply Forall2_app; [exact HF1 |].
  constructor; [| constructor]. apply Hset. exact Hab.
Qed.

Section Translate.

Variable infer : adapter.
Variables c1 c2 : DetectorConfig.
Variables ws ms pad1 pad2 c : Z.

Hypothesis ws_pos : 0 < ws.
Hypothesis same_rate : SampleRate c1 = SampleRate c2.
Hypothesis same_threshold : Threshold c1 = Threshold c2.
Hypothesis same_negative : NegativeThreshold c1 = NegativeThreshold c2.
Hypothesis offset_nonneg : 0 <= c.
Hypothesis pad1_range : 0 <= pad1 <= GoInt.max_int.
Hypothesis pad2_range : 0 <= pad2 <= GoInt.max_int.

Lemma moved_close a b e :
  0 < e ->
  moved (SampleRate c1) c pad1 pad2 a b ->
  moved (SampleRate c1) c pad1 pad2
        (mkSegment (SpeechStartAt a) (seconds (SampleRate c1) (e + pad1)))
        (mkSegment (SpeechStartAt b)
                   (seconds (SampleRate c1) (e + c + pad2))).
Proof.
  intros He [Hstart _]. split; [exact Hstart |]. right. exists e. auto.
Qed.

Lemma moved_open n :
  0 <= n ->
  moved (SampleRate c1) c pad1 pad2
        (opened (SampleRate c1) (n - pad1))
        (opened (SampleRate c1) (n + c - pad2)).
Proof.
  intros Hn. split; [exists n; auto | left; auto].
Qed.

Lemma ahead_step n sd1 segments1 sd2 segments2 w :
  ahead c1 c2 ws pad1 pad2 c (S n) sd1 segments1 sd2 segments2 ->
  match detectWindow infer ws ms pad1 sd1 segments1 w,
        detectWindow infer ws ms pad2 sd2 segments2 w with
  | Next sd1' segments1', Next sd2' segments2' =>
      ahead c1 c2 ws pad1 pad2 c n sd1' segments1' sd2' segments2'
  | Return _ err1, Return _ err2 => err1 = err2
  | _, _ => False
  end.
Proof.
  intros [[Hco1 [Hco2 [Hr1 [Hr2 [Hcov1 Hcov2]]]]]
            [[Hc1 [Hc2 [Hcs [Hst [Hctx Htr]]]]] [Hte HF]]].
  assert (Hroom1 : room ws 1 sd1).
  { unfold room in *. destruct Hco1 as [? _]. lia. }
  assert (Hroom2 : room ws 1 sd2).
  { unfold room in *. lia. }
  destruct (infer (SampleRate (cfg sd1)) (state sd1, ctx sd1) w)
    as [bufs [p | e]] eqn:E1.
  2:{ assert (E2 := E1). rewrite Hc1, same_rate, <- Hc2, Hst, Hctx in E2.
      rewrite (detectWindow_fails _ _ _ _ _ _ _ _ _ E1).
      rewrite (detectWindow_fails _ _ _ _ _ _ _ _ _ E2). reflexivity. }
  assert (E2 := E1). rewrite Hc1, same_rate, <- Hc2, Hst, Hctx in E2.
  pose proof (detectWindow_next infer ws ms pad1 sd1 segments1 w bufs p
                ws_pos Hco1 Hroom1 Hcov1 E1) as N1.
  pose proof (detectWindow_next infer ws ms pad2 sd2 segments2 w bufs p
                ws_pos Hco2 Hroom2 Hcov2 E2) as N2.
  pose proof (enter_cases ws pad1 ws_pos p (withBuffers sd1 bufs) segments1
                (proj1 Hco1) Hroom1) as X1.
  pose proof (enter_cases ws pad2 ws_pos p (withBuffers sd2 bufs) segments2
                (proj1 Hco2) Hroom2) as X2.
  cbv zeta in N1, N2, X1, X2.
  remember (fst (enter ws pad1 p (withBuffers sd1 bufs) segments1)) as s1.
  remember (snd (enter ws pad1 p (withBuffers sd1 bufs) segments1)) as g1.
  remember (fst (enter ws pad2 p (withBuffers sd2 bufs) segments2)) as s2.
  remember (snd (enter ws pad2 p (withBuffers sd2 bufs) segments2)) as g2.
  clear Heqs1 Heqg1 Heqs2 Heqg2.
  cbn [cfg state ctx currSample triggered tempEnd withBuffers] in X1, X2.
  destruct N1 as [Hs1 [Hb1 [Hv1 [sd1' [segments1' [D1 [S1 [Hco1' Hcov1']]]]]]]].
  destruct N2 as [Hs2 [Hb2 [Hv2 [sd2' [segments2' [D2 [S2 [Hco2' Hcov2']]]]]]]].
  rewrite D1, D2.
  pose proof (silence_cases ws ms pad1 ws_pos p s1 g1 Hs1 Hb1 Hv1)
    as [t1 [h1 [S1' Y1]]].
  pose proof (silence_cases ws ms pad2 ws_pos p s2 g2 Hs2 Hb2 Hv2)
    as [t2 [h2 [S2' Y2]]].
  rewrite S1 in S1'. rewrite S2 in S2'.
  injection S1' as <- <-. injection S2' as <- <-.
  destruct X1 as [A1 [A2 [A3 [A4 A5]]]].
  destruct X2 as [B1 [B2 [B3 [B4 B5]]]].
  destruct Y1 as [P1 [P2 [P3 [P4 [P5 P6]]]]].
  destruct Y2 as [Q1 [Q2 [Q3 [Q4 [Q5 Q6]]]]].
  assert (Hthr : Threshold (cfg sd1) = Threshold (cfg sd2)) by congruence.
  assert (Hneg : NegativeThreshold (cfg s1) = NegativeThreshold (cfg s2))
    by congruence.
  assert (Hsr1 : SampleRate (cfg s1) = SampleRate c1) by congruence.
  assert (Hsr2 : SampleRate (cfg s2) = SampleRate c1) by congruence.
  assert (Hsr3 : SampleRate (cfg sd1) = SampleRate c1) by congruence.
  assert (Hsr4 : SampleRate (cfg sd2) = SampleRate c1) by congruence.
  assert (K1 : (tempEnd s1 = 0 /\ candidateOf s1 = currSample s1)
               \/ (tempEnd s1 <> 0 /\ candidateOf s1 = tempEnd s1)).
  { unfold candidateOf. destruct (Z.eqb_spec (tempEnd s1) 0); auto. }
  assert (K2 : (tempEnd s2 = 0 /\ candidateOf s2 = currSample s2)
               \/ (tempEnd s2 <> 0 /\ candidateOf s2 = tempEnd s2)).
  { unfold candidateOf. destruct (Z.eqb_spec (tempEnd s2) 0); auto. }
  rewrite Hsr1 in P6. rewrite Hsr2 in Q6. rewrite Hsr3 in A5.
  rewrite Hsr4 in B5. rewrite <- Hneg, Hthr in *.
  assert (Hsub1 : GoInt.sub (currSample sd1) pad1 = currSample sd1 - pad1).
  { apply sub_id. destruct Hco1 as [? _].
    unfold GoInt.in_range, GoInt.min_int, GoInt.max_int in *. lia. }
  assert (Hsub2 : GoInt.sub (currSample sd2) pad2
                  = currSample sd1 + c - pad2).
  { rewrite Hcs. apply sub_id. destruct Hco1 as [? _].
    unfold GoInt.in_range, GoInt.min_int, GoInt.max_int in *. lia. }
  rewrite Hsub1 in A5. rewrite Hsub2 in B5.
  assert (Hbound1 : currSample sd2' + ws * Z.of_nat n + pad1
                    <= GoInt.max_int) by lia.
  assert (Hbound2 : currSample sd2' + ws * Z.of_nat n + pad2
                    <= GoInt.max_int) by lia.
  unfold ahead.
  split; [ auto 10 |].
  clear D1 D2 S1 S2 E1 E2 Hcov1' Hcov2' Hroom1 Hroom2 Hcov1 Hcov2 Hv1 Hv2
        Hbound1 Hbound2.
  destruct Hco1 as [Hn1 [Ht1 _]]. destruct Hco2 as [Hn2 [Ht2 _]].
  destruct Hs1 as [_ [Hs1 _]]. destruct Hs2 as [_ [Hs2 _]].
  destruct Hco1' as [_ [Ht1' _]]. destruct Hco2' as [_ [Ht2' _]].
  destruct (F32.ltb p (NegativeThreshold (cfg s1))) eqn:L1.
  all: cbn [andb] in P6, Q6.
  all: destruct A5 as [[G1 [A5 [A6 [[A7 A8] | [A7 A8]]]]] | [G1 [A5 [A6 A8]]]];
    destruct B5 as [[G2 [B5 [B6 [[B7 B8] | [B7 B8]]]]] | [G2 [B5 [B6 B8]]]];
    try congruence.
  all: destruct P6 as [[P6 [P7 [P8 P9]]]
                      | [P6' [P6 [P7 [[P8 [P9 [P10 P11]]]
                                   | [P8 [P9 [P10 P11]]]]]]]];
    try congruence.
  all: destruct Q6 as [[Q6 [Q7 [Q8 Q9]]]
                      | [Q6' [Q6 [Q7 [[Q8 [Q9 [Q10 Q11]]]
                                   | [Q8 [Q9 [Q10 Q11]]]]]]]];
    try congruence.
  all: destruct K1 as [[K1 K1'] | [K1 K1']];
    destruct K2 as [[K2 K2'] | [K2 K2']];
    destruct Hte as [[Hte Hte'] | [Hte Hte']]; try congruence; try lia.
  all: assert (HG : Forall2 (moved (SampleRate c1) c pad1 pad2) g1 g2)
    by (subst g1 g2;
        first [ exact HF
              | apply Forall2_app;
                [ exact HF
                | constructor; [apply moved_open; exact Hn1 | constructor]]]).
  all: split; [ repeat split; congruence || lia |].
  all: split; [ (left; split; lia) || (right; split; lia) |].
  all: subst segments1' segments2'; try exact HG.
  all: rewrite !add_id
    by (unfold GoInt.in_range, GoInt.min_int, GoInt.max_int in *; lia).
  all: replace (candidateOf s2 + pad2) with (candidateOf s1 + c + pad2)
    by lia.
  all: apply Forall2_setLastEnd; [exact HG |].
  all: intros a b; apply moved_close; lia.
Qed.

Lemma ahead_run windows k sd1 segments1 sd2 segments2 :
  ahead c1 c2 ws pad1 pad2 c (List.length windows + k) sd1 segments1 sd2 segments2 ->
  match runWindows infer ws ms pad1 windows sd1 segments1,
        runWindows infer ws ms pad2 windows sd2 segments2 with
  | Next sd1' segments1', Next sd2' segments2' =>
      ahead c1 c2 ws pad1 pad2 c k sd1' segments1' sd2' segments2'
  | Return _ err1, Return _ err2 => err1 = err2
  | _, _ => False
  end.
Proof.
  apply (runWindows_simulation infer ws ms pad1 ms pad2
                                (ahead c1 c2 ws pad1 pad2 c)).
  intros n sd1' s1 sd2' s2 w. apply ahead_step.
Qed.

End Translate.

(** ** Time stamps *)

Lemma seconds_nonzero (sampleRate n : Z) :
  sampleRate = 8000 \/ sampleRate = 16000 ->
  0 < n -> F64.eqb (seconds sampleRate n) F64.zero = false.
Proof.
  intros Hsr Hn.
  destruct (seconds_sign sampleRate n Hsr ltac:(lia)) as [H | [m [e H]]];
    rewrite H; destruct (n <? 0); reflexivity.
Qed.

Lemma startAt_unclamped (sampleRate n : Z) :
  sampleRate = 8000 \/ sampleRate = 16000 ->
  0 <= n -> startAt sampleRate n = seconds sampleRate n.
Proof.
  intros Hsr Hn. unfold startAt. cbv zeta.
  destruct (Z.eq_dec n 0) as [-> | Hne].
  - destruct Hsr; subst sampleRate; vm_compute; reflexivity.
  - destruct (seconds_sign sampleRate n Hsr Hne) as [H | [m [e H]]];
      rewrite H; replace (n <? 0) with false by (symmetry; apply Z.ltb_ge; lia);
      reflexivity.
Qed.

Lemma startAt_clamped (sampleRate n : Z) :
  sampleRate = 8000 \/ sampleRate = 16000 ->
  n < 0 -> startAt sampleRate n = F64.zero.
Proof.
  intros Hsr Hn. unfold startAt. cbv zeta.
  destruct (seconds_sign sampleRate n Hsr ltac:(lia)) as [H | [m [e H]]];
    rewrite H; replace (n <? 0) with true by (symmetry; apply Z.ltb_lt; lia);
    reflexivity.
Qed.

(** ** The trigger flag and the last segment *)

Lemma lastOpen_snoc (segments : list Segment) (s : Segment) :
  lastOpen (segments ++ [s]) = isOpen s.
Proof. unfold lastOpen. rewrite lastSegment_snoc. reflexivity. Qed.

Lemma lastOpen_nonempty (segments : list Segment) :
  lastOpen segments = true -> segments <> [].
Proof. intros H E. subst. discriminate. Qed.

Lemma lastOpen_setLastEnd (segments : list Segment) (v : F64.t) :
  segments <> [] ->
  lastOpen (setLastEnd segments v) = F64.eqb v F64.zero.
Proof.
  intros H. destruct (segments_snoc segments H) as [before [s E]]. subst.
  rewrite setLastEnd_snoc, lastOpen_snoc. reflexivity.
Qed.

Section Flag.

Variable infer : adapter.
Variable c0 : DetectorConfig.
Variables ws ms pad : Z.

Hypothesis ws_pos : 0 < ws.
Hypothesis rate : SampleRate c0 = 8000 \/ SampleRate c0 = 16000.
Hypothesis pad_nonneg : 0 <= pad.

Lemma flagged_step n sd segments w :
  flagged c0 ws pad (S n) sd segments ->
  match detectWindow infer ws ms pad sd segments w with
  | Next sd' segments' => flagged c0 ws pad n sd' segments'
  | Return _ _ => True
  end.
Proof.
  intros [Hco [Hc [Hroom Hflag]]].
  assert (Hroom1 : room ws 1 sd) by (unfold room; lia).
  assert (Hcov : covered sd segments).
  { intros Ht. apply lastOpen_nonempty. congruence. }
  destruct (infer (SampleRate (cfg sd)) (state sd, ctx sd) w)
    as [bufs [p | e]] eqn:E.
  2:{ rewrite (detectWindow_fails _ _ _ _ _ _ _ _ _ E). exact I. }
  pose proof (detectWindow_next infer ws ms pad sd segments w bufs p
                ws_pos Hco Hroom1 Hcov E) as N.
  pose proof (enter_cases ws pad ws_pos p (withBuffers sd bufs) segments
                (proj1 Hco) Hroom1) as X.
  cbv zeta in N, X.
  remember (fst (enter ws pad p (withBuffers sd bufs) segments)) as s.
  remember (snd (enter ws pad p (withBuffers sd bufs) segments)) as g.
  clear Heqs Heqg.
  cbn [cfg state ctx currSample triggered tempEnd withBuffers] in X.
  destruct N as [Hs [Hb [Hv [sd' [segments' [D [S [Hco' Hcov']]]]]]]].
  rewrite D.
  pose proof (silence_cases ws ms pad ws_pos p s g Hs Hb Hv)
    as [t [h [S' Y]]].
  rewrite S in S'. injection S' as <- <-.
  destruct X as [A1 [A2 [A3 [A4 A5]]]].
  destruct Y as [P1 [P2 [P3 [P4 [P5 P6]]]]].
  assert (Hg : triggered s = lastOpen g).
  { destruct A5 as [[G [A5 [A6 [[A7 A8] | [A7 A8]]]]] | [G [A5 [A6 A8]]]];
      subst g; rewrite ?lastOpen_snoc; try congruence.
    rewrite A6. reflexivity. }
  unfold flagged.
  split; [exact Hco' |]. split; [congruence |]. split; [lia |].
  destruct P6 as [[P6 [P7 [P8 P9]]]
                 | [P6' [P6 [P7 [[P8 [P9 [P10 P11]]]
                                | [P8 [P9 [P10 P11]]]]]]]];
    subst segments'; try congruence.
  rewrite lastOpen_setLastEnd by (apply Hv; exact P6).
  rewrite P9. symmetry. apply seconds_nonzero; [congruence |].
  rewrite add_id
    by (unfold GoInt.in_range, GoInt.min_int, GoInt.max_int in *; lia).
  lia.
Qed.

Lemma flagged_run windows k sd segments :
  flagged c0 ws pad (List.length windows + k) sd segments ->
  match runWindows infer ws ms pad windows sd segments with
  | Next sd' segments' => flagged c0 ws pad k sd' segments'
  | Return _ _ => True
  end.
Proof.
  apply (runWindows_invariant infer ws ms pad (flagged c0 ws pad)
                               (fun _ _ => True)).
  intros n sd0 segments0 w0. apply flagged_step.
Qed.

End Flag.

(** ** The padding in samples *)

Lemma speechPadSamplesOf_exact (c : DetectorConfig) :
  wellPadded c ->
  speechPadSamplesOf c * 1000 = SpeechPadMs c * SampleRate c
  /\ 0 <= speechPadSamplesOf c <= GoInt.max_int.
Proof.
  intros [Hsr [Hp Hfit]]. unfold speechPadSamplesOf.
  rewrite mul_id
    by (unfold GoInt.in_range, GoInt.min_int, GoInt.max_int in *;
        destruct Hsr as [E | E]; rewrite E in *; lia).
  assert (Hq : Z.quot (SpeechPadMs c * SampleRate c) 1000
               = SpeechPadMs c * (SampleRate c / 1000)).
  { destruct Hsr as [E | E]; rewrite E.
    - replace (SpeechPadMs c * 8000) with (SpeechPadMs c * 8 * 1000) by lia.
      rewrite Z.quot_mul by lia. reflexivity.
    - replace (SpeechPadMs c * 16000) with (SpeechPadMs c * 16 * 1000) by lia.
      rewrite Z.quot_mul by lia. reflexivity. }
  rewrite quo_id; rewrite Hq;
    unfold GoInt.in_range, GoInt.min_int, GoInt.max_int in *;
    destruct Hsr as [E | E]; rewrite E in *;
      try change (8000 / 1000) with 8; try change (16000 / 1000) with 16; lia.
Qed.

Lemma lastOpen_iff (segments : list Segment) :
  lastOpen segments = true
  <-> exists s, lastSegment segments = Some s
                /\ F64.eqb (SpeechEndAt s) F64.zero = true.
Proof.
  unfold lastOpen, isOpen. destruct (lastSegment segments) as [s |].
  - split; [eauto | intros [s' [E H]]; congruence].
  - split; [discriminate | intros [s' [E _]]; discriminate].
Qed.

(** C4, amended. Within one call of [Detect] that is entered with
    [triggered == false], as after construction or [Reset], at a sample
    rate of 8000 or 16000 and with a padding [speechPadSamples] (line
    222) that is not negative, after every processed window
    [triggered == true] holds if and only if the last segment emitted by
    this call exists and is open ([SpeechEndAt == 0]). The padding in
    samples is not negative whenever [SpeechPadMs] is not negative and
    its product with the sample rate stays in the range of [int]
    ([speechPadSamplesOf_exact]); where the product wraps around, a
    closed segment can carry the marker of an open one
    ([wrapped_padding_closes_at_zero]). *)
Theorem triggered_iff_last_open_within_call
        (infer : adapter) (sd : Detector) (pcm : list F32.t) :
  let ws := windowSizeOf (cfg sd) in
  let ms := minSilenceSamplesOf (cfg sd) in
  let pad := speechPadSamplesOf (cfg sd) in
  SampleRate (cfg sd) = 8000 \/ SampleRate (cfg sd) = 16000 ->
  0 <= pad ->
  coherent ws sd -> triggered sd = false ->
  currSample sd + len pcm + pad <= GoInt.max_int ->
  forall pre post,
    detectWindows (cfg sd) pcm = pre ++ post ->
    match runWindows infer ws ms pad pre sd [] with
    | Next sdk segmentsk =>
        triggered sdk = true
        <-> exists s, lastSegment segmentsk = Some s
                      /\ F64.eqb (SpeechEndAt s) F64.zero = true
    | Return _ _ => True
    end.
Proof.
  intros ws ms pad Hrate Hp0 Hco Htr Hfit pre post Hwin.
  pose proof (windowSizeOf_pos (cfg sd)) as Hws. fold ws in Hws.
  assert (Hlen : len pcm <= GoInt.max_int) by (destruct Hco; lia).
  pose proof (detectWindows_room (cfg sd) pcm Hlen) as Hroom.
  rewrite Hwin, length_app in Hroom. fold ws in Hroom.
  pose proof (flagged_run infer (cfg sd) ws ms pad ltac:(lia) Hrate Hp0
                pre (List.length post) sd []) as H.
  destruct (runWindows infer ws ms pad pre sd []) as [sdk segmentsk |];
    [| exact I].
  destruct H as [_ [_ [_ H]]].
  - unfold flagged. repeat split; try apply Hco; try assumption; lia.
  - rewrite H. apply lastOpen_iff.
Qed.

Lemma Detect_next (infer : adapter) (sd sd' : Detector)
      (segments : list Segment) (pcm : list F32.t) :
  len pcm <= GoInt.max_int ->
  windowSizeOf (cfg sd) <= len pcm ->
  emitted infer sd pcm = Next sd' segments ->
  Detect infer (Some sd) pcm
  = Some (Some sd',
          (filterShort (cfg sd') (minSpeechSamplesOf (cfg sd)) segments, None)).
Proof.
  intros Hfit Hlen E. rewrite Detect_emitted, E by assumption.
  destruct (len pcm <? windowSizeOf (cfg sd)) eqn:Hs; [| reflexivity].
  apply Z.ltb_lt in Hs. lia.
Qed.

(** C1, amended. The time stamps of [Detect] count from the sample at
    which [currSample] was last 0 (construction or [Reset]), not from the
    start of the buffer of the call: a call entered between two segments
    with [currSample = c] emits, before the filter, the segments of the
    same call entered with [currSample = 0], every start and end position
    moved later by [c] samples; the returned slice is what the filter
    keeps of them. They count from the start of the buffer only for
    [c = 0]. *)
Theorem timestamps_count_from_reset
        (infer : adapter) (sd : Detector) (pcm : list F32.t) :
  let ws := windowSizeOf (cfg sd) in
  let pad := speechPadSamplesOf (cfg sd) in
  let c := currSample sd in
  wellPadded (cfg sd) ->
  coherent ws sd -> triggered sd = false ->
  c + len pcm + pad <= GoInt.max_int ->
  match emitted infer (withCurrSample sd 0) pcm, emitted infer sd pcm with
  | Next sd0' segments0, Next sd' segments =>
      Forall2 (moved (SampleRate (cfg sd)) c pad pad) segments0 segments
      /\ currSample sd' = currSample sd0' + c
      /\ triggered sd' = triggered sd0'
      /\ (ws <= len pcm ->
          Detect infer (Some sd) pcm
          = Some (Some sd',
                  (filterShort (cfg sd') (minSpeechSamplesOf (cfg sd))
                               segments, None)))
  | Return _ err0, Return _ err => err0 = err
  | _, _ => False
  end.
Proof.
  intros ws pad c Hpad Hco Htr Hfit.
  pose proof (windowSizeOf_pos (cfg sd)) as Hws. fold ws in Hws.
  destruct (speechPadSamplesOf_exact (cfg sd) Hpad) as [_ Hp]. fold pad in Hp.
  assert (Hc : 0 <= c) by apply Hco.
  assert (Hlen : len pcm <= GoInt.max_int) by lia.
  pose proof (detectWindows_room (cfg sd) pcm Hlen) as Hroom. fold ws in Hroom.
  assert (Hte : tempEnd sd = 0).
  { destruct Hco as [_ [_ H]]. destruct (Z.eq_dec (tempEnd sd) 0); [assumption |].
    specialize (H n). congruence. }
  remember (detectWindows (cfg sd) pcm) as windows eqn:Ew.
  assert (Hinit : ahead (cfg sd) (cfg sd) ws pad pad c
                        (List.length windows + 0)
                        (withCurrSample sd 0) [] sd []).
  { rewrite Nat.add_0_r. unfold ahead.
    split; [| split; [| split]].
    - split; [| split; [exact Hco | split; [lia | split; [lia | split]]]].
      + unfold coherent. cbn [currSample tempEnd triggered withCurrSample].
        split; [lia |]. split; [left; exact Hte | intros; congruence].
      + intros Ht. cbn in Ht. congruence.
      + intros Ht. congruence.
    - cbn [cfg state ctx currSample triggered withCurrSample].
      repeat split; reflexivity.
    - left. split; [exact Hte | exact Hte].
    - constructor. }
  pose proof (ahead_run infer (cfg sd) (cfg sd) ws (minSilenceSamplesOf (cfg sd))
                pad pad c ltac:(lia) eq_refl eq_refl eq_refl Hc Hp Hp
                windows 0 (withCurrSample sd 0) [] sd [] Hinit) as H.
  unfold emitted. cbn [cfg withCurrSample]. fold ws pad. rewrite <- Ew.
  destruct (runWindows infer ws _ pad windows (withCurrSample sd 0) [])
    as [sd0' segments0 | sd0' err0];
    destruct (runWindows infer ws _ pad windows sd []) as [sd' segments | sd' err]
      eqn:E1; try exact H.
  destruct H as [_ [[_ [_ [H1 [_ [_ H2]]]]] [_ H3]]].
  split; [exact H3 |]. split; [exact H1 |]. split; [congruence |].
  intros Hge. apply Detect_next; try assumption.
  unfold emitted. fold ws pad. rewrite <- Ew. exact E1.
Qed.

Lemma moved_padded (sampleRate pad : Z) (a b : Segment) :
  sampleRate = 8000 \/ sampleRate = 16000 ->
  moved sampleRate 0 0 pad a b -> padded sampleRate pad a b.
Proof.
  intros Hrate [[n [Hn [Ha Hb]]] He].
  rewrite Z.sub_0_r in Ha. rewrite Z.add_0_r in Hb.
  exists n. split; [exact Hn |].
  split; [rewrite Ha; apply startAt_unclamped; assumption |].
  split; [exact Hb |].
  split; [intros H; rewrite Hb; apply startAt_unclamped; [assumption | lia] |].
  split; [intros H; rewrite Hb; apply startAt_clamped; [assumption | lia] |].
  destruct He as [He | [e [He [Hea Heb]]]]; [left; exact He |].
  right. exists e. rewrite Z.add_0_r in Hea, Heb. auto.
Qed.

(** C7, amended. Compare the call of [Detect] under [SpeechPadMs = P]
    with the call under [SpeechPadMs = 0], all else equal, entered
    between two segments, for [0 <= P] whose product with the sample rate
    stays in the range of [int]. The padding is [pad = P * rate / 1000]
    samples, exactly [P] milliseconds. The window loop takes the same
    trigger and close decisions: the two calls fail alike, or leave the
    same running state and emit, before the filter, the same number of
    segments; and segment by segment, where the segment without padding
    starts at the sample position [n] and ends at the position [e], the
    padded one has [SpeechStartAt = float64(n - pad) / float64(rate)],
    clamped at zero exactly when [n < pad], and
    [SpeechEndAt = float64(e + pad) / float64(rate)]. The shift is one of
    sample positions; the time stamps are the rounded quotients. Each
    call returns what the filter of short segments keeps of its own
    list. *)
Theorem padding_moves_boundaries
        (infer : adapter) (sd : Detector) (P : Z) (pcm : list F32.t) :
  let sd0 := withCfg sd (withSpeechPadMs (cfg sd) 0) in
  let sdP := withCfg sd (withSpeechPadMs (cfg sd) P) in
  let ws := windowSizeOf (cfg sd) in
  let rate := SampleRate (cfg sd) in
  let pad := speechPadSamplesOf (cfg sdP) in
  let minSpeechSamples := minSpeechSamplesOf (cfg sd) in
  wellPadded (cfg sdP) ->
  coherent ws sd -> triggered sd = false ->
  currSample sd + len pcm + pad <= GoInt.max_int ->
  pad * 1000 = P * rate
  /\ match emitted infer sd0 pcm, emitted infer sdP pcm with
     | Next sd0' segments0, Next sdP' segmentsP =>
         Forall2 (padded rate pad) segments0 segmentsP
         /\ List.length segments0 = List.length segmentsP
         /\ currSample sdP' = currSample sd0'
         /\ triggered sdP' = triggered sd0'
         /\ tempEnd sdP' = tempEnd sd0'
         /\ state sdP' = state sd0' /\ ctx sdP' = ctx sd0'
         /\ (ws <= len pcm ->
             Detect infer (Some sd0) pcm
             = Some (Some sd0',
                     (filterShort (cfg sd0') minSpeechSamples segments0,
                      None))
             /\ Detect infer (Some sdP) pcm
                = Some (Some sdP',
                        (filterShort (cfg sdP') minSpeechSamples segmentsP,
                         None)))
     | Return _ err0, Return _ errP => err0 = errP
     | _, _ => False
     end.
Proof.
  intros sd0 sdP ws rate pad minSpeechSamples Hpad Hco Htr Hfit.
  pose proof (windowSizeOf_pos (cfg sd)) as Hws. fold ws in Hws.
  destruct (speechPadSamplesOf_exact (cfg sdP) Hpad) as [Hexact Hp].
  fold pad in Hexact, Hp.
  change (SpeechPadMs (cfg sdP)) with P in Hexact.
  change (SampleRate (cfg sdP)) with rate in Hexact.
  assert (Hrate : rate = 8000 \/ rate = 16000) by apply Hpad.
  split; [exact Hexact |].
  assert (Hc : 0 <= currSample sd) by apply Hco.
  assert (Hlen : len pcm <= GoInt.max_int) by lia.
  pose proof (detectWindows_room (cfg sd) pcm Hlen) as Hroom. fold ws in Hroom.
  assert (Hte : tempEnd sd = 0).
  { destruct Hco as [_ [_ H]]. destruct (Z.eq_dec (tempEnd sd) 0); [assumption |].
    specialize (H n). congruence. }
  assert (Hpad0 : speechPadSamplesOf (cfg sd0) = 0).
  { unfold speechPadSamplesOf. cbn [cfg sd0 withCfg SpeechPadMs withSpeechPadMs].
    unfold GoInt.mul. rewrite Z.mul_0_l. reflexivity. }
  remember (detectWindows (cfg sd) pcm) as windows eqn:Ew.
  assert (Hinit : ahead (cfg sd0) (cfg sdP) ws 0 pad 0
                        (List.length windows + 0) sd0 [] sdP []).
  { rewrite Nat.add_0_r. unfold ahead.
    split; [| split; [| split]].
    - split; [exact Hco | split; [exact Hco |]].
      cbn [currSample sdP withCfg].
      split; [lia | split; [lia | split]]; intros Ht; cbn in Ht; congruence.
    - cbn [cfg state ctx currSample triggered withCfg sd0 sdP].
      repeat split; lia || reflexivity.
    - left. split; exact Hte.
    - constructor. }
  pose proof (ahead_run infer (cfg sd0) (cfg sdP) ws
                (minSilenceSamplesOf (cfg sd)) 0 pad 0 ltac:(lia)
                eq_refl eq_refl eq_refl ltac:(lia)
                ltac:(unfold GoInt.max_int; lia) Hp
                windows 0 sd0 [] sdP [] Hinit) as H.
  assert (H' : match emitted infer sd0 pcm, emitted infer sdP pcm with
               | Next sd0' segments0, Next sdP' segmentsP =>
                   ahead (cfg sd0) (cfg sdP) ws 0 pad 0 0
                         sd0' segments0 sdP' segmentsP
               | Return _ err0, Return _ errP => err0 = errP
               | _, _ => False
               end).
  { unfold emitted.
    change (windowSizeOf (cfg sd0)) with ws.
    change (windowSizeOf (cfg sdP)) with ws.
    change (minSilenceSamplesOf (cfg sd0)) with (minSilenceSamplesOf (cfg sd)).
    change (minSilenceSamplesOf (cfg sdP)) with (minSilenceSamplesOf (cfg sd)).
    change (detectWindows (cfg sd0) pcm) with (detectWindows (cfg sd) pcm).
    change (detectWindows (cfg sdP) pcm) with (detectWindows (cfg sd) pcm).
    rewrite Hpad0. fold pad. rewrite <- Ew. exact H. }
  clear H.
  destruct (emitted infer sd0 pcm) as [sd0' segments0 | sd0' err0] eqn:E0;
    destruct (emitted infer sdP pcm) as [sdP' segmentsP | sdP' errP] eqn:EP;
    try exact H'.
  destruct H' as [_ [[_ [_ [H1 [H2 [H3 H4]]]]] [H5 H6]]].
  split.
  { clear - H6 Hrate. induction H6 as [| a b l l' Hab _ IH]; constructor.
    - apply moved_padded; assumption.
    - exact IH. }
  split; [exact (Forall2_length H6) |].
  split; [lia |]. split; [congruence |].
  split; [destruct H5 as [[E1 E2] | [E1 E2]]; lia |].
  split; [congruence |]. split; [congruence |].
  intros Hge. split.
  - exact (Detect_next infer sd0 sd0' segments0 pcm Hlen Hge E0).
  - exact (Detect_next infer sdP sdP' segmentsP pcm Hlen Hge EP).
Qed.

(** ** Validation and defaults *)

Lemma F32_geb_ltb (x y : F32.t) :
  x <> S754_nan -> y <> S754_nan -> F32.geb x y = negb (F32.ltb x y).
Proof.
  intros Hx Hy. unfold F32.geb, F32.ltb, F32.leb, SFleb, SFltb.
  rewrite (SFcompare_antisym x y).
  destruct (SFcompare x y) as [[] |] eqn:E; try reflexivity.
  destruct x, y; try congruence; discriminate.
Qed.

Lemma F32_leb_gtb (x y : F32.t) :
  x <> S754_nan -> y <> S754_nan -> F32.leb x y = negb (F32.gtb x y).
Proof. intros Hx Hy. apply (F32_geb_ltb y x); assumption. Qed.

(** On configurations whose thresholds are numbers, [IsValid] accepts
    exactly the configurations that meet the constraints. *)
Lemma IsValid_iff_numbers (c : DetectorConfig) :
  ModelPath c <> "" ->
  Threshold c <> S754_nan -> NegativeThreshold c <> S754_nan ->
  IsValid c = None <-> constraints c.
Proof.
  intros Hpath Ht Hn. unfold IsValid, constraints.
  destruct (String.eqb_spec (ModelPath c) ""); [congruence |].
  assert (Hz : F32.zero <> S754_nan) by discriminate.
  assert (Ho : F32.one <> S754_nan) by discriminate.
  rewrite (F32_leb_gtb (Threshold c) F32.zero Ht Hz).
  rewrite (F32_geb_ltb (Threshold c) F32.one Ht Ho).
  rewrite (F32_geb_ltb (NegativeThreshold c) F32.one Hn Ho).
  rewrite (F32_geb_ltb (NegativeThreshold c) F32.zero Hn Hz).
  rewrite (F32_geb_ltb (NegativeThreshold c) (Threshold c) Hn Ht).
  assert (Heq : F32.eqb (NegativeThreshold c) F32.zero
                = negb (F32.ltb (NegativeThreshold c) F32.zero)
                  && negb (F32.gtb (NegativeThreshold c) F32.zero)).
  { unfold F32.eqb, F32.ltb, F32.gtb, SFeqb, SFltb.
    rewrite (SFcompare_antisym (NegativeThreshold c) F32.zero).
    destruct (SFcompare (NegativeThreshold c) F32.zero) as [[] |] eqn:E;
      try reflexivity.
    destruct (NegativeThreshold c); try congruence; discriminate. }
  rewrite Heq.
  destruct (negb (SampleRate c =? 8000) && negb (SampleRate c =? 16000))
    eqn:B1.
  { split; [discriminate |]. intros [[K | K] _]; rewrite K in B1; discriminate. }
  destruct (negb (F32.gtb (Threshold c) F32.zero)
            || negb (F32.ltb (Threshold c) F32.one)) eqn:B2.
  { split; [discriminate |]. intros [_ [[K1 K2] _]].
    rewrite K1, K2 in B2. discriminate. }
  destruct (F32.ltb (NegativeThreshold c) F32.zero
            || negb (F32.ltb (NegativeThreshold c) F32.one)) eqn:B3.
  { split; [discriminate |]. intros [_ [_ [[K1 K2] _]]].
    rewrite K2 in B3. apply negb_true_iff in K1. rewrite K1 in B3.
    discriminate. }
  destruct (F32.gtb (NegativeThreshold c) F32.zero
            && negb (F32.ltb (NegativeThreshold c) (Threshold c))) eqn:B4.
  { split; [discriminate |]. intros [_ [_ [_ [K _]]]].
    destruct (F32.gtb (NegativeThreshold c) F32.zero),
      (F32.ltb (NegativeThreshold c) (Threshold c)),
      (F32.ltb (NegativeThreshold c) F32.zero);
      destruct K; discriminate. }
  destruct (Z.ltb_spec (MinSilenceDurationMs c) 0);
    [split; [discriminate | intros K; lia] |].
  destruct (Z.ltb_spec (MinSpeechDurationMs c) 0);
    [split; [discriminate | intros K; lia] |].
  destruct (Z.ltb_spec (SpeechPadMs c) 0);
    [split; [discriminate | intros K; lia] |].
  split; [intros _ | reflexivity].
  apply orb_false_iff in B2, B3. destruct B2 as [B2 B2'], B3 as [B3 B3'].
  apply negb_false_iff in B2, B2', B3'.
  split.
  { destruct (Z.eqb_spec (SampleRate c) 8000); [auto |].
    destruct (Z.eqb_spec (SampleRate c) 16000); [auto | discriminate]. }
  rewrite B2, B2', B3, B3'. cbn [negb andb].
  repeat split; try assumption.
  destruct (F32.gtb (NegativeThreshold c) F32.zero),
    (F32.ltb (NegativeThreshold c) (Threshold c)); cbn in *; auto;
    discriminate.
Qed.

(** The messages of the validation errors are pairwise different. *)
Lemma validation_messages_distinct :
  NoDup (map Error
             [errModelPath; errSampleRate; errThreshold;
              errNegativeThresholdRange; errNegativeThresholdOrder;
              errMinSilenceDurationMs; errMinSpeechDurationMs;
              errSpeechPadMs]).
Proof.
  cbn. repeat constructor; cbn; intuition discriminate.
Qed.

(** C8, the code at the failing inputs: a configuration whose
    [Threshold] is NaN, and one whose [NegativeThreshold] is NaN, pass
    [IsValid], although NaN lies in neither range: every comparison of
    the checks is false on NaN. *)
Theorem IsValid_accepts_NaN :
  IsValid cfgNaN = None
  /\ F32.gtb (Threshold cfgNaN) F32.zero = false
  /\ F32.ltb (Threshold cfgNaN) F32.one = false
  /\ IsValid cfgNegNaN = None
  /\ F32.geb (NegativeThreshold cfgNegNaN) F32.zero = false
  /\ F32.ltb (NegativeThreshold cfgNegNaN) F32.one = false
  /\ ~ constraints cfgNaN /\ ~ constraints cfgNegNaN.
Proof.
  repeat split; try (vm_compute; reflexivity).
  - intros [_ [[H _] _]]. vm_compute in H. discriminate.
  - intros [_ [_ [[H _] _]]]. vm_compute in H. discriminate.
Qed.

(** C3, counterexample. For the valid configuration with
    [Threshold = 0.1] and [NegativeThreshold] unset, the substituted
    negative threshold is [0.1 - 0.15], a negative number. *)
Lemma default_negative_threshold_negative :
  IsValid cfgLow = None
  /\ F32.eqb (NegativeThreshold cfgLow) F32.zero = true
  /\ exists sd,
      NewDetector ortOk cfgLow = (Some sd, None)
      /\ NegativeThreshold (cfg sd) = F32.sub (f32 1 10) F32.c0_15
      /\ F32.ltb (NegativeThreshold (cfg sd)) F32.zero = true
      /\ F32.geb (NegativeThreshold (cfg sd)) F32.zero = false.
Proof.
  split; [vm_compute; reflexivity |]. split; [vm_compute; reflexivity |].
  eexists. split; [vm_compute; reflexivity |].
  repeat split; vm_compute; reflexivity.
Qed.

(** C3, amended. For a configuration that passes validation with
    [NegativeThreshold] equal to 0, [NewDetector] substitutes the
    [float32] difference [Threshold - 0.15], without clamping; the
    substituted value is not negative whenever [Threshold >= 0.15]. *)
Theorem default_negative_threshold
        (ortSetup : DetectorConfig -> option error)
        (c : DetectorConfig) (sd : Detector) :
  IsValid c = None ->
  F32.eqb (NegativeThreshold c) F32.zero = true ->
  NewDetector ortSetup c = (Some sd, None) ->
  NegativeThreshold (cfg sd) = F32.sub (Threshold c) F32.c0_15
  /\ (F32.valid (Threshold c) = true ->
      F32.geb (Threshold c) F32.c0_15 = true ->
      F32.geb (NegativeThreshold (cfg sd)) F32.zero = true).
Proof.
  intros Hvalid Hzero Hnew. unfold NewDetector in Hnew.
  rewrite Hvalid, Hzero in Hnew.
  assert (Hneg : NegativeThreshold (cfg sd)
                 = F32.sub (Threshold c) F32.c0_15).
  { destruct (MinSpeechDurationMs _ =? 0);
      destruct (ortSetup _); try discriminate;
        injection Hnew as <-; reflexivity. }
  split; [exact Hneg |].
  intros Hv Hge. rewrite Hneg. apply sub_c0_15_nonneg; assumption.
Qed.

(** The constant [F32.c0_15] is the [float32] nearest to 15/100. *)
Lemma c0_15_rounded : F32.c0_15 = f32 15 100.
Proof. vm_compute. reflexivity. Qed.

Lemma NewDetector_cfg8k : NewDetector ortOk cfg8k = (Some detector8k, None).
Proof. vm_compute. reflexivity. Qed.

Lemma NewDetector_cfg16k : NewDetector ortOk cfg16k = (Some detector16k, None).
Proof. vm_compute. reflexivity. Qed.

(** C1, counterexample. Two successive calls on the same buffer, no
    [Reset] in between, the same probabilities in both: the first call
    consumes 2304 samples and returns the segment from sample 0 to sample
    2304, the second returns the segment from sample 2304 to sample 4608,
    that is the time stamps of the first moved by the 2304 samples
    consumed before, and not those of its own buffer. *)
Lemma second_call_is_offset :
  exists sd1 sd2,
    Detect firstSample (Some detector8k) pcmSpeech
    = Some (Some sd1,
            ([mkSegment (seconds 8000 0) (seconds 8000 2304)], None))
    /\ currSample sd1 = 2304
    /\ Detect firstSample (Some sd1) pcmSpeech
       = Some (Some sd2,
               ([mkSegment (seconds 8000 (0 + 2304))
                           (seconds 8000 (2304 + 2304))], None))
    /\ F64.eqb (seconds 8000 (0 + 2304)) (seconds 8000 0) = false
    /\ F64.eqb (seconds 8000 (2304 + 2304)) (seconds 8000 2304) = false.
Proof.
  do 2 eexists.
  split; [vm_compute; reflexivity |]. split; [reflexivity |].
  split; [vm_compute; reflexivity |]. split; vm_compute; reflexivity.
Qed.

(** C4, counterexample. The first call ends inside a segment: it returns
    one open segment and leaves [triggered == true]. In the second call,
    after its first window (a probability between the thresholds)
    [triggered] is still true while the slice of the call is empty; and
    at its second window (silence) the call fails with "unexpected speech
    end" and leaves [triggered == false], although the last segment ever
    emitted, the one of the first call, was never closed. *)
Lemma triggered_without_open_segment :
  exists sd1 s1 sd2 sd3,
    Detect firstSample (Some detector8k) pcmOpen = Some (Some sd1, ([s1], None))
    /\ isOpen s1 = true /\ triggered sd1 = true
    /\ runWindows firstSample 256 0 0
                  (firstn 1 (detectWindows (cfg sd1) pcmFade)) sd1 []
       = Next sd2 []
    /\ ~ (triggered sd2 = true
          <-> exists s, lastSegment [] = Some s
                        /\ F64.eqb (SpeechEndAt s) F64.zero = true)
    /\ Detect firstSample (Some sd1) pcmFade
       = Some (Some sd3, ([], Some errUnexpectedSpeechEnd))
    /\ ~ (triggered sd3 = true
          <-> exists s, lastSegment ([s1] ++ []) = Some s
                        /\ F64.eqb (SpeechEndAt s) F64.zero = true).
Proof.
  do 4 eexists.
  split; [vm_compute; reflexivity |].
  split; [reflexivity |]. split; [reflexivity |].
  split; [vm_compute; reflexivity |].
  split.
  { intros [H _]. destruct (H eq_refl) as [s [E _]]. discriminate. }
  split; [vm_compute; reflexivity |].
  intros [_ H]. cbn in H.
  assert (E : false = true); [| discriminate].
  apply H. eexists. split; reflexivity.
Qed.

(** C6, counterexample. From the reset state, with the filter of short
    segments at its default of 250 ms: under the negative threshold 0.35
    the dip to 0.3 splits the speech in two segments of 64 ms and 192 ms,
    both filtered out, and nothing is returned; under the lower negative
    threshold 0.2 the dip is ignored and the single segment of 256 ms is
    returned. *)
Lemma lower_negative_threshold_returns_more :
  F32.ltb (f32 2 10) (f32 35 100) = true
  /\ exists sd1 sd2 s,
      Detect firstSample (Some (SetNegativeThreshold detector8k (f32 2 10)))
             pcmDip
      = Some (Some sd1, ([s], None))
      /\ Detect firstSample
                (Some (SetNegativeThreshold detector8k (f32 35 100))) pcmDip
         = Some (Some sd2, ([], None))
      /\ ~ (List.length [s] <= List.length (@nil Segment))%nat.
Proof.
  split; [vm_compute; reflexivity |].
  do 3 eexists.
  split; [vm_compute; reflexivity |].
  split; [vm_compute; reflexivity |].
  cbn. lia.
Qed.

(** The number of windows that [Detect] hands to the adapter (when no
    iteration returns): [(len - 1) / windowSize], which for a length that
    is a multiple of the window size is one less than
    [len / windowSize]. *)
Lemma detectWindows_count (c : DetectorConfig) (pcm : list F32.t) :
  len pcm <= GoInt.max_int -> windowSizeOf c <= len pcm ->
  len (detectWindows c pcm) = (len pcm - 1) / windowSizeOf c
  /\ (len pcm mod windowSizeOf c = 0 ->
      len (detectWindows c pcm) = len pcm / windowSizeOf c - 1).
Proof.
  intros Hfit Hlen. pose proof (windowSizeOf_pos c) as Hws.
  assert (Hcount : len (detectWindows c pcm) = (len pcm - 1) / windowSizeOf c).
  { rewrite detectWindows_enum by assumption.
    unfold len at 1. rewrite length_map, length_seq.
    apply Z2Nat.id. apply Z.div_pos; lia. }
  split; [exact Hcount |]. intros Hmod. rewrite Hcount.
  pose proof (Z.div_mod (len pcm) (windowSizeOf c) ltac:(lia)) as Hdm.
  rewrite Hmod, Z.add_0_r in Hdm.
  symmetry. apply Z.div_unique with (r := windowSizeOf c - 1); lia.
Qed.

(** C2, the code at the failing input. A buffer of exactly one window
    (512 samples at 16 kHz) passes the length check but the loop visits
    no window: whatever the adapter, it is not called, the detector is
    left as it was and the empty slice is returned without error, where
    [512 / 512 = 1] window is due; of a buffer of two windows only the
    first is visited. *)
Theorem exact_multiple_drops_last_window (infer : adapter) :
  len (zeros 512) = 512
  /\ windowSizeOf (cfg detector16k) = 512
  /\ detectWindows (cfg detector16k) (zeros 512) = []
  /\ Detect infer (Some detector16k) (zeros 512)
     = Some (Some detector16k, ([], None))
  /\ len (detectWindows (cfg detector16k) (zeros 1024)) = 1
  /\ 1024 / 512 = 2.
Proof.
  repeat split; vm_compute; reflexivity.
Qed.

(** ** Detectors with coherent counters *)

Lemma NewDetector_coherent (ortSetup : DetectorConfig -> option error)
      (c : DetectorConfig) (sd : Detector) (ws : Z) :
  NewDetector ortSetup c = (Some sd, None) ->
  coherent ws sd /\ triggered sd = false /\ currSample sd = 0.
Proof.
  intros H. unfold NewDetector in H.
  destruct (IsValid c); [discriminate |].
  destruct (ortSetup _); [discriminate |].
  injection H as <-. unfold coherent. cbn. repeat split; lia.
Qed.

Lemma Reset_coherent (sd sd' : Detector) (ws : Z) :
  Reset (Some sd) = (Some sd', None) ->
  coherent ws sd' /\ triggered sd' = false /\ currSample sd' = 0
  /\ cfg sd' = cfg sd.
Proof.
  intros H. injection H as <-. unfold coherent. cbn. repeat split; lia.
Qed.

Lemma setters_coherent (sd : Detector) (ws : Z) (v : F32.t) (n : Z) :
  coherent ws sd ->
  coherent ws (SetThreshold sd v)
  /\ coherent ws (SetNegativeThreshold sd v)
  /\ coherent ws (SetMinSpeechDurationMs sd n).
Proof. intros H. repeat split; apply H. Qed.

(** ** The segments of [TestSpeechDetection] *)

(** On a trace of that shape the model returns the segments that the
    test of the repository expects, to the last bit of the [float64]
    values 1.056, 1.632, 2.88, 3.232 and 4.448. *)
Example trace_segments :
  exists sd',
    Detect firstSample (Some detector16k) pcmTrace
    = Some (Some sd',
            ([mkSegment (f64 1056 1000) (f64 1632 1000);
              mkSegment (f64 288 100) (f64 3232 1000);
              mkSegment (f64 4448 1000) F64.zero], None)).
Proof. eexists. vm_compute. reflexivity. Qed.

(** ** The statements at concrete detectors and buffers *)

(** C5 at a detector left inside a segment, where the close of the second
    window of [pcmFade] finds the slice empty, and at the new detector. *)
Lemma unexpected_speech_end_witness :
  len pcmFade <= GoInt.max_int
  /\ (exists sd',
        Detect firstSample (Some detectorOpen) pcmFade
        = Some (Some sd', ([], Some errUnexpectedSpeechEnd)))
  /\ (exists sd' segments err,
        Detect firstSample (Some detector8k) pcmFade
        = Some (Some sd', (segments, err))
        /\ err <> Some errUnexpectedSpeechEnd).
Proof.
  assert (H : len pcmFade <= GoInt.max_int) by (vm_compute; discriminate).
  split; [exact H |]. split.
  - destruct (unexpected_speech_end firstSample detectorOpen pcmFade H)
      as [A _].
    apply (A [windowOf 256 (f32 4 10)] (windowOf 256 quiet) []
             (withCurrSample detectorOpen 512)
             (zeros stateLen, zeros contextLen) quiet);
      vm_compute; reflexivity.
  - destruct (unexpected_speech_end firstSample detector8k pcmFade H)
      as [_ B].
    apply B. reflexivity.
Defined.

(** C9 on [pcmBroken]: the segment opened by the first window is not
    returned when the inference fails at the second. *)
Lemma no_partial_segments_witness :
  len pcmBroken <= GoInt.max_int
  /\ exists sd',
      Detect firstSample (Some detector8k) pcmBroken
      = Some (sd', ([], Some (errInferFailed (Errorf "inference failed")))).
Proof.
  assert (H : len pcmBroken <= GoInt.max_int) by (vm_compute; discriminate).
  split; [exact H |].
  destruct (no_partial_segments firstSample detector8k pcmBroken H)
    as [sd' [segments [err [E [_ [_ C]]]]]].
  destruct (C [windowOf 256 speech] (windowOf 256 F32.nan) []
              (withTriggered (withCurrSample detector8k 256) true)
              [mkSegment F64.zero F64.zero]
              (zeros stateLen, zeros contextLen)
              (Errorf "inference failed")) as [C1 C2];
    try (vm_compute; reflexivity).
  exists sd'. rewrite E, C1, C2. reflexivity.
Defined.

(** C10 at the new detector on [pcmSpeech]. *)
Lemma candidate_never_zero_witness :
  coherent 256 detector8k
  /\ currSample detector8k + len pcmSpeech <= GoInt.max_int
  /\ exists sd' r,
      Detect firstSample (Some detector8k) pcmSpeech = Some (Some sd', r)
      /\ coherent 256 sd'.
Proof.
  assert (H1 : coherent 256 detector8k).
  { unfold coherent. cbn. repeat split; lia. }
  assert (H2 : currSample detector8k + len pcmSpeech <= GoInt.max_int)
    by (vm_compute; discriminate).
  split; [exact H1 |]. split; [exact H2 |].
  exact (proj2 (candidate_never_zero firstSample detector8k pcmSpeech H1 H2)).
Defined.

Lemma coherent_detector8k : coherent 256 detector8k.
Proof. unfold coherent. cbn. repeat split; lia. Qed.

Lemma coherent_detectorUsed : coherent 256 detectorUsed.
Proof. unfold coherent. cbn. repeat split; lia. Qed.

Lemma coherent_detector16k : coherent 512 detector16k.
Proof. unfold coherent. cbn. repeat split; lia. Qed.

Lemma wellPadded_cfg8k : wellPadded (cfg detector8k).
Proof. unfold wellPadded. cbn. repeat split; auto; vm_compute; discriminate. Qed.

(** C4, amended, at the new detector after all windows of [pcmSpeech]. *)
Lemma triggered_iff_last_open_within_call_witness :
  (SampleRate (cfg detector8k) = 8000 \/ SampleRate (cfg detector8k) = 16000)
  /\ 0 <= speechPadSamplesOf (cfg detector8k)
  /\ coherent 256 detector8k
  /\ triggered detector8k = false
  /\ currSample detector8k + len pcmSpeech
     + speechPadSamplesOf (cfg detector8k) <= GoInt.max_int
  /\ match runWindows firstSample 256 0 0
                      (detectWindows (cfg detector8k) pcmSpeech)
                      detector8k [] with
     | Next sdk segmentsk =>
         triggered sdk = true
         <-> exists s, lastSegment segmentsk = Some s
                       /\ F64.eqb (SpeechEndAt s) F64.zero = true
     | Return _ _ => True
     end.
Proof.
  assert (H : currSample detector8k + len pcmSpeech
              + speechPadSamplesOf (cfg detector8k) <= GoInt.max_int)
    by (vm_compute; discriminate).
  assert (H0 : 0 <= speechPadSamplesOf (cfg detector8k))
    by (vm_compute; discriminate).
  split; [left; reflexivity |]. split; [exact H0 |].
  split; [exact coherent_detector8k |].
  split; [reflexivity |]. split; [exact H |].
  apply (triggered_iff_last_open_within_call
           firstSample detector8k pcmSpeech
           (or_introl eq_refl) H0 coherent_detector8k eq_refl H
           (detectWindows (cfg detector8k) pcmSpeech) []).
  symmetry. apply app_nil_r.
Defined.

(** C1, amended, at the detector that has consumed 2304 samples. *)
Lemma timestamps_count_from_reset_witness :
  wellPadded (cfg detectorUsed)
  /\ coherent 256 detectorUsed
  /\ triggered detectorUsed = false
  /\ currSample detectorUsed + len pcmSpeech
     + speechPadSamplesOf (cfg detectorUsed) <= GoInt.max_int
  /\ match emitted firstSample (withCurrSample detectorUsed 0) pcmSpeech,
           emitted firstSample detectorUsed pcmSpeech with
     | Next sd0' segments0, Next sd' segments =>
         Forall2 (moved 8000 2304 0 0) segments0 segments
         /\ currSample sd' = currSample sd0' + 2304
         /\ triggered sd' = triggered sd0'
         /\ (256 <= len pcmSpeech ->
             Detect firstSample (Some detectorUsed) pcmSpeech
             = Some (Some sd',
                     (filterShort (cfg sd')
                                  (minSpeechSamplesOf (cfg detectorUsed))
                                  segments, None)))
     | Return _ err0, Return _ err => err0 = err
     | _, _ => False
     end.
Proof.
  assert (H : currSample detectorUsed + len pcmSpeech
              + speechPadSamplesOf (cfg detectorUsed) <= GoInt.max_int)
    by (vm_compute; discriminate).
  split; [exact wellPadded_cfg8k |]. split; [exact coherent_detectorUsed |].
  split; [reflexivity |]. split; [exact H |].
  exact (timestamps_count_from_reset
           firstSample detectorUsed pcmSpeech
           wellPadded_cfg8k coherent_detectorUsed eq_refl H).
Defined.

(** C6, amended, on [pcmDip] with the negative thresholds 0.2 and 0.35. *)
Lemma lower_negative_threshold_emits_no_more_witness :
  triggered detector8k = false /\ tempEnd detector8k = 0
  /\ 0 <= currSample detector8k
  /\ currSample detector8k + len pcmDip <= GoInt.max_int
  /\ F32.ltb (f32 2 10) (f32 35 100) = true
  /\ match emitted firstSample (SetNegativeThreshold detector8k (f32 2 10))
                   pcmDip,
           emitted firstSample (SetNegativeThreshold detector8k (f32 35 100))
                   pcmDip with
     | Next _ segments1, Next _ segments2 =>
         (List.length segments1 <= List.length segments2)%nat
     | Return _ err1, Return _ err2 => err1 = err2
     | _, _ => False
     end.
Proof.
  assert (H : currSample detector8k + len pcmDip <= GoInt.max_int)
    by (vm_compute; discriminate).
  assert (Hlt : F32.ltb (f32 2 10) (f32 35 100) = true)
    by (vm_compute; reflexivity).
  split; [reflexivity |]. split; [reflexivity |].
  assert (H0 : 0 <= currSample detector8k) by (cbn; lia).
  split; [exact H0 |]. split; [exact H |]. split; [exact Hlt |].
  pose proof (lower_negative_threshold_emits_no_more
                firstSample detector8k (f32 2 10) (f32 35 100) pcmDip
                eq_refl eq_refl H0 H Hlt) as X.
  cbv zeta in X. destruct X as [X _]. exact X.
Defined.

(** C3, amended, at the configuration of [TestNewDetector]: the threshold
    0.5 gives the negative threshold 0.35. *)
Lemma default_negative_threshold_witness :
  IsValid cfgDefault = None
  /\ F32.eqb (NegativeThreshold cfgDefault) F32.zero = true
  /\ NewDetector ortOk cfgDefault
     = (Some (SetNegativeThreshold detector16k (f32 35 100)), None)
  /\ F32.valid (Threshold cfgDefault) = true
  /\ F32.geb (Threshold cfgDefault) F32.c0_15 = true
  /\ NegativeThreshold (cfg (SetNegativeThreshold detector16k (f32 35 100)))
     = F32.sub (Threshold cfgDefault) F32.c0_15
  /\ F32.geb (NegativeThreshold
                (cfg (SetNegativeThreshold detector16k (f32 35 100))))
             F32.zero = true.
Proof.
  assert (H1 : IsValid cfgDefault = None) by (vm_compute; reflexivity).
  assert (H2 : F32.eqb (NegativeThreshold cfgDefault) F32.zero = true)
    by (vm_compute; reflexivity).
  assert (H3 : NewDetector ortOk cfgDefault
               = (Some (SetNegativeThreshold detector16k (f32 35 100)), None))
    by (vm_compute; reflexivity).
  assert (H4 : F32.valid (Threshold cfgDefault) = true)
    by (vm_compute; reflexivity).
  assert (H5 : F32.geb (Threshold cfgDefault) F32.c0_15 = true)
    by (vm_compute; reflexivity).
  destruct (default_negative_threshold ortOk cfgDefault _ H1 H2 H3) as [A B].
  repeat (split; [assumption |]). exact (B H4 H5).
Defined.

(** C7, amended, at 16 kHz with a padding of 30 ms, that is 480
    samples. *)
Lemma padding_moves_boundaries_witness :
  wellPadded (cfg (detector16kPad 30))
  /\ coherent 512 detector16k
  /\ triggered detector16k = false
  /\ currSample detector16k + len pcmPadded
     + speechPadSamplesOf (cfg (detector16kPad 30)) <= GoInt.max_int
  /\ speechPadSamplesOf (cfg (detector16kPad 30)) * 1000 = 30 * 16000
  /\ match emitted firstSample (detector16kPad 0) pcmPadded,
           emitted firstSample (detector16kPad 30) pcmPadded with
     | Next sd0' segments0, Next sdP' segmentsP =>
         Forall2 (padded 16000 (speechPadSamplesOf (cfg (detector16kPad 30))))
                 segments0 segmentsP
         /\ List.length segments0 = List.length segmentsP
         /\ currSample sdP' = currSample sd0'
         /\ triggered sdP' = triggered sd0'
         /\ tempEnd sdP' = tempEnd sd0'
         /\ state sdP' = state sd0' /\ ctx sdP' = ctx sd0'
         /\ (512 <= len pcmPadded ->
             Detect firstSample (Some (detector16kPad 0)) pcmPadded
             = Some (Some sd0',
                     (filterShort (cfg sd0')
                                  (minSpeechSamplesOf (cfg detector16k))
                                  segments0, None))
             /\ Detect firstSample (Some (detector16kPad 30)) pcmPadded
                = Some (Some sdP',
                        (filterShort (cfg sdP')
                                     (minSpeechSamplesOf (cfg detector16k))
                                     segmentsP, None)))
     | Return _ err0, Return _ errP => err0 = errP
     | _, _ => False
     end.
Proof.
  assert (H1 : wellPadded (cfg (detector16kPad 30))).
  { unfold wellPadded. cbn. repeat split; auto; vm_compute; discriminate. }
  assert (H2 : currSample detector16k + len pcmPadded
               + speechPadSamplesOf (cfg (detector16kPad 30))
               <= GoInt.max_int)
    by (vm_compute; discriminate).
  split; [exact H1 |]. split; [exact coherent_detector16k |].
  split; [reflexivity |]. split; [exact H2 |].
  exact (padding_moves_boundaries firstSample detector16k 30 pcmPadded
           H1 coherent_detector16k eq_refl H2).
Defined.

(** C7, counterexample. From the reset state at 16 kHz, with no start
    clamped. (1) With a padding of 30 ms the call on [pcmShift] returns
    the one closed segment of the call without padding, from the sample
    positions 5120 - 480 to 10752 + 480 instead of 5120 to 10752, and
    neither time stamp has moved by the [float64] value [30 / 1000]:
    [SpeechStartAt] is not the start without padding minus [30 / 1000],
    nor is the difference of the two starts [30 / 1000], and likewise
    for [SpeechEndAt]. (2) With a padding of 15 ms the call on [pcmBrief]
    returns a segment of 254 ms, whose counterpart of 224 ms the call
    without padding filters out. (3) The padding [2^58 - 64] ms, which
    [IsValid] accepts at 8 kHz, is -512 samples after the wrap-around of
    line 222: the start of the segment moves later, from 0 to 0.064 s. *)
Lemma padding_shift_not_exact :
  (exists sd0 sdP a b,
      Detect firstSample (Some (detector16kPad 0)) pcmShift
      = Some (Some sd0, ([a], None))
      /\ Detect firstSample (Some (detector16kPad 30)) pcmShift
         = Some (Some sdP, ([b], None))
      /\ F64.ltb F64.zero (SpeechStartAt b) = true
      /\ F64.eqb (SpeechStartAt b)
                 (F64.sub (SpeechStartAt a) (f64 30 1000)) = false
      /\ F64.eqb (F64.sub (SpeechStartAt a) (SpeechStartAt b))
                 (f64 30 1000) = false
      /\ F64.eqb (SpeechEndAt b)
                 (F64add (SpeechEndAt a) (f64 30 1000)) = false
      /\ F64.eqb (F64.sub (SpeechEndAt b) (SpeechEndAt a))
                 (f64 30 1000) = false)
  /\ (exists sd0 sdP b,
         Detect firstSample (Some (detector16kPad 0)) pcmBrief
         = Some (Some sd0, ([], None))
         /\ Detect firstSample (Some (detector16kPad 15)) pcmBrief
            = Some (Some sdP, ([b], None))
         /\ F64.ltb F64.zero (SpeechStartAt b) = true)
  /\ (IsValid cfgWrapped = None
      /\ NewDetector ortOk cfgWrapped = (Some detectorWrapped, None)
      /\ speechPadSamplesOf cfgWrapped = -512
      /\ exists sd0 sdP a b,
          emitted firstSample detector8k pcmBlip = Next sd0 [a]
          /\ emitted firstSample detectorWrapped pcmBlip = Next sdP [b]
          /\ SpeechStartAt a = F64.zero
          /\ SpeechStartAt b = seconds 8000 512
          /\ F64.ltb (SpeechStartAt a) (SpeechStartAt b) = true).
Proof.
  split; [| split].
  - do 4 eexists.
    split; [vm_compute; reflexivity |].
    split; [vm_compute; reflexivity |].
    repeat split; vm_compute; reflexivity.
  - do 3 eexists.
    split; [vm_compute; reflexivity |].
    split; [vm_compute; reflexivity |].
    vm_compute; reflexivity.
  - split; [vm_compute; reflexivity |].
    split; [vm_compute; reflexivity |].
    split; [vm_compute; reflexivity |].
    do 4 eexists.
    split; [vm_compute; reflexivity |].
    split; [vm_compute; reflexivity |].
    repeat split; vm_compute; reflexivity.
Qed.

(** The amended C4 needs its padding: with the padding of -512 samples
    of [cfgWrapped], the segment that the second window of [pcmBlip]
    closes gets [SpeechEndAt = float64(512 - 512) / 8000 = 0], the marker
    of an open segment, while the detector is left not triggered; the
    call returns it as if it were open. *)
Lemma wrapped_padding_closes_at_zero :
  IsValid cfgWrapped = None
  /\ speechPadSamplesOf (cfg detectorWrapped) = -512
  /\ exists sd' s,
      Detect firstSample (Some detectorWrapped) pcmBlip
      = Some (Some sd', ([s], None))
      /\ emitted firstSample detectorWrapped pcmBlip = Next sd' [s]
      /\ triggered sd' = false
      /\ lastSegment [s] = Some s
      /\ F64.eqb (SpeechEndAt s) F64.zero = true.
Proof.
  split; [vm_compute; reflexivity |].
  split; [vm_compute; reflexivity |].
  do 2 eexists.
  split; [vm_compute; reflexivity |].
  repeat split; vm_compute; reflexivity.
Qed.

(* ===================================================================== *)
(** * Further properties of the detector *)
(* ===================================================================== *)

(** ** What a call leaves untouched *)

(** One window writes the buffers that the adapter returns, and never
    the configuration. *)
Lemma detectWindow_frame (infer : adapter) (ws ms pad : Z) (sd : Detector)
      (segments : list Segment) (w : list F32.t) :
  match detectWindow infer ws ms pad sd segments w with
  | Next sd' _ | Return sd' _ =>
      cfg sd' = cfg sd
      /\ (state sd', ctx sd')
         = fst (infer (SampleRate (cfg sd)) (state sd, ctx sd) w)
  end.
Proof.
  unfold detectWindow.
  destruct (infer (SampleRate (cfg sd)) (state sd, ctx sd) w)
    as [[st cx] [p | e]]; [| cbn; auto].
  unfold trigger, silence, markCandidate, rearm, advance.
  repeat match goal with
         | |- context [if ?b then _ else _] => destruct b; cbn
         end; auto.
Qed.

Lemma runWindows_cfg (infer : adapter) (ws ms pad : Z)
      (windows : list (list F32.t)) :
  forall (sd : Detector) (segments : list Segment),
    match runWindows infer ws ms pad windows sd segments with
    | Next sd' _ | Return sd' _ => cfg sd' = cfg sd
    end.
Proof.
  induction windows as [| w windows IH]; intros sd segments; [reflexivity |].
  cbn [runWindows].
  pose proof (detectWindow_frame infer ws ms pad sd segments w) as H.
  destruct (detectWindow infer ws ms pad sd segments w)
    as [sd1 segments1 | sd1 err]; [| apply H].
  specialize (IH sd1 segments1).
  destruct (runWindows infer ws ms pad windows sd1 segments1);
    rewrite IH; apply H.
Qed.

Lemma detectLoop_cfg (infer : adapter) (ws ms pad : Z) (pcm : list F32.t)
      (fuel : nat) :
  forall (i : Z) (sd : Detector) (segments : list Segment),
    match detectLoop infer fuel ws ms pad pcm i sd segments with
    | Some (Next sd' _) | Some (Return sd' _) => cfg sd' = cfg sd
    | None => True
    end.
Proof.
  induction fuel as [| fuel IH]; intros i sd segments; [exact I |].
  cbn [detectLoop]. destruct (i <? GoInt.sub (len pcm) ws); [| reflexivity].
  pose proof (detectWindow_frame infer ws ms pad sd segments
                (slice pcm i (GoInt.add i ws))) as H.
  destruct (detectWindow infer ws ms pad sd segments _)
    as [sd1 segments1 | sd1 err]; [| apply H].
  specialize (IH (GoInt.add i ws) sd1 segments1).
  destruct (detectLoop infer fuel ws ms pad pcm (GoInt.add i ws) sd1 segments1)
    as [[sd2 segments2 | sd2 err] |]; try exact I;
    rewrite IH; apply H.
Qed.

(** X1. A call of [Detect] never writes the configuration, whatever it
    returns; so [Reset] after the call gives the detector that [Reset]
    before the call gives, and on a detector that [NewDetector] has just
    built, [Detect] followed by [Reset] gives that detector back. *)
Theorem Reset_undoes_Detect
        (infer : adapter) (ortSetup : DetectorConfig -> option error)
        (sd sd' : Detector) (pcm : list F32.t)
        (r : list Segment * option error) :
  Detect infer (Some sd) pcm = Some (Some sd', r) ->
  cfg sd' = cfg sd
  /\ Reset (Some sd') = Reset (Some sd)
  /\ (forall c, NewDetector ortSetup c = (Some sd, None) ->
                Reset (Some sd') = (Some sd, None)).
Proof.
  intros H.
  assert (Hcfg : cfg sd' = cfg sd).
  { unfold Detect in H.
    destruct (len pcm <? windowSizeOf (cfg sd)); [congruence |].
    pose proof (detectLoop_cfg infer (windowSizeOf (cfg sd))
                  (minSilenceSamplesOf (cfg sd)) (speechPadSamplesOf (cfg sd))
                  pcm (S (List.length pcm)) 0 sd []) as K.
    destruct (detectLoop _ _ _ _ _ _ _ _ _) as [[sd1 s1 | sd1 e1] |];
      [| | discriminate]; injection H as <- _; exact K. }
  split; [exact Hcfg |]. split.
  - cbn. rewrite Hcfg. reflexivity.
  - intros c Hnew. cbn. rewrite Hcfg. unfold NewDetector in Hnew.
    destruct (IsValid c); [discriminate |].
    destruct (ortSetup _); [discriminate |].
    injection Hnew as <-. reflexivity.
Qed.

(** ** The probabilities of a run *)

Section Probabilities.

Variable infer : adapter.
Variables ws ms pad : Z.
Hypothesis ws_pos : 0 < ws.

(** A run over coherent counters stops at the first window on which the
    inference fails, and has counted the windows before it. *)
Lemma runWindows_probabilities (windows : list (list F32.t)) :
  forall (k : nat) (sd : Detector) (segments : list Segment),
    coherent ws sd -> room ws (List.length windows + k) sd ->
    covered sd segments ->
    let probs :=
      probabilities infer (SampleRate (cfg sd)) (state sd, ctx sd) windows in
    match runWindows infer ws ms pad windows sd segments with
    | Next sd' _ =>
        List.length probs = List.length windows
        /\ currSample sd' = currSample sd + ws * len windows
    | Return sd' err =>
        (List.length probs < List.length windows)%nat
        /\ currSample sd' = currSample sd + ws * len probs
        /\ exists e, err = errInferFailed e
    end.
Proof.
  induction windows as [| w windows IH]; intros k sd segments Hco Hroom Hcov.
  - cbn. unfold len. cbn. split; [reflexivity | lia].
  - cbn [runWindows probabilities]. cbv zeta.
    assert (Hroom1 : room ws 1 sd).
    { unfold room in *. cbn [List.length] in Hroom. lia. }
    pose proof (detectWindow_frame infer ws ms pad sd segments w) as HF.
    pose proof (detectWindow_coherent infer ws ms pad ws_pos sd segments w
                  Hco Hroom1) as HC.
    destruct (infer (SampleRate (cfg sd)) (state sd, ctx sd) w)
      as [bufs [p | e]] eqn:E.
    + pose proof (detectWindow_next infer ws ms pad sd segments w bufs p
                    ws_pos Hco Hroom1 Hcov E)
        as [_ [_ [_ [sd1 [segments1 [D [_ [Hco1 Hcov1]]]]]]]].
      rewrite D in *. destruct HF as [F1 F2]. destruct HC as [_ [C2 _]].
      cbn [fst] in F2.
      assert (Hroom' : room ws (List.length windows + k) sd1).
      { unfold room in *. cbn [List.length] in Hroom. lia. }
      specialize (IH k sd1 segments1 Hco1 Hroom' Hcov1). cbv zeta in IH.
      rewrite F1, F2 in IH.
      destruct (runWindows infer ws ms pad windows sd1 segments1).
      * destruct IH as [I1 I2]. cbn [List.length]. split; [lia |].
        rewrite I2, C2. unfold len. cbn [List.length]. lia.
      * destruct IH as [I1 [I2 I3]]. cbn [List.length]. split; [lia |].
        split; [| exact I3].
        rewrite I2, C2. unfold len. cbn [List.length]. lia.
    + rewrite (detectWindow_fails _ _ _ _ _ _ _ _ _ E).
      cbn [List.length]. split; [lia |]. split; [| eauto].
      unfold len. cbn. lia.
Qed.

End Probabilities.

Lemma detectWindows_len (c : DetectorConfig) (pcm : list F32.t) :
  len pcm <= GoInt.max_int -> windowSizeOf c <= len pcm ->
  len (detectWindows c pcm) = (len pcm - 1) / windowSizeOf c.
Proof.
  intros Hfit Hlen. pose proof (windowSizeOf_pos c) as Hws.
  rewrite detectWindows_enum by assumption.
  unfold len at 1. rewrite length_map, length_seq.
  apply Z2Nat.id. apply Z.div_pos; lia.
Qed.

(** X2. A call of [Detect] that succeeds has advanced the sample counter by
    one window size for each of the [(len(pcm) - 1) / windowSize] windows
    of the buffer. A call that fails at a window is not rolled back: the
    counter stays advanced by the windows before the failure, fewer than
    those of the buffer, although their segments are not returned. *)
Theorem Detect_consumes_windows
        (infer : adapter) (sd : Detector) (pcm : list F32.t) :
  let ws := windowSizeOf (cfg sd) in
  coherent ws sd -> triggered sd = false ->
  currSample sd + len pcm <= GoInt.max_int ->
  ws <= len pcm ->
  exists sd' segments err,
    Detect infer (Some sd) pcm = Some (Some sd', (segments, err))
    /\ (err = None ->
        currSample sd' = currSample sd + ws * ((len pcm - 1) / ws))
    /\ (err <> None ->
        segments = []
        /\ currSample sd'
           = currSample sd
             + ws * len (probabilities infer (SampleRate (cfg sd))
                                       (state sd, ctx sd)
                                       (detectWindows (cfg sd) pcm))
        /\ currSample sd' < currSample sd + ws * ((len pcm - 1) / ws)).
Proof.
  intros ws Hco Htr Hfit Hlen.
  pose proof (windowSizeOf_pos (cfg sd)) as Hws. fold ws in Hws.
  destruct (Detect_room sd pcm (proj1 Hco) Hfit) as [Hmax Hroom].
  fold ws in Hroom.
  rewrite Detect_emitted by assumption.
  replace (len pcm <? windowSizeOf (cfg sd)) with false
    by (symmetry; apply Z.ltb_ge; exact Hlen).
  unfold emitted. fold ws.
  replace (List.length (detectWindows (cfg sd) pcm))
    with (List.length (detectWindows (cfg sd) pcm) + 0)%nat in Hroom by lia.
  pose proof (runWindows_probabilities infer ws
                (minSilenceSamplesOf (cfg sd)) (speechPadSamplesOf (cfg sd))
                ltac:(lia) (detectWindows (cfg sd) pcm) 0 sd [] Hco Hroom
                ltac:(unfold covered; congruence)) as H.
  cbv zeta in H.
  pose proof (detectWindows_len (cfg sd) pcm Hmax Hlen) as Hn. fold ws in Hn.
  destruct (runWindows infer ws _ _ _ sd []) as [sd' segments | sd' err].
  - destruct H as [_ H]. do 3 eexists. split; [reflexivity |].
    split; [intros _; rewrite H, Hn; reflexivity | congruence].
  - destruct H as [H1 [H2 _]]. do 3 eexists. split; [reflexivity |].
    split; [discriminate |]. intros _. split; [reflexivity |].
    split; [exact H2 |]. rewrite H2, <- Hn. unfold len. nia.
Qed.

(** ** The shape of the returned segments *)

Section Timeline.

Variables rate ws ms pad c0 : Z.
Hypothesis ws_pos : 0 < ws.

Lemma timeline_weaken (segments : list Segment) (open : bool) (lo hi : Z) :
  timeline rate ws ms pad c0 segments open lo -> lo <= hi ->
  timeline rate ws ms pad c0 segments open hi.
Proof.
  intros H Hle. destruct H.
  - apply timeline_nil. lia.
  - eapply timeline_closed; eauto; lia.
  - eapply timeline_open; eauto; lia.
Qed.

Lemma timeline_from (segments : list Segment) (open : bool) (next : Z) :
  timeline rate ws ms pad c0 segments open next -> c0 <= next.
Proof.
  intros H. induction H; lia.
Qed.

Lemma timeline_open_inv (segments : list Segment) (next : Z) :
  timeline rate ws ms pad c0 segments true next ->
  exists before lo n,
    segments = before ++ [opened rate (n - pad)]
    /\ timeline rate ws ms pad c0 before false lo
    /\ lo <= n /\ (ws | n - c0) /\ n + ws <= next.
Proof.
  intros H. inversion H; subst. eauto 10.
Qed.

Lemma keepSegment_opened (c : DetectorConfig) (m n : Z) :
  keepSegment c m (opened rate n) = true.
Proof. reflexivity. Qed.

(** The filter of short segments keeps the shape. *)
Lemma timeline_filter (c : DetectorConfig) (m : Z)
      (segments : list Segment) (open : bool) (next : Z) :
  timeline rate ws ms pad c0 segments open next ->
  timeline rate ws ms pad c0 (filterShort c m segments) open next.
Proof.
  unfold filterShort. destruct (MinSpeechDurationMs c >? 0); [| auto].
  intros H. induction H.
  - apply timeline_nil. assumption.
  - rewrite filter_app. cbn [filter].
    destruct (keepSegment c m (closedAt rate pad n e)).
    + eapply timeline_closed; eauto.
    + rewrite app_nil_r. eapply timeline_weaken; [exact IHtimeline | lia].
  - rewrite filter_app. cbn [filter]. rewrite keepSegment_opened.
    eapply timeline_open; eauto.
Qed.

End Timeline.

Section Schedule.

Variable infer : adapter.
Variable c : DetectorConfig.
Variables ws ms pad c0 : Z.

Hypothesis ws_pos : 0 < ws.
Hypothesis pad_nonneg : 0 <= pad.

Lemma scheduled_covered n sd segments :
  scheduled c ws ms pad c0 n sd segments -> covered sd segments.
Proof.
  intros [_ [_ [_ [_ [next [H _]]]]]] Ht. rewrite Ht in H.
  destruct (timeline_open_inv _ _ _ _ _ _ _ H) as [before [lo [m [E _]]]].
  subst. destruct before; discriminate.
Qed.

Lemma scheduled_step n sd segments w :
  scheduled c ws ms pad c0 (S n) sd segments ->
  match detectWindow infer ws ms pad sd segments w with
  | Next sd' segments' => scheduled c ws ms pad c0 n sd' segments'
  | Return _ _ => True
  end.
Proof.
  intros Hsch. pose proof (scheduled_covered _ _ _ Hsch) as Hcov.
  destruct Hsch as [Hco [Hc [Hroom [Hal [next [Htl [Hnext Hcand]]]]]]].
  assert (Hroom1 : room ws 1 sd) by (unfold room; lia).
  destruct (infer (SampleRate (cfg sd)) (state sd, ctx sd) w)
    as [bufs [p | e]] eqn:E.
  2:{ rewrite (detectWindow_fails _ _ _ _ _ _ _ _ _ E). exact I. }
  pose proof (detectWindow_next infer ws ms pad sd segments w bufs p
                ws_pos Hco Hroom1 Hcov E) as N.
  pose proof (enter_cases ws pad ws_pos p (withBuffers sd bufs) segments
                (proj1 Hco) Hroom1) as X.
  cbv zeta in N, X.
  remember (fst (enter ws pad p (withBuffers sd bufs) segments)) as s.
  remember (snd (enter ws pad p (withBuffers sd bufs) segments)) as g.
  clear Heqs Heqg.
  cbn [cfg state ctx currSample triggered tempEnd withBuffers] in X.
  destruct N as [Hs [Hb [Hv [sd' [segments' [D [S [Hco' Hcov']]]]]]]].
  rewrite D.
  pose proof (silence_cases ws ms pad ws_pos p s g Hs Hb Hv)
    as [t [h [S' Y]]].
  rewrite S in S'. injection S' as <- <-.
  destruct X as [A1 [A2 [A3 [A4 A5]]]].
  destruct Y as [P1 [P2 [P3 [P4 [P5 P6]]]]].
  assert (Hal' : (ws | currSample s - c0)).
  { replace (currSample s - c0) with (currSample sd - c0 + ws) by lia.
    apply Z.divide_add_r; [exact Hal | apply Z.divide_refl]. }
  assert (Hsub : GoInt.sub (currSample sd) pad = currSample sd - pad).
  { apply sub_id. destruct Hco as [Hc0 _].
    unfold GoInt.in_range, GoInt.min_int, GoInt.max_int in *. lia. }
  assert (Hg : exists next1,
             timeline (SampleRate c) ws ms pad c0 g (triggered s) next1
             /\ next1 <= currSample s
             /\ (tempEnd s <> 0 ->
                 next1 <= tempEnd s /\ (ws | tempEnd s - c0))).
  { destruct A5 as [[G [A5 [A6 [[A7 A8] | [A7 A8]]]]] | [G [A5 [A6 A8]]]];
      subst g.
    - exists next. rewrite A6, <- A7. split; [exact Htl |].
      split; [lia | congruence].
    - exists (currSample sd + ws). rewrite A6, Hsub, Hc.
      split; [| split; [lia | congruence]].
      rewrite A7 in Htl. eapply timeline_open; eauto. lia.
    - exists next. rewrite A6, A5. split; [exact Htl |].
      split; [lia | exact Hcand]. }
  destruct Hg as [next1 [Htl1 [Hnext1 Hcand1]]].
  assert (Hcandidate : next1 <= candidateOf s /\ (ws | candidateOf s - c0)).
  { unfold candidateOf. destruct (tempEnd s =? 0) eqn:E0.
    - split; [lia | exact Hal'].
    - apply Z.eqb_neq in E0. apply Hcand1. exact E0. }
  unfold scheduled.
  split; [exact Hco' |]. split; [congruence |]. split; [lia |].
  split; [rewrite P4; exact Hal' |].
  destruct P6 as [[P6 [P7 [P8 P9]]]
                 | [P6' [P6 [P7 [[P8 [P9 [P10 P11]]]
                                | [P8 [P9 [P10 P11]]]]]]]];
    subst segments'.
  - exists next1. rewrite P7, P8, P4. auto.
  - exists next1. rewrite P9, P10, P4, <- P6. split; [exact Htl1 |].
    split; [lia |]. intros _. exact Hcandidate.
  - exists (currSample s). rewrite P9, P10, P4.
    split; [| split; [lia | congruence]].
    rewrite P6 in Htl1.
    destruct (timeline_open_inv _ _ _ _ _ _ _ Htl1)
      as [before [lo [m [Eg [Hbefore [Hlo [Hm Hmn]]]]]]].
    subst g. rewrite setLastEnd_snoc.
    rewrite add_id
      by (destruct Hs as [Hc0 _];
          unfold GoInt.in_range, GoInt.min_int, GoInt.max_int in *; lia).
    replace (SampleRate (cfg s)) with (SampleRate c) by congruence.
    change (mkSegment (SpeechStartAt (opened (SampleRate c) (m - pad)))
                      (seconds (SampleRate c) (candidateOf s + pad)))
      with (closedAt (SampleRate c) pad m (candidateOf s)).
    destruct Hcandidate as [Hc1 Hc2].
    apply (timeline_closed _ _ _ _ _ before lo m (candidateOf s)
                           (currSample s));
      try assumption; lia.
Qed.

Lemma scheduled_run windows k sd segments :
  scheduled c ws ms pad c0 (List.length windows + k) sd segments ->
  match runWindows infer ws ms pad windows sd segments with
  | Next sd' segments' => scheduled c ws ms pad c0 k sd' segments'
  | Return _ _ => True
  end.
Proof.
  apply (runWindows_invariant infer ws ms pad (scheduled c ws ms pad c0)
                               (fun _ _ => True)).
  intros n sd0 segments0 w0. apply scheduled_step.
Qed.

End Schedule.

(** The segments that the window loop of a call emits, before the
    filter, when the call is entered between two segments. *)
Lemma emitted_timeline (infer : adapter) (sd : Detector) (pcm : list F32.t) :
  let ws := windowSizeOf (cfg sd) in
  let ms := minSilenceSamplesOf (cfg sd) in
  let pad := speechPadSamplesOf (cfg sd) in
  wellPadded (cfg sd) ->
  coherent ws sd -> triggered sd = false ->
  currSample sd + len pcm + pad <= GoInt.max_int ->
  match emitted infer sd pcm with
  | Next sd' segments =>
      cfg sd' = cfg sd
      /\ exists next,
          timeline (SampleRate (cfg sd)) ws ms pad (currSample sd)
                   segments (triggered sd') next
          /\ next <= currSample sd'
  | Return _ _ => True
  end.
Proof.
  intros ws ms pad Hpad Hco Htr Hfit.
  pose proof (windowSizeOf_pos (cfg sd)) as Hws. fold ws in Hws.
  destruct (speechPadSamplesOf_exact (cfg sd) Hpad) as [_ [Hp0 _]].
  fold pad in Hp0.
  assert (Hlen : len pcm <= GoInt.max_int) by (destruct Hco; lia).
  pose proof (detectWindows_room (cfg sd) pcm Hlen) as Hroom.
  fold ws in Hroom. unfold emitted. fold ws ms pad.
  pose proof (scheduled_run infer (cfg sd) ws ms pad (currSample sd)
                ltac:(lia) Hp0 (detectWindows (cfg sd) pcm) 0 sd []) as H.
  destruct (runWindows infer ws ms pad _ sd []) as [sd' segments |];
    [| exact I].
  destruct H as [_ [Hc [_ [_ [next [H1 [H2 _]]]]]]]; [| eauto].
  unfold scheduled. split; [exact Hco |]. split; [reflexivity |].
  split; [lia |]. split; [rewrite Z.sub_diag; apply Z.divide_0_r |].
  exists (currSample sd). rewrite Htr.
  split; [apply timeline_nil; lia |]. split; [lia |].
  destruct Hco as [_ [_ Hp]]. intros Hne. specialize (Hp Hne). congruence.
Qed.


(** ** The sign of the time stamps *)

Lemma seconds_positive (sampleRate n : Z) :
  sampleRate = 8000 \/ sampleRate = 16000 ->
  0 < n -> F64.ltb F64.zero (seconds sampleRate n) = true.
Proof.
  intros Hsr Hn.
  destruct (seconds_sign sampleRate n Hsr ltac:(lia)) as [H | [m [e H]]];
    rewrite H; replace (n <? 0) with false by (symmetry; apply Z.ltb_ge; lia);
    reflexivity.
Qed.

Lemma startAt_nonNegative (sampleRate n : Z) :
  sampleRate = 8000 \/ sampleRate = 16000 ->
  nonNegative (startAt sampleRate n).
Proof.
  intros Hsr. unfold nonNegative.
  destruct (Z.lt_trichotomy n 0) as [Hn | [Hn | Hn]].
  - left. rewrite startAt_clamped by assumption. reflexivity.
  - left. subst n. destruct Hsr; subst sampleRate; vm_compute; reflexivity.
  - right. rewrite startAt_unclamped by (assumption || lia).
    apply seconds_positive; assumption.
Qed.

Lemma timeline_stamps (rate ws ms pad c0 : Z) (segments : list Segment)
      (open : bool) (next : Z) :
  rate = 8000 \/ rate = 16000 -> 0 < ws -> 0 <= pad -> 0 <= c0 ->
  timeline rate ws ms pad c0 segments open next ->
  Forall (fun s => nonNegative (SpeechStartAt s)
                   /\ nonNegative (SpeechEndAt s)) segments
  /\ (forall before s, segments = before ++ [s] ->
        Forall (fun x => F64.ltb F64.zero (SpeechEndAt x) = true) before
        /\ (if open then SpeechEndAt s = F64.zero
            else F64.ltb F64.zero (SpeechEndAt s) = true)).
Proof.
  intros Hsr Hws Hpad Hc0 H. induction H as
      [next Hn
      | segments lo n e next H [IH1 IH2] Hlo Hn He Hae Hnext Hms
      | segments lo n next H [IH1 IH2] Hlo Hn Hnext].
  - split; [constructor |]. intros before s E. destruct before; discriminate.
  - pose proof (timeline_from rate ws ms pad c0 Hws _ _ _ H) as Hfrom.
    assert (Hend : F64.ltb F64.zero (seconds rate (e + pad)) = true)
      by (apply seconds_positive; [assumption | lia]).
    assert (Hall : Forall (fun x => F64.ltb F64.zero (SpeechEndAt x) = true)
                          segments).
    { destruct segments as [| s0 rest]; [constructor |].
      destruct (segments_snoc (s0 :: rest)) as [b [s E]]; [discriminate |].
      destruct (IH2 b s E) as [K1 K2]. rewrite E.
      apply Forall_app. split; [exact K1 | constructor; [exact K2 | constructor]]. }
    split.
    + apply Forall_app. split; [exact IH1 |]. constructor; [| constructor].
      cbn. split; [apply startAt_nonNegative; assumption |].
      right. exact Hend.
    + intros before s E. apply app_inj_tail in E. destruct E as [<- <-].
      split; [exact Hall | exact Hend].
  - assert (Hall : Forall (fun x => F64.ltb F64.zero (SpeechEndAt x) = true)
                          segments).
    { destruct segments as [| s0 rest]; [constructor |].
      destruct (segments_snoc (s0 :: rest)) as [b [s E]]; [discriminate |].
      destruct (IH2 b s E) as [K1 K2]. rewrite E.
      apply Forall_app. split; [exact K1 | constructor; [exact K2 | constructor]]. }
    split.
    + apply Forall_app. split; [exact IH1 |]. constructor; [| constructor].
      cbn. split; [apply startAt_nonNegative; assumption |].
      left. reflexivity.
    + intros before s E. apply app_inj_tail in E. destruct E as [<- <-].
      split; [exact Hall | reflexivity].
Qed.

(** X4. No time stamp that [Detect] returns is negative or not a number: in
    a call entered between two segments every [SpeechStartAt] is zero (a
    start that the padding moved before the origin) or positive, and
    every [SpeechEndAt] is the zero of an open segment or positive; all
    segments before the last one have a positive [SpeechEndAt], and the
    last one has it too unless the detector is left triggered. *)
Theorem Detect_stamps_not_negative
        (infer : adapter) (sd sd' : Detector) (pcm : list F32.t)
        (segments : list Segment) :
  let ws := windowSizeOf (cfg sd) in
  let pad := speechPadSamplesOf (cfg sd) in
  wellPadded (cfg sd) ->
  coherent ws sd -> triggered sd = false ->
  currSample sd + len pcm + pad <= GoInt.max_int ->
  Detect infer (Some sd) pcm = Some (Some sd', (segments, None)) ->
  Forall (fun s => nonNegative (SpeechStartAt s)
                   /\ nonNegative (SpeechEndAt s)) segments
  /\ (forall before s, segments = before ++ [s] ->
        Forall (fun x => F64.ltb F64.zero (SpeechEndAt x) = true) before
        /\ (if triggered sd' then SpeechEndAt s = F64.zero
            else F64.ltb F64.zero (SpeechEndAt s) = true)).
Proof.
  intros ws pad Hpad Hco Htr Hfit HD.
  destruct (speechPadSamplesOf_exact (cfg sd) Hpad) as [_ [Hp0 _]].
  fold pad in Hp0.
  pose proof (windowSizeOf_pos (cfg sd)) as Hws. fold ws in Hws.
  assert (Hlen : len pcm <= GoInt.max_int) by (destruct Hco; lia).
  rewrite Detect_emitted in HD by assumption.
  destruct (len pcm <? windowSizeOf (cfg sd)); [discriminate |].
  pose proof (emitted_timeline infer sd pcm Hpad Hco Htr Hfit) as H.
  cbv zeta in H. fold ws pad in H.
  destruct (emitted infer sd pcm) as [sd1 segments1 | sd1 err];
    [| discriminate].
  injection HD as <- <-. destruct H as [_ [next [H1 _]]].
  apply (timeline_stamps (SampleRate (cfg sd)) ws
                         (minSilenceSamplesOf (cfg sd)) pad (currSample sd)
                         _ _ next);
    try lia; [apply Hpad | apply Hco |].
  apply timeline_filter; [lia | exact H1].
Qed.

(** ** Runs without speech *)

Lemma detectWindow_quiet (infer : adapter) (ws ms pad : Z) (sd : Detector)
      (segments : list Segment) (w : list F32.t) (bufs : buffers) (p : F32.t) :
  infer (SampleRate (cfg sd)) (state sd, ctx sd) w = (bufs, inl p) ->
  F32.geb p (Threshold (cfg sd)) = false ->
  triggered sd = false ->
  detectWindow infer ws ms pad sd segments w
  = Next (advance ws (withBuffers sd bufs)) segments.
Proof.
  intros E Hp Htr. unfold detectWindow. rewrite E.
  unfold trigger, rearm, silence, advance. cbn. rewrite Hp. cbn.
  rewrite Hp. cbn. rewrite Htr, andb_false_r. reflexivity.
Qed.

Lemma runWindows_quiet (infer : adapter) (ws ms pad : Z)
      (windows : list (list F32.t)) :
  forall sd : Detector,
    triggered sd = false ->
    Forall (fun p => F32.geb p (Threshold (cfg sd)) = false)
           (probabilities infer (SampleRate (cfg sd)) (state sd, ctx sd)
                          windows) ->
    match runWindows infer ws ms pad windows sd [] with
    | Next sd' segments =>
        segments = [] /\ triggered sd' = false /\ tempEnd sd' = tempEnd sd
    | Return sd' err =>
        triggered sd' = false /\ tempEnd sd' = tempEnd sd
        /\ exists e, err = errInferFailed e
    end.
Proof.
  induction windows as [| w windows IH]; intros sd Htr Hall; [cbn; auto |].
  cbn [runWindows probabilities] in *.
  destruct (infer (SampleRate (cfg sd)) (state sd, ctx sd) w)
    as [bufs [p | e]] eqn:E.
  - apply Forall_cons_iff in Hall. destruct Hall as [Hp Hall].
    rewrite (detectWindow_quiet _ _ _ _ _ _ _ _ _ E Hp Htr).
    specialize (IH (advance ws (withBuffers sd bufs))).
    cbn [advance cfg state ctx withBuffers withCurrSample tempEnd triggered]
      in IH.
    apply IH; [exact Htr |].
    replace (fst bufs, snd bufs) with bufs by (destruct bufs; reflexivity).
    exact Hall.
  - rewrite (detectWindow_fails _ _ _ _ _ _ _ _ _ E). cbn. eauto.
Qed.

(** X5. Without a window whose probability reaches [Threshold] there is no
    segment: a call that is entered between two segments and whose
    windows all stay below the threshold returns no segment and leaves
    the detector between two segments. *)
Theorem no_speech_no_segments
        (infer : adapter) (sd : Detector) (pcm : list F32.t) :
  len pcm <= GoInt.max_int ->
  triggered sd = false ->
  Forall (fun p => F32.geb p (Threshold (cfg sd)) = false)
         (probabilities infer (SampleRate (cfg sd)) (state sd, ctx sd)
                        (detectWindows (cfg sd) pcm)) ->
  exists sd' err,
    Detect infer (Some sd) pcm = Some (Some sd', ([], err))
    /\ triggered sd' = false /\ tempEnd sd' = tempEnd sd.
Proof.
  intros Hfit Htr Hall. rewrite Detect_emitted by assumption.
  destruct (len pcm <? windowSizeOf (cfg sd)); [eauto |].
  pose proof (runWindows_quiet infer (windowSizeOf (cfg sd))
                (minSilenceSamplesOf (cfg sd)) (speechPadSamplesOf (cfg sd))
                (detectWindows (cfg sd) pcm) sd Htr Hall) as H.
  unfold emitted.
  destruct (runWindows infer _ _ _ _ sd []) as [sd' segments | sd' err].
  - destruct H as [-> [H1 H2]].
    exists sd', None. split; [| auto].
    unfold filterShort. destruct (_ >? 0); reflexivity.
  - destruct H as [H1 [H2 _]]. eauto.
Qed.

(** X6. A threshold that is not a number, which [IsValid] lets through, is
    never reached: such a detector finds no speech in any buffer. *)
Theorem nan_threshold_detects_nothing
        (infer : adapter) (sd : Detector) (pcm : list F32.t) :
  len pcm <= GoInt.max_int ->
  triggered sd = false ->
  Threshold (cfg sd) = F32.nan ->
  exists sd' err,
    Detect infer (Some sd) pcm = Some (Some sd', ([], err))
    /\ triggered sd' = false.
Proof.
  intros Hfit Htr Hnan. rewrite Detect_emitted by assumption.
  destruct (len pcm <? windowSizeOf (cfg sd)); [eauto |].
  pose proof (runWindows_quiet infer (windowSizeOf (cfg sd))
                (minSilenceSamplesOf (cfg sd)) (speechPadSamplesOf (cfg sd))
                (detectWindows (cfg sd) pcm) sd Htr) as H.
  unfold emitted.
  destruct (runWindows infer _ _ _ _ sd []) as [sd' segments | sd' err].
  - destruct H as [-> [H1 H2]].
    + apply Forall_forall. intros p _. rewrite Hnan.
      destruct p as [[] | [] | | [] m e]; reflexivity.
    + exists sd', None. split; [| auto].
      unfold filterShort. destruct (_ >? 0); reflexivity.
  - destruct H as [H1 [H2 _]]; [| eauto].
    apply Forall_forall. intros p _. rewrite Hnan.
    destruct p as [[] | [] | | [] m e]; reflexivity.
Qed.

(** ** One window on coherent counters *)

(** What the body of the loop does on a window of probability [p], read
    without the wrap-around of the counters. *)
Lemma detectWindow_cases (infer : adapter) (ws ms pad : Z) (sd : Detector)
      (segments : list Segment) (w : list F32.t) (bufs : buffers) (p : F32.t) :
  0 < ws -> 0 <= pad ->
  coherent ws sd -> currSample sd + ws + pad <= GoInt.max_int ->
  covered sd segments ->
  infer (SampleRate (cfg sd)) (state sd, ctx sd) w = (bufs, inl p) ->
  exists sd' segments',
    detectWindow infer ws ms pad sd segments w = Next sd' segments'
    /\ coherent ws sd' /\ covered sd' segments'
    /\ cfg sd' = cfg sd /\ currSample sd' = currSample sd + ws
    /\ (state sd', ctx sd') = bufs
    /\ let speech := isSpeech (cfg sd) p in
       let segments1 :=
         if speech && negb (triggered sd)
         then segments ++ [opened (SampleRate (cfg sd)) (currSample sd - pad)]
         else segments in
       let triggered1 := speech || triggered sd in
       let tempEnd1 := if speech then 0 else tempEnd sd in
       let candidate :=
         if tempEnd1 =? 0 then currSample sd + ws else tempEnd1 in
       if isSilence (cfg sd) p && triggered1 then
         if currSample sd + ws - candidate <? ms
         then triggered sd' = true /\ tempEnd sd' = candidate
              /\ segments' = segments1
         else triggered sd' = false /\ tempEnd sd' = 0
              /\ segments'
                 = setLastEnd segments1
                              (seconds (SampleRate (cfg sd)) (candidate + pad))
       else triggered sd' = triggered1 /\ tempEnd sd' = tempEnd1
            /\ segments' = segments1.
Proof.
  intros ws_pos pad_nonneg Hco Hroom Hcov E.
  assert (Hroom1 : room ws 1 sd) by (unfold room; lia).
  pose proof (detectWindow_next infer ws ms pad sd segments w bufs p
                ws_pos Hco Hroom1 Hcov E) as N.
  pose proof (enter_cases ws pad ws_pos p (withBuffers sd bufs) segments
                (proj1 Hco) Hroom1) as X.
  cbv zeta in N, X.
  remember (fst (enter ws pad p (withBuffers sd bufs) segments)) as s.
  remember (snd (enter ws pad p (withBuffers sd bufs) segments)) as g.
  clear Heqs Heqg.
  cbn [cfg state ctx currSample triggered tempEnd withBuffers] in X.
  destruct N as [Hs [Hb [Hv [sd' [segments' [D [S [Hco' Hcov']]]]]]]].
  pose proof (silence_cases ws ms pad ws_pos p s g Hs Hb Hv)
    as [t [h [S' Y]]].
  rewrite S in S'. injection S' as <- <-.
  destruct X as [A1 [A2 [A3 [A4 A5]]]].
  destruct Y as [P1 [P2 [P3 [P4 [P5 P6]]]]].
  assert (Hsub : GoInt.sub (currSample sd) pad = currSample sd - pad).
  { apply sub_id. destruct Hco as [Hc0 _].
    unfold GoInt.in_range, GoInt.min_int, GoInt.max_int in *. lia. }
  exists sd', segments'. split; [exact D |].
  split; [exact Hco' |]. split; [exact Hcov' |].
  split; [congruence |]. split; [lia |].
  split; [rewrite P2, P3, A2, A3; destruct bufs; reflexivity |].
  assert (Hg : g = (if F32.geb p (Threshold (cfg sd)) && negb (triggered sd)
                    then segments
                         ++ [opened (SampleRate (cfg sd)) (currSample sd - pad)]
                    else segments)
               /\ triggered s = F32.geb p (Threshold (cfg sd)) || triggered sd
               /\ tempEnd s
                  = (if F32.geb p (Threshold (cfg sd)) then 0 else tempEnd sd)).
  { destruct A5 as [[G [A5 [A6 [[A7 A8] | [A7 A8]]]]] | [G [A5 [A6 A8]]]];
      rewrite G, ?A7; cbn [andb orb negb]; rewrite <- ?Hsub; auto. }
  destruct Hg as [Hg [Ht He]]. clear A5.
  cbv zeta. unfold isSpeech, isSilence. rewrite <- Hg, <- Ht, <- He.
  rewrite A1 in P6. unfold candidateOf in P6. rewrite A4 in P6.
  assert (Hadd : forall x, ws <= x <= currSample sd + ws ->
                           GoInt.add x pad = x + pad).
  { intros x Hx. apply add_id. destruct Hco as [Hc0 _].
    unfold GoInt.in_range, GoInt.min_int, GoInt.max_int in *. lia. }
  destruct P6 as [[P6 [P7 [P8 P9]]]
                 | [P6' [P6 [P7 [[P8 [P9 [P10 P11]]]
                                | [P8 [P9 [P10 P11]]]]]]]].
  - rewrite P6. auto.
  - rewrite P6', P6. cbn [andb].
    replace (_ <? ms) with true by (symmetry; apply Z.ltb_lt; lia). auto.
  - rewrite P6', P6. cbn [andb].
    replace (_ <? ms) with false by (symmetry; apply Z.ltb_ge; lia).
    rewrite Hadd in P11 by lia. auto.
Qed.

(** ** Runs of quiet windows, speech and silence *)

Lemma len_cons {A : Type} (x : A) (l : list A) : len (x :: l) = len l + 1.
Proof. unfold len. cbn [List.length]. lia. Qed.

Lemma len_app {A : Type} (l1 l2 : list A) : len (l1 ++ l2) = len l1 + len l2.
Proof. unfold len. rewrite length_app. lia. Qed.

Lemma len_nonneg {A : Type} (l : list A) : 0 <= len l.
Proof. unfold len. lia. Qed.

Section Phases.

Variable infer : adapter.
Variable c : DetectorConfig.
Variables ws ms pad : Z.
Hypothesis ws_pos : 0 < ws.
Hypothesis pad_nonneg : 0 <= pad.

Lemma window_step (sd : Detector) (segments : list Segment)
      (windows : list (list F32.t)) (p : F32.t) (ps : list F32.t) :
  ready c ws pad sd segments windows ->
  probabilities infer (SampleRate c) (state sd, ctx sd) windows = p :: ps ->
  exists w rest sd' segments',
    windows = w :: rest
    /\ detectWindow infer ws ms pad sd segments w = Next sd' segments'
    /\ ready c ws pad sd' segments' rest
    /\ currSample sd' = currSample sd + ws
    /\ probabilities infer (SampleRate c) (state sd', ctx sd') rest = ps
    /\ let segments1 :=
         if isSpeech c p && negb (triggered sd)
         then segments ++ [opened (SampleRate c) (currSample sd - pad)]
         else segments in
       let triggered1 := isSpeech c p || triggered sd in
       let tempEnd1 := if isSpeech c p then 0 else tempEnd sd in
       let candidate :=
         if tempEnd1 =? 0 then currSample sd + ws else tempEnd1 in
       if isSilence c p && triggered1 then
         if currSample sd + ws - candidate <? ms
         then triggered sd' = true /\ tempEnd sd' = candidate
              /\ segments' = segments1
         else triggered sd' = false /\ tempEnd sd' = 0
              /\ segments'
                 = setLastEnd segments1
                              (seconds (SampleRate c) (candidate + pad))
       else triggered sd' = triggered1 /\ tempEnd sd' = tempEnd1
            /\ segments' = segments1.
Proof.
  intros [Hco [Hc [Hcov Hroom]]] Hp.
  destruct windows as [| w rest]; [discriminate |].
  cbn [probabilities] in Hp. rewrite len_cons in Hroom.
  pose proof (len_nonneg rest) as Hrest.
  destruct (infer (SampleRate c) (state sd, ctx sd) w)
    as [bufs [p' | e]] eqn:E; [| discriminate].
  injection Hp as -> Hps. rewrite <- Hc in E.
  destruct (detectWindow_cases infer ws ms pad sd segments w bufs p
              ws_pos pad_nonneg Hco ltac:(nia) Hcov E)
    as [sd' [segments' [D [Hco' [Hcov' [Hc' [Hcs [Hb H]]]]]]]].
  exists w, rest, sd', segments'. split; [reflexivity |].
  split; [exact D |]. split.
  { unfold ready. split; [exact Hco' |]. split; [congruence |].
    split; [exact Hcov' | nia]. }
  split; [exact Hcs |]. split; [rewrite Hb; exact Hps |].
  rewrite Hc in H. exact H.
Qed.

Lemma run_quiet_tail (ps : list F32.t) :
  forall windows sd segments,
    ready c ws pad sd segments windows ->
    probabilities infer (SampleRate c) (state sd, ctx sd) windows = ps ->
    List.length ps = List.length windows ->
    Forall (fun p => isSpeech c p = false) ps ->
    triggered sd = false ->
    exists sd',
      runWindows infer ws ms pad windows sd segments = Next sd' segments
      /\ triggered sd' = false /\ cfg sd' = c.
Proof.
  induction ps as [| p ps IH];
    intros windows sd segments Hr Hp Hlen Hall Htr.
  - destruct windows; [| discriminate]. cbn. exists sd.
    split; [reflexivity |]. split; [exact Htr | apply Hr].
  - destruct (window_step sd segments windows p ps Hr Hp)
      as [w [rest [sd1 [segments1 [-> [D [Hr1 [Hcs [Hps H]]]]]]]]].
    apply Forall_cons_iff in Hall. destruct Hall as [Hq Hall].
    cbv zeta in H. rewrite Hq, Htr in H. cbn [andb orb negb] in H.
    rewrite andb_false_r in H. destruct H as [H1 [H2 H3]]. subst segments1.
    cbn [runWindows]. rewrite D.
    apply (IH rest sd1 segments Hr1 Hps); auto.
Qed.

Lemma run_silent (ps : list F32.t) :
  forall windows sd segments,
    ready c ws pad sd segments windows ->
    probabilities infer (SampleRate c) (state sd, ctx sd) windows = ps ->
    List.length ps = List.length windows ->
    ps <> [] ->
    Forall (fun p => isSpeech c p = false /\ isSilence c p = true) ps ->
    triggered sd = true ->
    let candidate :=
      if tempEnd sd =? 0 then currSample sd + ws else tempEnd sd in
    exists sd',
      cfg sd' = c
      /\ if ms <=? currSample sd + ws * len ps - candidate
         then runWindows infer ws ms pad windows sd segments
              = Next sd' (setLastEnd segments
                                     (seconds (SampleRate c) (candidate + pad)))
              /\ triggered sd' = false
         else runWindows infer ws ms pad windows sd segments
              = Next sd' segments
              /\ triggered sd' = true /\ tempEnd sd' = candidate.
Proof.
  induction ps as [| p ps IH];
    intros windows sd segments Hr Hp Hlen Hne Hall Htr candidate;
    [congruence |].
  destruct (window_step sd segments windows p ps Hr Hp)
    as [w [rest [sd1 [segments1 [-> [D [Hr1 [Hcs [Hps H]]]]]]]]].
  apply Forall_cons_iff in Hall. destruct Hall as [[Hq Hs] Hall].
  cbv zeta in H. rewrite Hq, Hs, Htr in H. cbn [andb orb negb] in H.
  fold candidate in H. cbn [runWindows]. rewrite D. rewrite len_cons.
  pose proof (len_nonneg ps) as Hps0.
  assert (Hcand : 0 < candidate).
  { unfold candidate. destruct Hr as [[Hc0 [Ht _]] _].
    destruct (tempEnd sd =? 0) eqn:E0; [lia |].
    apply Z.eqb_neq in E0. lia. }
  destruct (currSample sd + ws - candidate <? ms) eqn:Ems;
    destruct H as [H1 [H2 H3]]; subst segments1.
  - apply Z.ltb_lt in Ems. destruct ps as [| p' ps'].
    + destruct rest; [| discriminate]. cbn [runWindows].
      exists sd1. split; [apply Hr1 |].
      replace (ms <=? _) with false
        by (symmetry; apply Z.leb_gt; unfold len; cbn; lia).
      auto.
    + specialize (IH rest sd1 segments Hr1 Hps ltac:(cbn in *; lia)
                     ltac:(discriminate) Hall H1).
      cbv zeta in IH. rewrite H2 in IH.
      replace (candidate =? 0) with false in IH
        by (symmetry; apply Z.eqb_neq; lia).
      rewrite Hcs in IH.
      replace (currSample sd + ws * (len (p' :: ps') + 1) - candidate)
        with (currSample sd + ws + ws * len (p' :: ps') - candidate) by lia.
      exact IH.
  - apply Z.ltb_ge in Ems.
    assert (Hquiet : Forall (fun p => isSpeech c p = false) ps).
    { eapply Forall_impl; [| exact Hall]. intros a [Ha _]. exact Ha. }
    destruct (run_quiet_tail ps rest sd1 _ Hr1 Hps
                ltac:(cbn in *; lia) Hquiet H1) as [sd2 [R [T C]]].
    exists sd2. split; [exact C |].
    replace (ms <=? _) with true by (symmetry; apply Z.leb_le; nia).
    auto.
Qed.

Lemma run_speech (s : list F32.t) :
  forall windows sd segments z,
    ready c ws pad sd segments windows ->
    probabilities infer (SampleRate c) (state sd, ctx sd) windows = s ++ z ->
    List.length (s ++ z) = List.length windows ->
    Forall (fun p => isSilence c p = false) s ->
    Forall (fun p => isSpeech c p = false /\ isSilence c p = true) z ->
    triggered sd = true -> tempEnd sd = 0 ->
    exists sd',
      cfg sd' = c
      /\ if (0 <? len z) && (ms <=? ws * (len z - 1))
         then runWindows infer ws ms pad windows sd segments
              = Next sd' (setLastEnd
                            segments
                            (seconds (SampleRate c)
                                     (currSample sd + ws * (len s + 1) + pad)))
              /\ triggered sd' = false
         else runWindows infer ws ms pad windows sd segments
              = Next sd' segments
              /\ triggered sd' = true.
Proof.
  induction s as [| p s IH];
    intros windows sd segments z Hr Hp Hlen Hs Hz Htr Hte.
  - cbn [app] in Hp, Hlen. destruct z as [| p z].
    + destruct windows; [| discriminate]. exists sd. split; [apply Hr |].
      cbn. auto.
    + pose proof (run_silent (p :: z) windows sd segments Hr Hp Hlen
                    ltac:(discriminate) Hz Htr) as H.
      cbv zeta in H. rewrite Hte in H. cbn [Z.eqb] in H.
      destruct H as [sd' [C H]]. exists sd'. split; [exact C |].
      pose proof (len_nonneg z) as Hz0.
      replace (0 <? len (p :: z)) with true
        by (symmetry; apply Z.ltb_lt; rewrite len_cons; lia).
      cbn [andb].
      replace (currSample sd + ws * len (p :: z) - (currSample sd + ws))
        with (ws * (len (p :: z) - 1)) in H by lia.
      replace (currSample sd + ws * (len (@nil F32.t) + 1) + pad)
        with (currSample sd + ws + pad) by (unfold len; cbn; lia).
      destruct (ms <=? ws * (len (p :: z) - 1)).
      * exact H.
      * destruct H as [H1 [H2 _]]. auto.
  - cbn [app] in Hp, Hlen.
    destruct (window_step sd segments windows p (s ++ z) Hr Hp)
      as [w [rest [sd1 [segments1 [-> [D [Hr1 [Hcs [Hps H]]]]]]]]].
    apply Forall_cons_iff in Hs. destruct Hs as [Hsl Hs].
    cbv zeta in H. rewrite Hsl, Htr, Hte in H.
    rewrite orb_true_r, andb_false_r in H. cbn [andb] in H.
    assert (H1 : triggered sd1 = true) by apply H.
    assert (H2 : tempEnd sd1 = 0)
      by (destruct H as [_ [H _]]; destruct (isSpeech c p); exact H).
    assert (H3 : segments1 = segments) by apply H.
    subst segments1.
    cbn [runWindows]. rewrite D.
    specialize (IH rest sd1 segments z Hr1 Hps ltac:(cbn in *; lia)
                   Hs Hz H1 H2).
    destruct IH as [sd' [C IH]]. exists sd'. split; [exact C |].
    rewrite Hcs in IH. rewrite len_cons.
    replace (currSample sd + ws * (len s + 1 + 1) + pad)
      with (currSample sd + ws + ws * (len s + 1) + pad) by lia.
    exact IH.
Qed.

Lemma run_pattern (q : list F32.t) :
  forall windows sd p0 s z,
    ready c ws pad sd [] windows ->
    probabilities infer (SampleRate c) (state sd, ctx sd) windows
    = q ++ p0 :: s ++ z ->
    List.length (q ++ p0 :: s ++ z) = List.length windows ->
    Forall (fun p => isSpeech c p = false) q ->
    isSpeech c p0 = true ->
    Forall (fun p => isSilence c p = false) (p0 :: s) ->
    Forall (fun p => isSpeech c p = false /\ isSilence c p = true) z ->
    triggered sd = false ->
    exists sd',
      cfg sd' = c
      /\ if (0 <? len z) && (ms <=? ws * (len z - 1))
         then runWindows infer ws ms pad windows sd []
              = Next sd' [closedAt (SampleRate c) pad
                                   (currSample sd + ws * len q)
                                   (currSample sd
                                    + ws * (len q + len (p0 :: s) + 1))]
              /\ triggered sd' = false
         else runWindows infer ws ms pad windows sd []
              = Next sd' [opened (SampleRate c)
                                 (currSample sd + ws * len q - pad)]
              /\ triggered sd' = true.
Proof.
  induction q as [| p q IH];
    intros windows sd p0 s z Hr Hp Hlen Hq Hp0 Hs Hz Htr.
  - cbn [app] in Hp, Hlen.
    destruct (window_step sd [] windows p0 (s ++ z) Hr Hp)
      as [w [rest [sd1 [segments1 [-> [D [Hr1 [Hcs [Hps H]]]]]]]]].
    apply Forall_cons_iff in Hs. destruct Hs as [Hp2 Hs].
    cbv zeta in H. rewrite Hp0, Hp2, Htr in H. cbn [andb orb negb app] in H.
    destruct H as [H1 [H2 H3]]. subst segments1.
    cbn [runWindows]. rewrite D.
    destruct (run_speech s rest sd1 _ z Hr1 Hps ltac:(cbn in *; lia)
                Hs Hz H1 H2) as [sd' [C H]].
    exists sd'. split; [exact C |]. rewrite Hcs in H.
    replace (currSample sd + ws * len (@nil F32.t)) with (currSample sd)
      by (unfold len; cbn; lia).
    destruct ((0 <? len z) && (ms <=? ws * (len z - 1))).
    + destruct H as [H Ht]. split; [| exact Ht]. rewrite H.
      cbn [setLastEnd rev app SpeechStartAt opened]. unfold closedAt.
      do 4 f_equal. rewrite len_cons. unfold len. cbn [List.length]. lia.
    + exact H.
  - cbn [app] in Hp, Hlen.
    destruct (window_step sd [] windows p (q ++ p0 :: s ++ z) Hr Hp)
      as [w [rest [sd1 [segments1 [-> [D [Hr1 [Hcs [Hps H]]]]]]]]].
    apply Forall_cons_iff in Hq. destruct Hq as [Hp1 Hq].
    cbv zeta in H. rewrite Hp1, Htr in H. cbn [andb orb negb] in H.
    rewrite andb_false_r in H. destruct H as [H1 [H2 H3]]. subst segments1.
    cbn [runWindows]. rewrite D.
    specialize (IH rest sd1 p0 s z Hr1 Hps ltac:(cbn in *; lia)
                   Hq Hp0 Hs Hz H1).
    destruct IH as [sd' [C IH]]. exists sd'. split; [exact C |].
    rewrite Hcs in IH. rewrite len_cons.
    replace (currSample sd + ws * (len q + 1))
      with (currSample sd + ws + ws * len q) by lia.
    replace (currSample sd + ws * (len q + 1 + len (p0 :: s) + 1))
      with (currSample sd + ws + ws * (len q + len (p0 :: s) + 1)) by lia.
    exact IH.
Qed.

End Phases.

Lemma detectWindows_ready (sd : Detector) (pcm : list F32.t) :
  wellPadded (cfg sd) ->
  coherent (windowSizeOf (cfg sd)) sd -> triggered sd = false ->
  currSample sd + len pcm + speechPadSamplesOf (cfg sd) <= GoInt.max_int ->
  0 <= speechPadSamplesOf (cfg sd)
  /\ len pcm <= GoInt.max_int
  /\ ready (cfg sd) (windowSizeOf (cfg sd)) (speechPadSamplesOf (cfg sd))
           sd [] (detectWindows (cfg sd) pcm).
Proof.
  intros Hpad Hco Htr Hfit.
  destruct (speechPadSamplesOf_exact (cfg sd) Hpad) as [_ [Hp0 _]].
  assert (Hlen : len pcm <= GoInt.max_int) by (destruct Hco; lia).
  pose proof (detectWindows_room (cfg sd) pcm Hlen) as Hroom.
  split; [exact Hp0 |]. split; [exact Hlen |].
  unfold ready. split; [exact Hco |]. split; [reflexivity |].
  split; [unfold covered; congruence |]. unfold len at 1. lia.
Qed.

(** X7. A pause that lasts closes the segment, and the end is stamped at the
    end of the first window of the pause. Take a call entered between
    two segments whose windows are, in this order: windows below the
    threshold; a window that reaches the threshold, followed by windows
    that are not below the negative threshold; and silence-confirming
    windows to the end of the buffer, of which those after the first make
    up [minSilenceSamples]. Then [Detect] finds the one segment that
    runs from the beginning of the window that reached the threshold to
    the end of the first silence-confirming window, both widened by the
    padding, and returns it if the filter of short segments keeps it. *)
Theorem pause_closes_segment
        (infer : adapter) (sd : Detector) (pcm : list F32.t)
        (q : list F32.t) (p0 : F32.t) (s z : list F32.t) :
  let c := cfg sd in
  let ws := windowSizeOf c in
  let ms := minSilenceSamplesOf c in
  let pad := speechPadSamplesOf c in
  wellPadded c ->
  coherent ws sd -> triggered sd = false ->
  currSample sd + len pcm + pad <= GoInt.max_int ->
  probabilities infer (SampleRate c) (state sd, ctx sd) (detectWindows c pcm)
  = q ++ p0 :: s ++ z ->
  List.length (q ++ p0 :: s ++ z) = List.length (detectWindows c pcm) ->
  Forall (fun p => isSpeech c p = false) q ->
  isSpeech c p0 = true ->
  Forall (fun p => isSilence c p = false) (p0 :: s) ->
  z <> [] ->
  Forall (fun p => isSpeech c p = false /\ isSilence c p = true) z ->
  ms <= ws * (len z - 1) ->
  exists sd',
    Detect infer (Some sd) pcm
    = Some (Some sd',
            (filterShort c (minSpeechSamplesOf c)
                         [closedAt (SampleRate c) pad
                                   (currSample sd + ws * len q)
                                   (currSample sd + ws * (len q + len (p0 :: s) + 1))],
             None))
    /\ triggered sd' = false.
Proof.
  intros c ws ms pad Hpad Hco Htr Hfit Hp Hlen Hq Hs0 Hs Hz0 Hz Hms.
  pose proof (windowSizeOf_pos c) as Hws. fold ws in Hws.
  destruct (detectWindows_ready sd pcm Hpad Hco Htr Hfit) as [Hp0 [Hmax Hr]].
  fold c ws pad in Hp0, Hr.
  rewrite Detect_emitted by assumption. fold c ws.
  destruct (len pcm <? ws) eqn:Hshort.
  { apply Z.ltb_lt in Hshort. unfold c in Hlen.
    rewrite detectWindows_short in Hlen by (fold c ws; lia).
    rewrite !length_app in Hlen. cbn in Hlen. lia. }
  destruct (run_pattern infer c ws ms pad ltac:(lia) Hp0 q
              (detectWindows c pcm) sd p0 s z Hr Hp Hlen Hq Hs0 Hs Hz Htr)
    as [sd' [C H]].
  replace (0 <? len z) with true in H
    by (symmetry; apply Z.ltb_lt; destruct z; [congruence |];
        rewrite len_cons; pose proof (len_nonneg z); lia).
  replace (ms <=? ws * (len z - 1)) with true in H
    by (symmetry; apply Z.leb_le; exact Hms).
  cbn [andb] in H. destruct H as [H Ht].
  unfold emitted. fold c ws ms pad. rewrite H, C.
  exists sd'. auto.
Qed.

(** X8. A pause that is too short does not close the segment. With the
    windows as above, when the silence-confirming windows after the
    first one stay below [minSilenceSamples], or when there is none,
    [Detect] returns the one open segment that starts at the beginning of
    the window that reached the threshold, moved back by the padding,
    and leaves the detector triggered. *)
Theorem short_pause_keeps_segment_open
        (infer : adapter) (sd : Detector) (pcm : list F32.t)
        (q : list F32.t) (p0 : F32.t) (s z : list F32.t) :
  let c := cfg sd in
  let ws := windowSizeOf c in
  let ms := minSilenceSamplesOf c in
  let pad := speechPadSamplesOf c in
  wellPadded c ->
  coherent ws sd -> triggered sd = false ->
  currSample sd + len pcm + pad <= GoInt.max_int ->
  probabilities infer (SampleRate c) (state sd, ctx sd) (detectWindows c pcm)
  = q ++ p0 :: s ++ z ->
  List.length (q ++ p0 :: s ++ z) = List.length (detectWindows c pcm) ->
  Forall (fun p => isSpeech c p = false) q ->
  isSpeech c p0 = true ->
  Forall (fun p => isSilence c p = false) (p0 :: s) ->
  Forall (fun p => isSpeech c p = false /\ isSilence c p = true) z ->
  z = [] \/ ws * (len z - 1) < ms ->
  exists sd',
    Detect infer (Some sd) pcm
    = Some (Some sd',
            ([opened (SampleRate c) (currSample sd + ws * len q - pad)],
             None))
    /\ triggered sd' = true.
Proof.
  intros c ws ms pad Hpad Hco Htr Hfit Hp Hlen Hq Hs0 Hs Hz Hms.
  pose proof (windowSizeOf_pos c) as Hws. fold ws in Hws.
  destruct (detectWindows_ready sd pcm Hpad Hco Htr Hfit) as [Hp0 [Hmax Hr]].
  fold c ws pad in Hp0, Hr.
  rewrite Detect_emitted by assumption. fold c ws.
  destruct (len pcm <? ws) eqn:Hshort.
  { apply Z.ltb_lt in Hshort. unfold c in Hlen.
    rewrite detectWindows_short in Hlen by (fold c ws; lia).
    rewrite !length_app in Hlen. cbn in Hlen. lia. }
  destruct (run_pattern infer c ws ms pad ltac:(lia) Hp0 q
              (detectWindows c pcm) sd p0 s z Hr Hp Hlen Hq Hs0 Hs Hz Htr)
    as [sd' [C H]].
  replace ((0 <? len z) && (ms <=? ws * (len z - 1))) with false in H.
  2:{ symmetry. apply andb_false_iff. destruct Hms as [-> | Hms].
      - left. reflexivity.
      - right. apply Z.leb_gt. exact Hms. }
  destruct H as [H Ht].
  unfold emitted. fold c ws ms pad. rewrite H.
  exists sd'. split; [| exact Ht]. unfold filterShort.
  destruct (MinSpeechDurationMs (cfg sd') >? 0); reflexivity.
Qed.

(** ** The order of converted integers *)

Lemma digits2_pos_unique (m : positive) (d : Z) :
  2 ^ (d - 1) <= Zpos m < 2 ^ d -> Zpos (digits2_pos m) = d.
Proof.
  intros [Hlo Hhi]. pose proof (digits2_pos_bounds m) as [Glo Ghi].
  pose proof (Pos2Z.is_pos (digits2_pos m)) as Hd.
  assert (Hd0 : 0 < d).
  { destruct (Z.lt_ge_cases 0 d) as [H | H]; [exact H |].
    destruct (Z.eq_dec d 0) as [-> | Hne]; [cbn in Hhi; lia |].
    rewrite (Z.pow_neg_r 2 d) in Hhi by lia. lia. }
  destruct (Z.lt_trichotomy (Zpos (digits2_pos m)) d) as [H | [H | H]];
    [| exact H |].
  - assert (2 ^ Zpos (digits2_pos m) <= 2 ^ (d - 1))
      by (apply Z.pow_le_mono_r; lia).
    lia.
  - assert (2 ^ d <= 2 ^ (Zpos (digits2_pos m) - 1))
      by (apply Z.pow_le_mono_r; lia).
    lia.
Qed.

Lemma binary_round_aux_exact (prec emax : Z) (sx : bool) (m : positive)
      (e : Z) :
  fexp prec emax (Zpos (digits2_pos m) + e) = e ->
  e <= emax - prec ->
  binary_round_aux prec emax sx (Zpos m) e loc_Exact = S754_finite sx m e.
Proof.
  intros Hf He. unfold binary_round_aux, shr_fexp. cbn [Zdigits2].
  rewrite Hf, Z.sub_diag.
  cbn [shr shr_record_of_loc shr_m loc_of_shr_record round_nearest_even
       Zdigits2].
  rewrite Hf, Z.sub_diag. cbn [shr shr_m].
  replace (e <=? emax - prec) with true by (symmetry; apply Z.leb_le; lia).
  reflexivity.
Qed.

(** An integer below [2 ^ 53] converts to [float64] without rounding. *)
Lemma of_int_exact (n : Z) :
  0 < n < 2 ^ 53 ->
  exists m e,
    F64.of_int n = S754_finite false m e
    /\ -52 <= e <= 0 /\ Zpos m = n * 2 ^ (- e)
    /\ 2 ^ 52 <= Zpos m < 2 ^ 53.
Proof.
  intros [Hn0 Hn]. destruct n as [| p | p]; try lia.
  unfold F64.of_int, F64.prec, F64.emax, binary_normalize, binary_round.
  pose proof (digits2_pos_bounds p) as [Hlo Hhi].
  set (d := Zpos (digits2_pos p)) in *.
  assert (Hd : 1 <= d <= 53).
  { split; [unfold d; lia |].
    destruct (Z.le_gt_cases d 53) as [H | H]; [exact H |].
    assert (2 ^ 53 <= 2 ^ (d - 1)) by (apply Z.pow_le_mono_r; lia). lia. }
  assert (Hf : fexp 53 1024 (d + 0) = d - 53) by (unfold fexp, emin; lia).
  rewrite Hf.
  pose proof (shl_align_exp p 0 (d - 53)) as Hexp.
  pose proof (shl_align_val p 0 (d - 53) ltac:(lia)) as Hval.
  destruct (shl_align p 0 (d - 53)) as [mz ez]. cbn [fst snd] in *.
  assert (Hez : ez = d - 53) by lia. clear Hexp. subst ez.
  replace (0 - (d - 53)) with (53 - d) in Hval by lia.
  assert (Hpow : 2 ^ (d - 1) * 2 ^ (53 - d) = 2 ^ 52
                 /\ 2 ^ d * 2 ^ (53 - d) = 2 ^ 53).
  { rewrite <- !Z.pow_add_r by lia. split; f_equal; lia. }
  destruct Hpow as [Hp1 Hp2].
  assert (H2 : 0 < 2 ^ (53 - d)) by (apply Z.pow_pos_nonneg; lia).
  assert (Hmz : 2 ^ 52 <= Zpos mz < 2 ^ 53) by (rewrite Hval; nia).
  assert (Hdz : Zpos (digits2_pos mz) = 53)
    by (apply digits2_pos_unique; exact Hmz).
  rewrite binary_round_aux_exact
    by (rewrite ?Hdz; unfold fexp, emin; lia).
  exists mz, (d - 53). split; [reflexivity |]. split; [lia |].
  split; [| exact Hmz]. rewrite Hval. f_equal. f_equal. lia.
Qed.

Lemma of_int_mono (a b : Z) :
  0 <= a <= b -> b < 2 ^ 53 ->
  SFleb (F64.of_int a) (F64.of_int b) = true.
Proof.
  intros [Ha Hab] Hb.
  destruct (Z.eq_dec b 0) as [-> | Hb0].
  { replace a with 0 by lia. reflexivity. }
  destruct (of_int_exact b ltac:(lia)) as [m2 [e2 [E2 [He2 [V2 B2]]]]].
  rewrite E2.
  destruct (Z.eq_dec a 0) as [-> | Ha0]; [reflexivity |].
  destruct (of_int_exact a ltac:(lia)) as [m1 [e1 [E1 [He1 [V1 B1]]]]].
  rewrite E1. unfold SFleb. cbn [SFcompare].
  assert (P1 : 0 < 2 ^ (- e1)) by (apply Z.pow_pos_nonneg; lia).
  assert (P2 : 0 < 2 ^ (- e2)) by (apply Z.pow_pos_nonneg; lia).
  destruct (Z.compare_spec e1 e2) as [E | E | E]; [| reflexivity |].
  - subst e2. change (Pos.compare_cont Eq m1 m2) with (Pos.compare m1 m2).
    destruct (Pos.compare_spec m1 m2); try reflexivity. nia.
  - exfalso.
    assert (Hk : 2 ^ (- e2) = 2 ^ (- e1) * 2 ^ (e1 - e2)).
    { rewrite <- Z.pow_add_r by lia. f_equal. lia. }
    assert (2 ^ 1 <= 2 ^ (e1 - e2)) by (apply Z.pow_le_mono_r; lia).
    change (2 ^ 1) with 2 in *. nia.
Qed.

Lemma SFleb_trans (x y z : spec_float) :
  SFleb x y = true -> SFleb y z = true -> SFleb x z = true.
Proof.
  unfold SFleb.
  destruct x as [sx | sx | | sx mx ex], y as [sy | sy | | sy my ey],
           z as [sz | sz | | sz mz ez];
    try destruct sx; try destruct sy; try destruct sz;
    cbn [SFcompare]; try discriminate; try reflexivity;
    intros H1 H2; cmp_cases; subst; cbn in *;
    try discriminate; try reflexivity; try lia.
Qed.

(** ** The filter of short segments *)

Lemma keepSegment_mono (c : DetectorConfig) (m1 m2 : Z) (s : Segment) :
  0 <= m1 <= m2 -> m2 < 2 ^ 53 ->
  keepSegment c m2 s = true -> keepSegment c m1 s = true.
Proof.
  intros Hm Hb. unfold keepSegment, F64.geb.
  destruct (F64.eqb (SpeechEndAt s) F64.zero); [auto |].
  apply SFleb_trans. apply of_int_mono; assumption.
Qed.

Lemma filter_filter_implied {A : Type} (f g : A -> bool) (l : list A) :
  (forall x, g x = true -> f x = true) ->
  filter g (filter f l) = filter g l.
Proof.
  intros H. induction l as [| x l IH]; [reflexivity |].
  cbn [filter]. destruct (f x) eqn:Ef; cbn [filter].
  - rewrite IH. reflexivity.
  - destruct (g x) eqn:Eg; [| exact IH].
    rewrite (H x Eg) in Ef. discriminate.
Qed.

Lemma filter_shorter {A : Type} (f : A -> bool) (l : list A) :
  (List.length (filter f l) <= List.length l)%nat.
Proof.
  induction l as [| x l IH]; [cbn; lia |].
  cbn [filter]. destruct (f x); cbn [List.length]; lia.
Qed.

(** The window loop does not read [MinSpeechDurationMs]. *)
Lemma trigger_SetMinSpeechDurationMs (ws pad : Z) (p : F32.t)
      (sd : Detector) (v : Z) (segments : list Segment) :
  trigger ws pad p (SetMinSpeechDurationMs sd v) segments
  = (SetMinSpeechDurationMs (fst (trigger ws pad p sd segments)) v,
     snd (trigger ws pad p sd segments)).
Proof.
  unfold trigger. cbn. destruct (_ && _); reflexivity.
Qed.

Lemma silence_SetMinSpeechDurationMs (ms pad : Z) (p : F32.t)
      (sd : Detector) (v : Z) (segments : list Segment) :
  silence ms pad p (SetMinSpeechDurationMs sd v) segments
  = match silence ms pad p sd segments with
    | Next sd' segments' => Next (SetMinSpeechDurationMs sd' v) segments'
    | Return sd' err => Return (SetMinSpeechDurationMs sd' v) err
    end.
Proof.
  unfold silence, markCandidate. cbn.
  destruct (_ && _); [| reflexivity].
  destruct (tempEnd sd =? 0); cbn;
    destruct (_ <? ms); try reflexivity;
      destruct (len segments <? 1); reflexivity.
Qed.

Lemma rearm_SetMinSpeechDurationMs (ws : Z) (p : F32.t) (sd : Detector)
      (v : Z) :
  rearm p (advance ws (SetMinSpeechDurationMs sd v))
  = SetMinSpeechDurationMs (rearm p (advance ws sd)) v.
Proof.
  unfold rearm, advance. cbn. destruct (_ && _); reflexivity.
Qed.

Lemma detectWindow_SetMinSpeechDurationMs (infer : adapter) (ws ms pad : Z)
      (sd : Detector) (v : Z) (segments : list Segment) (w : list F32.t) :
  detectWindow infer ws ms pad (SetMinSpeechDurationMs sd v) segments w
  = match detectWindow infer ws ms pad sd segments w with
    | Next sd' segments' => Next (SetMinSpeechDurationMs sd' v) segments'
    | Return sd' err => Return (SetMinSpeechDurationMs sd' v) err
    end.
Proof.
  unfold detectWindow.
  change (infer (SampleRate (cfg (SetMinSpeechDurationMs sd v)))
                (state (SetMinSpeechDurationMs sd v),
                 ctx (SetMinSpeechDurationMs sd v)) w)
    with (infer (SampleRate (cfg sd)) (state sd, ctx sd) w).
  destruct (infer (SampleRate (cfg sd)) (state sd, ctx sd) w)
    as [bufs [p | e]]; [| reflexivity].
  change (withBuffers (SetMinSpeechDurationMs sd v) bufs)
    with (SetMinSpeechDurationMs (withBuffers sd bufs) v).
  rewrite rearm_SetMinSpeechDurationMs, trigger_SetMinSpeechDurationMs.
  destruct (trigger ws pad p _ segments) as [sd1 segments1].
  cbn [fst snd]. apply silence_SetMinSpeechDurationMs.
Qed.

Lemma runWindows_SetMinSpeechDurationMs (infer : adapter) (ws ms pad : Z)
      (v : Z) (windows : list (list F32.t)) :
  forall (sd : Detector) (segments : list Segment),
    runWindows infer ws ms pad windows (SetMinSpeechDurationMs sd v) segments
    = match runWindows infer ws ms pad windows sd segments with
      | Next sd' segments' => Next (SetMinSpeechDurationMs sd' v) segments'
      | Return sd' err => Return (SetMinSpeechDurationMs sd' v) err
      end.
Proof.
  induction windows as [| w windows IH]; intros sd segments; [reflexivity |].
  cbn [runWindows]. rewrite detectWindow_SetMinSpeechDurationMs.
  destruct (detectWindow infer ws ms pad sd segments w); [apply IH | reflexivity].
Qed.

Lemma emitted_SetMinSpeechDurationMs (infer : adapter) (sd : Detector)
      (v : Z) (pcm : list F32.t) :
  emitted infer (SetMinSpeechDurationMs sd v) pcm
  = match emitted infer sd pcm with
    | Next sd' segments' => Next (SetMinSpeechDurationMs sd' v) segments'
    | Return sd' err => Return (SetMinSpeechDurationMs sd' v) err
    end.
Proof. unfold emitted. apply runWindows_SetMinSpeechDurationMs. Qed.

(** The conversion from milliseconds to samples keeps the order. *)
Lemma samples_mono (rate v1 v2 : Z) :
  rate = 8000 \/ rate = 16000 ->
  0 <= v1 <= v2 -> v2 < 2 ^ 49 ->
  0 <= GoInt.quo (GoInt.mul v1 rate) 1000
    <= GoInt.quo (GoInt.mul v2 rate) 1000
  /\ GoInt.quo (GoInt.mul v2 rate) 1000 < 2 ^ 53.
Proof.
  intros Hsr Hv Hb.
  assert (Hq : forall v, 0 <= v < 2 ^ 49 ->
             GoInt.quo (GoInt.mul v rate) 1000 = v * (rate / 1000)).
  { intros v Hv0.
    rewrite mul_id
      by (unfold GoInt.in_range, GoInt.min_int, GoInt.max_int;
          destruct Hsr as [E | E]; rewrite E; lia).
    assert (Hx : Z.quot (v * rate) 1000 = v * (rate / 1000)).
    { destruct Hsr as [E | E]; rewrite E.
      - replace (v * 8000) with (v * 8 * 1000) by lia.
        rewrite Z.quot_mul by lia. reflexivity.
      - replace (v * 16000) with (v * 16 * 1000) by lia.
        rewrite Z.quot_mul by lia. reflexivity. }
    rewrite quo_id; rewrite Hx;
      unfold GoInt.in_range, GoInt.min_int, GoInt.max_int;
      destruct Hsr as [E | E]; rewrite E;
        try change (8000 / 1000) with 8; try change (16000 / 1000) with 16;
        lia. }
  rewrite !Hq by lia.
  destruct Hsr as [E | E]; rewrite E;
    try change (8000 / 1000) with 8; try change (16000 / 1000) with 16; lia.
Qed.

Lemma minSpeechSamplesOf_mono (c : DetectorConfig) (v1 v2 : Z) :
  SampleRate c = 8000 \/ SampleRate c = 16000 ->
  0 <= v1 <= v2 -> v2 < 2 ^ 49 ->
  0 <= minSpeechSamplesOf (withMinSpeechDurationMs c v1)
    <= minSpeechSamplesOf (withMinSpeechDurationMs c v2)
  /\ minSpeechSamplesOf (withMinSpeechDurationMs c v2) < 2 ^ 53.
Proof. intros Hsr. apply samples_mono. exact Hsr. Qed.

(** X9. Raising [MinSpeechDurationMs] with its setter returns no more, as
    long as the conversion to samples of line 223 does not wrap around:
    at a sample rate of 8000 or 16000 and for [v1 <= v2 < 2^49]
    milliseconds, if [Detect] succeeds under [v1], it succeeds on the
    same detector and buffer under [v2] and returns the segments that
    the filter of [v2] keeps of those returned under [v1], in the same
    order; a [v1] that is not positive switches the filter off, and the
    call returns every segment of the window loop. *)
Theorem raising_min_speech_returns_fewer
        (infer : adapter) (sd sd1 : Detector) (v1 v2 : Z) (pcm : list F32.t)
        (segments1 : list Segment) :
  SampleRate (cfg sd) = 8000 \/ SampleRate (cfg sd) = 16000 ->
  v1 <= v2 -> v2 < 2 ^ 49 ->
  len pcm <= GoInt.max_int ->
  Detect infer (Some (SetMinSpeechDurationMs sd v1)) pcm
  = Some (Some sd1, (segments1, None)) ->
  let c2 := cfg (SetMinSpeechDurationMs sd v2) in
  exists sd2 segments2,
    Detect infer (Some (SetMinSpeechDurationMs sd v2)) pcm
    = Some (Some sd2, (segments2, None))
    /\ segments2 = filterShort c2 (minSpeechSamplesOf c2) segments1
    /\ (List.length segments2 <= List.length segments1)%nat
    /\ (v1 <= 0 -> forall sd0 segments0,
          emitted infer sd pcm = Next sd0 segments0 -> segments1 = segments0).
Proof.
  intros Hsr Hv Hb Hfit HD c2.
  rewrite Detect_emitted in * by assumption.
  change (windowSizeOf (cfg (SetMinSpeechDurationMs sd v2)))
    with (windowSizeOf (cfg sd)).
  change (windowSizeOf (cfg (SetMinSpeechDurationMs sd v1)))
    with (windowSizeOf (cfg sd)) in HD.
  destruct (len pcm <? windowSizeOf (cfg sd)); [discriminate |].
  rewrite emitted_SetMinSpeechDurationMs in *.
  pose proof (runWindows_cfg infer (windowSizeOf (cfg sd))
                (minSilenceSamplesOf (cfg sd)) (speechPadSamplesOf (cfg sd))
                (detectWindows (cfg sd) pcm) sd []) as Hcfg.
  fold (emitted infer sd pcm) in Hcfg.
  destruct (emitted infer sd pcm) as [sd' segments | sd' err];
    [| discriminate].
  injection HD as <- <-.
  do 2 eexists. split; [reflexivity |].
  cbn [SetMinSpeechDurationMs withCfg cfg]. unfold c2.
  cbn [SetMinSpeechDurationMs withCfg cfg]. rewrite Hcfg.
  assert (Hlen : forall l,
             (List.length
                (filterShort (withMinSpeechDurationMs (cfg sd) v2)
                   (minSpeechSamplesOf (withMinSpeechDurationMs (cfg sd) v2))
                   l) <= List.length l)%nat).
  { intros l. unfold filterShort. destruct (_ >? 0); [| lia].
    apply filter_shorter. }
  assert (Heq : filterShort (withMinSpeechDurationMs (cfg sd) v2)
                  (minSpeechSamplesOf (withMinSpeechDurationMs (cfg sd) v2))
                  segments
                = filterShort (withMinSpeechDurationMs (cfg sd) v2)
                    (minSpeechSamplesOf (withMinSpeechDurationMs (cfg sd) v2))
                    (filterShort (withMinSpeechDurationMs (cfg sd) v1)
                       (minSpeechSamplesOf
                          (withMinSpeechDurationMs (cfg sd) v1))
                       segments)).
  { unfold filterShort.
    cbn [withMinSpeechDurationMs MinSpeechDurationMs].
    destruct (v1 >? 0) eqn:E1; [| reflexivity].
    apply Z.gtb_lt in E1.
    replace (v2 >? 0) with true by (symmetry; apply Z.gtb_lt; lia).
    rewrite filter_filter_implied; [reflexivity |].
    intros x Hx.
    destruct (minSpeechSamplesOf_mono (cfg sd) v1 v2 Hsr ltac:(lia) Hb)
      as [Hm1 Hm2].
    apply (keepSegment_mono _ _ _ x Hm1 Hm2). exact Hx. }
  split; [exact Heq |]. split; [rewrite Heq; apply Hlen |].
  intros Hoff sd0 segments0 Heq0. injection Heq0 as _ <-.
  apply filterShort_disabled. cbn. exact Hoff.
Qed.

(* ===================================================================== *)
(** * The tester *)
(* ===================================================================== *)

(** ** Reading the samples *)

Section ReadLoop.

Variable data : list Byte.byte.
Hypothesis data_fits : len data + 4 <= GoInt.max_int.

(** The loop of [readPCMFile] terminates, and appends one sample for
    each whole group of four bytes from the index [i] on. *)
Lemma readLoop_enum (fuel : nat) :
  forall (i : Z) (samples : list F32.t),
    0 <= i ->
    Z.max 0 (len data - i) < Z.of_nat fuel ->
    readLoop fuel data i samples
    = Some (samples
            ++ map (fun k => Float32frombits
                               (Uint32 (slice data (i + 4 * Z.of_nat k)
                                              (i + 4 * Z.of_nat k + 4))))
                   (seq 0 (Z.to_nat ((len data - i) / 4)))).
Proof.
  induction fuel as [| fuel IH]; intros i samples Hi Hfuel; [exfalso; lia |].
  cbn [readLoop]. destruct (i <? len data) eqn:Hlt.
  - apply Z.ltb_lt in Hlt.
    assert (Hadd : GoInt.add i 4 = i + 4).
    { apply add_id.
      unfold GoInt.in_range, GoInt.min_int, GoInt.max_int in *. lia. }
    rewrite Hadd, IH by lia.
    destruct (i + 4 <=? len data) eqn:Hle.
    + apply Z.leb_le in Hle.
      replace (len data - i) with ((len data - (i + 4)) + 1 * 4) by lia.
      rewrite Z.div_add by lia.
      assert (Hq : 0 <= (len data - (i + 4)) / 4) by (apply Z.div_pos; lia).
      rewrite Z2Nat.inj_add by lia.
      replace (Z.to_nat 1) with 1%nat by reflexivity.
      rewrite Nat.add_comm. cbn [Nat.add seq map].
      assert (E : forall a a' b b',
                 a = a' -> b = b' -> slice data a b = slice data a' b')
        by (intros; subst; reflexivity).
      rewrite <- app_assoc. cbn [app]. do 3 f_equal.
      * do 2 f_equal. apply E; lia.
      * rewrite <- seq_shift, map_map. apply map_ext. intros k.
        do 2 f_equal. apply E; lia.
    + apply Z.leb_gt in Hle.
      replace ((len data - (i + 4)) / 4) with (-1)
        by (apply Z.div_unique with (r := len data - i); lia).
      rewrite (Z.div_small (len data - i) 4) by lia. reflexivity.
  - apply Z.ltb_ge in Hlt.
    assert (Hq : (len data - i) / 4 <= 0).
    { destruct (Z.eq_dec (len data) i) as [E | E].
      - rewrite E, Z.sub_diag. cbn. lia.
      - apply Z.lt_le_incl. apply Z.div_lt_upper_bound; lia. }
    replace (Z.to_nat ((len data - i) / 4)) with 0%nat by lia.
    cbn [seq map]. rewrite app_nil_r. reflexivity.
Qed.

End ReadLoop.

Lemma readLoop_decode (data : list Byte.byte) :
  len data + 4 <= GoInt.max_int ->
  readLoop (S (List.length data)) data 0 []
  = Some (map (fun k => Float32frombits
                          (Uint32 (slice data (4 * Z.of_nat k)
                                         (4 * Z.of_nat k + 4))))
              (seq 0 (Z.to_nat (len data / 4)))).
Proof.
  intros Hfit. rewrite readLoop_enum; try assumption; try lia.
  - rewrite Z.sub_0_r. reflexivity.
  - unfold len. lia.
Qed.

Lemma readPCMFile_length
      (ReadFile : string -> list Byte.byte + error) (path : string)
      (data : list Byte.byte) :
  ReadFile path = inl data ->
  len data + 4 <= GoInt.max_int ->
  exists samples,
    readPCMFile ReadFile path = Some (inl samples)
    /\ len samples = len data / 4.
Proof.
  intros Hread Hfit. unfold readPCMFile. rewrite Hread.
  rewrite readLoop_decode by assumption.
  eexists. split; [reflexivity |].
  assert (Hq : 0 <= len data / 4)
    by (apply Z.div_pos; [unfold len |]; lia).
  unfold len at 1. rewrite length_map, length_seq. lia.
Qed.

(** X10. [readPCMFile] on a file that can be read never fails and returns one
    sample for every whole group of four bytes, in the order of the file:
    the sample [k] is the [float32] whose bits are the little-endian
    number of the bytes [4k .. 4k+3]; up to three bytes left at the end
    of the file are dropped without an error. *)
Theorem readPCMFile_samples
        (ReadFile : string -> list Byte.byte + error) (path : string)
        (data : list Byte.byte) :
  ReadFile path = inl data ->
  len data + 4 <= GoInt.max_int ->
  exists samples,
    readPCMFile ReadFile path = Some (inl samples)
    /\ len samples = len data / 4
    /\ forall k : nat,
        Z.of_nat k < len data / 4 ->
        nth_error samples k
        = Some (Float32frombits
                  (Uint32 (slice data (4 * Z.of_nat k)
                                 (4 * Z.of_nat k + 4)))).
Proof.
  intros Hread Hfit. unfold readPCMFile. rewrite Hread.
  rewrite readLoop_decode by assumption.
  eexists. split; [reflexivity |].
  assert (Hq : 0 <= len data / 4)
    by (apply Z.div_pos; [unfold len |]; lia).
  split.
  - unfold len at 1. rewrite length_map, length_seq. lia.
  - intros k Hk.
    rewrite nth_error_map, nth_error_seq.
    replace (k <? Z.to_nat (len data / 4))%nat with true
      by (symmetry; apply Nat.ltb_lt; lia).
    reflexivity.
Qed.

Lemma slice_app_l {A : Type} (a b : list A) (i : Z) :
  0 <= i -> i + 4 <= len a ->
  slice (a ++ b) i (i + 4) = slice a i (i + 4).
Proof.
  intros Hi Hle. unfold slice, len in *.
  rewrite skipn_app, firstn_app, length_skipn.
  replace (Z.to_nat (i + 4 - i) - (List.length a - Z.to_nat i))%nat
    with 0%nat by lia.
  cbn [firstn]. apply app_nil_r.
Qed.

Lemma slice_app_r {A : Type} (a b : list A) (i : Z) :
  0 <= i ->
  slice (a ++ b) (len a + i) (len a + i + 4) = slice b i (i + 4).
Proof.
  intros Hi. unfold slice, len.
  rewrite skipn_app, skipn_all2 by lia. cbn [app].
  replace (Z.to_nat (Z.of_nat (List.length a) + i + 4
                     - (Z.of_nat (List.length a) + i)))
    with (Z.to_nat (i + 4 - i)) by lia.
  replace (Z.to_nat (Z.of_nat (List.length a) + i) - List.length a)%nat
    with (Z.to_nat i) by lia.
  reflexivity.
Qed.

Lemma seq_offset (n m : nat) :
  seq n m = map (fun k => (n + k)%nat) (seq 0 m).
Proof.
  revert n. induction m as [| m IH]; intros n; [reflexivity |].
  cbn [seq map]. f_equal; [lia |].
  rewrite (IH (S n)), <- seq_shift, map_map.
  apply map_ext. intros k. lia.
Qed.

(** X11. Reading the concatenation of two files, the first of which holds a
    whole number of samples, gives the samples of the first followed by
    those of the second; a file of fewer than four bytes holds no
    sample. *)
Theorem readPCMFile_concatenation
        (ReadFile : string -> list Byte.byte + error)
        (path1 path2 path : string) (data1 data2 : list Byte.byte) :
  ReadFile path1 = inl data1 ->
  ReadFile path2 = inl data2 ->
  ReadFile path = inl (data1 ++ data2) ->
  len data1 mod 4 = 0 ->
  len data1 + len data2 + 4 <= GoInt.max_int ->
  exists samples1 samples2,
    readPCMFile ReadFile path1 = Some (inl samples1)
    /\ readPCMFile ReadFile path2 = Some (inl samples2)
    /\ readPCMFile ReadFile path = Some (inl (samples1 ++ samples2))
    /\ (len data2 < 4 -> samples2 = []).
Proof.
  intros H1 H2 H Hmod Hfit.
  pose proof (len_nonneg data1) as L1. pose proof (len_nonneg data2) as L2.
  unfold readPCMFile. rewrite H1, H2, H.
  rewrite !readLoop_decode by (rewrite ?len_app; lia).
  do 2 eexists. split; [reflexivity |]. split; [reflexivity |].
  assert (Hn : len data1 = 4 * (len data1 / 4))
    by (rewrite (Z.div_mod (len data1) 4) at 1 by lia; lia).
  set (n1 := len data1 / 4) in *.
  assert (Hn1 : 0 <= n1) by lia.
  assert (Hq2 : 0 <= len data2 / 4) by (apply Z.div_pos; lia).
  split.
  - rewrite len_app.
    replace (len data1 + len data2) with (len data2 + n1 * 4) by lia.
    rewrite Z.div_add by lia.
    rewrite Z.add_comm, Z2Nat.inj_add by lia.
    rewrite seq_app, map_app. do 3 f_equal.
    + apply map_ext_in. intros k Hk. apply in_seq in Hk.
      do 2 f_equal. apply slice_app_l; lia.
    + cbn [Nat.add]. rewrite (seq_offset (Z.to_nat n1)).
      rewrite map_map. apply map_ext. intros k. do 2 f_equal.
      rewrite <- (slice_app_r data1 data2 (4 * Z.of_nat k)) by lia.
      assert (E : forall a a' b b',
                 a = a' -> b = b'
                 -> slice (data1 ++ data2) a b = slice (data1 ++ data2) a' b')
        by (intros; subst; reflexivity).
      apply E; lia.
  - intros Hshort. rewrite Z.div_small by lia. reflexivity.
Qed.

(** ** The run of the tester *)

Lemma IsValid_fields (c : DetectorConfig) :
  IsValid c = None ->
  (SampleRate c = 8000 \/ SampleRate c = 16000)
  /\ 0 <= MinSilenceDurationMs c /\ 0 <= MinSpeechDurationMs c
  /\ 0 <= SpeechPadMs c.
Proof.
  unfold IsValid.
  destruct (String.eqb (ModelPath c) ""); [discriminate |].
  destruct (negb (SampleRate c =? 8000) && negb (SampleRate c =? 16000))
    eqn:B1; [discriminate |].
  destruct (F32.leb (Threshold c) F32.zero || F32.geb (Threshold c) F32.one);
    [discriminate |].
  destruct (F32.ltb (NegativeThreshold c) F32.zero
            || F32.geb (NegativeThreshold c) F32.one); [discriminate |].
  destruct (F32.gtb (NegativeThreshold c) F32.zero
            && F32.geb (NegativeThreshold c) (Threshold c)); [discriminate |].
  destruct (Z.ltb_spec (MinSilenceDurationMs c) 0); [discriminate |].
  destruct (Z.ltb_spec (MinSpeechDurationMs c) 0); [discriminate |].
  destruct (Z.ltb_spec (SpeechPadMs c) 0); [discriminate |].
  intros _. repeat split; try assumption.
  destruct (Z.eqb_spec (SampleRate c) 8000); [auto |].
  destruct (Z.eqb_spec (SampleRate c) 16000); [auto | discriminate].
Qed.

Lemma NewDetector_fields (ortSetup : DetectorConfig -> option error)
      (c : DetectorConfig) (sd : Detector) :
  NewDetector ortSetup c = (Some sd, None) ->
  IsValid c = None
  /\ sd = mkDetector (cfg sd) (zeros stateLen) (zeros contextLen) 0 false 0
  /\ ModelPath (cfg sd) = ModelPath c
  /\ SampleRate (cfg sd) = SampleRate c
  /\ Threshold (cfg sd) = Threshold c
  /\ MinSilenceDurationMs (cfg sd) = MinSilenceDurationMs c
  /\ SpeechPadMs (cfg sd) = SpeechPadMs c
  /\ LogLevel (cfg sd) = LogLevel c
  /\ NegativeThreshold (cfg sd)
     = (if F32.eqb (NegativeThreshold c) F32.zero
        then F32.sub (Threshold c) F32.c0_15
        else NegativeThreshold c)
  /\ MinSpeechDurationMs (cfg sd)
     = (if MinSpeechDurationMs c =? 0 then 250 else MinSpeechDurationMs c).
Proof.
  unfold NewDetector. destruct (IsValid c); [discriminate |].
  destruct (ortSetup _); [discriminate |].
  intros H. injection H as <-. cbn [cfg].
  split; [reflexivity |]. split; [reflexivity |].
  destruct (F32.eqb (NegativeThreshold c) F32.zero);
    destruct (MinSpeechDurationMs c =? 0) eqn:E; cbn; rewrite ?E;
      repeat split; reflexivity.
Qed.

Section Main.

Variable ReadFile : string -> list Byte.byte + error.
Variable infer : adapter.
Variable ortSetup : DetectorConfig -> option error.
Variable f : Flags.

Hypothesis file_fits :
  forall data, ReadFile (audioPath f) = inl data ->
               len data + 4 <= GoInt.max_int.

(** X12. The tester always comes to an end, and when it exits with an error
    the error is one of five: the file could not be read, the flags make
    no valid configuration, the runtime could not be set up, the file
    holds less than one window of samples, or the inference failed on a
    window. The nil-detector and unexpected-speech-end returns of
    [Detect] are not among the ways it fails. *)
Theorem main_failures :
  exists o,
    main ReadFile infer ortSetup f = Some o
    /\ forall err,
        o = Exit1 err ->
        (exists e, ReadFile (audioPath f) = inr e
                   /\ err = Wrapf "failed to read file" e)
        \/ (exists e, IsValid (configOf f) = Some e
                      /\ err = errInvalidConfig e)
        \/ (exists c, ortSetup c = Some err)
        \/ (err = errNotEnoughSamples
            /\ exists data, ReadFile (audioPath f) = inl data
                            /\ len data < 4 * windowSizeOf (configOf f))
        \/ (exists e, err = errInferFailed e).
Proof.
  unfold main.
  destruct (ReadFile (audioPath f)) as [data | e] eqn:Hread.
  2:{ unfold readPCMFile. rewrite Hread. eexists. split; [reflexivity |].
      intros err H. injection H as <-. left. eauto. }
  destruct (readPCMFile_length ReadFile (audioPath f) data Hread
              (file_fits data eq_refl)) as [samples [R Hlen]].
  rewrite R.
  destruct (NewDetector ortSetup (configOf f)) as [p [err |]] eqn:Hnew.
  { eexists. split; [reflexivity |]. intros err' H. injection H as <-.
    unfold NewDetector in Hnew.
    destruct (IsValid (configOf f)) as [e |].
    - injection Hnew as _ <-. right. left. eauto.
    - destruct (ortSetup _) as [e |] eqn:Hort; [| discriminate].
      injection Hnew as _ <-. right. right. left. eauto. }
  destruct p as [sd |].
  2:{ unfold NewDetector in Hnew. destruct (IsValid (configOf f));
        [discriminate |]. destruct (ortSetup _); discriminate. }
  destruct (NewDetector_fields ortSetup _ sd Hnew)
    as [_ [Hsd [_ [Hrate _]]]].
  assert (Hfit : len samples <= GoInt.max_int).
  { pose proof (file_fits data eq_refl). rewrite Hlen.
    pose proof (len_nonneg data).
    assert (len data / 4 <= len data)
      by (apply Z.div_le_upper_bound; lia).
    lia. }
  rewrite Detect_emitted by assumption.
  assert (Hws : windowSizeOf (cfg sd) = windowSizeOf (configOf f))
    by (unfold windowSizeOf; rewrite Hrate; reflexivity).
  destruct (len samples <? windowSizeOf (cfg sd)) eqn:Hshort.
  { apply Z.ltb_lt in Hshort. eexists. split; [reflexivity |].
    intros err H. injection H as <-. do 3 right. left.
    split; [reflexivity |]. exists data. split; [reflexivity |].
    rewrite Hlen, Hws in Hshort.
    pose proof (Z.mul_succ_div_gt (len data) 4 ltac:(lia)). lia. }
  unfold emitted.
  pose proof (runWindows_covered infer (windowSizeOf (cfg sd))
                (minSilenceSamplesOf (cfg sd)) (speechPadSamplesOf (cfg sd))
                (detectWindows (cfg sd) samples) sd []) as H.
  destruct (runWindows infer _ _ _ _ sd []) as [sd' segments | sd' err].
  - eexists. split; [reflexivity |]. discriminate.
  - eexists. split; [reflexivity |]. intros err' H'. injection H' as <-.
    do 4 right. apply H. unfold covered. rewrite Hsd. discriminate.
Qed.

End Main.

Lemma main_run (ReadFile : string -> list Byte.byte + error)
      (infer : adapter) (ortSetup : DetectorConfig -> option error)
      (f : Flags) (data : list Byte.byte) (sd : Detector) :
  ReadFile (audioPath f) = inl data ->
  len data + 4 <= GoInt.max_int ->
  NewDetector ortSetup (configOf f) = (Some sd, None) ->
  exists samples,
    len samples = len data / 4
    /\ len samples <= GoInt.max_int
    /\ main ReadFile infer ortSetup f
       = Some (if len samples <? windowSizeOf (cfg sd)
               then Exit1 errNotEnoughSamples
               else
                 match emitted infer sd samples with
                 | Return _ err => Exit1 err
                 | Next sd' segments =>
                     let segments :=
                       filterShort (cfg sd') (minSpeechSamplesOf (cfg sd))
                                   segments in
                     let totalSpeechDuration :=
                       fold_left addDuration segments F64.zero in
                     let audioDuration :=
                       seconds (sampleRate f) (len samples) in
                     Done (mkReport
                             segments totalSpeechDuration audioDuration
                             (F64.mul
                                (F64.div totalSpeechDuration audioDuration)
                                (F64.of_int 100)))
                 end).
Proof.
  intros Hread Hfit Hnew.
  destruct (readPCMFile_length ReadFile (audioPath f) data Hread Hfit)
    as [samples [R Hlen]].
  exists samples. split; [exact Hlen |].
  assert (Hmax : len samples <= GoInt.max_int).
  { rewrite Hlen. pose proof (len_nonneg data).
    assert (len data / 4 <= len data)
      by (apply Z.div_le_upper_bound; lia).
    lia. }
  split; [exact Hmax |].
  unfold main. rewrite R, Hnew, Detect_emitted by assumption.
  destruct (len samples <? windowSizeOf (cfg sd)); [reflexivity |].
  destruct (emitted infer sd samples); reflexivity.
Qed.

(** X13. The tester needs one window of samples: with flags that make a
    valid configuration and a runtime that sets up, it exits with "not
    enough samples" exactly when the file holds fewer than four times
    the window size in bytes (2048 at 16 kHz, 1024 at 8 kHz). *)
Theorem main_needs_one_window
        (ReadFile : string -> list Byte.byte + error)
        (infer : adapter) (ortSetup : DetectorConfig -> option error)
        (f : Flags) (data : list Byte.byte) :
  ReadFile (audioPath f) = inl data ->
  len data + 4 <= GoInt.max_int ->
  IsValid (configOf f) = None ->
  (forall c, ortSetup c = None) ->
  main ReadFile infer ortSetup f = Some (Exit1 errNotEnoughSamples)
  <-> len data < 4 * windowSizeOf (configOf f).
Proof.
  intros Hread Hfit Hvalid Hort.
  assert (Hnew : exists sd,
             NewDetector ortSetup (configOf f) = (Some sd, None)).
  { unfold NewDetector. rewrite Hvalid, Hort. eauto. }
  destruct Hnew as [sd Hnew].
  destruct (NewDetector_fields ortSetup _ sd Hnew)
    as [_ [Hsd [_ [Hrate _]]]].
  assert (Hws : windowSizeOf (cfg sd) = windowSizeOf (configOf f))
    by (unfold windowSizeOf; rewrite Hrate; reflexivity).
  destruct (main_run ReadFile infer ortSetup f data sd Hread Hfit Hnew)
    as [samples [Hlen [Hmax Hmain]]].
  rewrite Hmain, Hws, Hlen.
  pose proof (windowSizeOf_pos (configOf f)) as Hpos.
  pose proof (Z.mul_succ_div_gt (len data) 4 ltac:(lia)) as Hdiv.
  pose proof (Z.mul_div_le (len data) 4 ltac:(lia)) as Hdiv'.
  destruct (len data / 4 <? windowSizeOf (configOf f)) eqn:Hshort.
  - apply Z.ltb_lt in Hshort. split; [intros _; lia | reflexivity].
  - apply Z.ltb_ge in Hshort. split; [| lia].
    unfold emitted.
    pose proof (runWindows_covered infer (windowSizeOf (cfg sd))
                  (minSilenceSamplesOf (cfg sd)) (speechPadSamplesOf (cfg sd))
                  (detectWindows (cfg sd) samples) sd []) as H.
    destruct (runWindows infer _ _ _ _ sd []) as [sd' segments | sd' err];
      [discriminate |].
    destruct H as [e He]; [unfold covered; rewrite Hsd; discriminate |].
    subst err. discriminate.
Qed.

Lemma nonNegative_closed (x : F64.t) :
  nonNegative x -> F64.ltb F64.zero x = negb (F64.eqb x F64.zero).
Proof.
  unfold nonNegative, F64.ltb, F64.eqb, SFltb, SFeqb.
  rewrite (SFcompare_antisym x F64.zero).
  destruct (SFcompare x F64.zero) as [[] |]; cbn;
    intros [H | H]; congruence.
Qed.

Lemma fold_addDuration (l : list Segment) :
  forall total,
    Forall (fun s => nonNegative (SpeechEndAt s)) l ->
    fold_left addDuration l total
    = fold_left (fun t s =>
                   F64add t (F64.sub (SpeechEndAt s) (SpeechStartAt s)))
                (filter (fun s => negb (isOpen s)) l) total.
Proof.
  induction l as [| s l IH]; intros total H; [reflexivity |].
  apply Forall_cons_iff in H. destruct H as [Hs H].
  cbn [fold_left filter]. unfold addDuration at 2, isOpen at 1.
  rewrite (nonNegative_closed _ Hs).
  destruct (F64.eqb (SpeechEndAt s) F64.zero); cbn [negb fold_left];
    apply IH; exact H.
Qed.

(** X14. What the tester reports after a detection, for a padding whose
    product [speechPad * sampleRate] stays, with the length of the file,
    in the range of [int]: the duration of the audio is that of the
    samples read, one for four bytes; the segments lie on the grid of
    the windows counted from the start of the file and end within it,
    before the padding; every reported segment before the last has a
    positive [SpeechEndAt], and so has the last one unless it is open;
    and the total speech duration adds up, in order,
    [SpeechEndAt - SpeechStartAt] over the reported segments whose
    [SpeechEndAt] is not zero, which are therefore the closed ones. *)
Theorem main_report
        (ReadFile : string -> list Byte.byte + error)
        (infer : adapter) (ortSetup : DetectorConfig -> option error)
        (f : Flags) (data : list Byte.byte) (r : Report) :
  ReadFile (audioPath f) = inl data ->
  len data + 4 + speechPad f * sampleRate f <= GoInt.max_int ->
  main ReadFile infer ortSetup f = Some (Done r) ->
  let c := configOf f in
  audioDuration r = seconds (sampleRate f) (len data / 4)
  /\ (exists open next,
        timeline (sampleRate f) (windowSizeOf c) (minSilenceSamplesOf c)
                 (speechPadSamplesOf c) 0 (detected r) open next
        /\ next <= len data / 4
        /\ forall before s,
            detected r = before ++ [s] ->
            Forall (fun x => F64.ltb F64.zero (SpeechEndAt x) = true) before
            /\ (if open then SpeechEndAt s = F64.zero
                else F64.ltb F64.zero (SpeechEndAt s) = true))
  /\ totalSpeechDuration r
     = fold_left (fun t s =>
                    F64add t (F64.sub (SpeechEndAt s) (SpeechStartAt s)))
                 (filter (fun s => negb (isOpen s)) (detected r)) F64.zero.
Proof.
  intros Hread Hfit Hmain c.
  pose proof (len_nonneg data) as Hdata.
  assert (Hnew : exists sd,
             NewDetector ortSetup (configOf f) = (Some sd, None)).
  { unfold main in Hmain.
    destruct (readPCMFile ReadFile (audioPath f)) as [[samples | e] |];
      try discriminate.
    destruct (NewDetector ortSetup (configOf f)) as [[sd |] [e |]];
      try discriminate; eauto. }
  destruct Hnew as [sd Hnew].
  destruct (NewDetector_fields ortSetup _ sd Hnew)
    as [Hvalid [Hsd [_ [Hrate [_ [Hsil [Hpadms _]]]]]]].
  destruct (IsValid_fields _ Hvalid) as [Hsr [_ [_ Hp0]]].
  fold c in Hrate, Hsil, Hpadms, Hsr, Hp0.
  assert (Hws : windowSizeOf (cfg sd) = windowSizeOf c)
    by (unfold windowSizeOf; rewrite Hrate; reflexivity).
  assert (Hms : minSilenceSamplesOf (cfg sd) = minSilenceSamplesOf c)
    by (unfold minSilenceSamplesOf; rewrite Hrate, Hsil; reflexivity).
  assert (Hpd : speechPadSamplesOf (cfg sd) = speechPadSamplesOf c)
    by (unfold speechPadSamplesOf; rewrite Hrate, Hpadms; reflexivity).
  assert (Hflag : SampleRate c = sampleRate f /\ SpeechPadMs c = speechPad f)
    by (split; reflexivity).
  destruct Hflag as [Hf1 Hf2].
  assert (Hrpos : 0 < sampleRate f) by (destruct Hsr; lia).
  assert (Hwell : wellPadded (cfg sd)).
  { unfold wellPadded. rewrite Hrate, Hpadms, Hf1, Hf2.
    rewrite Hf1 in Hsr. rewrite Hf2 in Hp0.
    split; [exact Hsr |]. split; [exact Hp0 | lia]. }
  destruct (speechPadSamplesOf_exact (cfg sd) Hwell) as [Hex [Hpad0 _]].
  destruct (main_run ReadFile infer ortSetup f data sd Hread ltac:(nia) Hnew)
    as [samples [Hlen [Hmax Hrun]]].
  rewrite Hrun in Hmain. clear Hrun.
  destruct (len samples <? windowSizeOf (cfg sd)); [discriminate |].
  assert (Hco : coherent (windowSizeOf (cfg sd)) sd).
  { rewrite Hsd. unfold coherent. cbn. split; [lia |]. split; [auto |].
    congruence. }
  assert (Htr : triggered sd = false) by (rewrite Hsd; reflexivity).
  assert (Hcs : currSample sd = 0) by (rewrite Hsd; reflexivity).
  assert (Hle : len data / 4 <= len data)
    by (apply Z.div_le_upper_bound; lia).
  assert (Hroom : currSample sd + len samples + speechPadSamplesOf (cfg sd)
                  <= GoInt.max_int).
  { rewrite Hcs, Hlen. rewrite Hrate, Hpadms, Hf1, Hf2 in Hex. nia. }
  pose proof (emitted_timeline infer sd samples Hwell Hco Htr Hroom) as HT.
  cbv zeta in HT. unfold emitted in *.
  pose proof (detectWindows_room (cfg sd) samples Hmax) as Hwin.
  pose proof (windowSizeOf_pos (cfg sd)) as Hwspos.
  pose proof (runWindows_counting infer (windowSizeOf (cfg sd))
                (minSilenceSamplesOf (cfg sd)) (speechPadSamplesOf (cfg sd))
                ltac:(lia) (detectWindows (cfg sd) samples) 0 sd [] Hco)
    as HC.
  destruct (runWindows infer _ _ _ _ sd []) as [sd' segments | sd' err];
    [| discriminate].
  destruct HT as [Hcfg [next [HT Hnext]]].
  destruct HC as [_ [_ [HC _]]].
  { unfold room. rewrite Nat.add_0_r, Hcs. lia. }
  cbv zeta in Hmain. injection Hmain as <-.
  cbn [audioDuration detected totalSpeechDuration].
  rewrite Hlen. split; [reflexivity |].
  rewrite Hws, Hms, Hpd, Hrate, Hf1, Hcs in HT.
  assert (HTf : timeline (sampleRate f) (windowSizeOf c)
                  (minSilenceSamplesOf c) (speechPadSamplesOf c) 0
                  (filterShort (cfg sd') (minSpeechSamplesOf (cfg sd))
                               segments)
                  (triggered sd') next).
  { apply timeline_filter; [rewrite <- Hws; lia | exact HT]. }
  assert (Hr' : sampleRate f = 8000 \/ sampleRate f = 16000)
    by (rewrite <- Hf1; exact Hsr).
  assert (Hw' : 0 < windowSizeOf c) by (rewrite <- Hws; lia).
  assert (Hp' : 0 <= speechPadSamplesOf c) by (rewrite <- Hpd; exact Hpad0).
  destruct (timeline_stamps (sampleRate f) (windowSizeOf c)
              (minSilenceSamplesOf c) (speechPadSamplesOf c) 0 _ _ next
              Hr' Hw' Hp' (Z.le_refl 0) HTf) as [HS HB].
  split.
  - exists (triggered sd'), next. split; [exact HTf |].
    split; [lia | exact HB].
  - apply fold_addDuration.
    eapply Forall_impl; [| exact HS]. intros s [_ Hs]. exact Hs.
Qed.

(* ===================================================================== *)
(** * Construction and log levels *)
(* ===================================================================== *)

(** X15. A detector that [NewDetector] returns is in the reset state, with
    zeroed buffers of the lengths 256 and 64 and coherent counters; its
    configuration is the given one, which has passed [IsValid], except
    for the two defaults; and its [MinSpeechDurationMs] is positive, so
    that the filter of short segments is on in every new detector: the
    value 0 in the configuration stands for 250 ms and does not switch
    the filter off. *)
Theorem NewDetector_starts_reset
        (ortSetup : DetectorConfig -> option error) (c : DetectorConfig)
        (sd : Detector) :
  NewDetector ortSetup c = (Some sd, None) ->
  IsValid c = None
  /\ Reset (Some sd) = (Some sd, None)
  /\ coherent (windowSizeOf (cfg sd)) sd /\ triggered sd = false
  /\ len (state sd) = 256 /\ len (ctx sd) = 64
  /\ 0 < MinSpeechDurationMs (cfg sd)
  /\ (MinSpeechDurationMs c <> 0 ->
      MinSpeechDurationMs (cfg sd) = MinSpeechDurationMs c)
  /\ withNegativeThreshold
       (withMinSpeechDurationMs (cfg sd) (MinSpeechDurationMs c))
       (NegativeThreshold c)
     = c.
Proof.
  intros Hnew.
  destruct (NewDetector_fields ortSetup c sd Hnew)
    as [Hvalid [Hsd [F1 [F2 [F3 [F4 [F5 [F6 [F7 F8]]]]]]]]].
  destruct (IsValid_fields c Hvalid) as [_ [_ [Hmin _]]].
  split; [exact Hvalid |].
  split; [cbn; rewrite Hsd at 2; reflexivity |].
  split; [rewrite Hsd; unfold coherent; cbn; repeat split; auto; lia |].
  split; [rewrite Hsd; reflexivity |].
  split; [rewrite Hsd; reflexivity |].
  split; [rewrite Hsd; reflexivity |].
  split; [rewrite F8; destruct (Z.eqb_spec (MinSpeechDurationMs c) 0); lia |].
  split.
  - intros Hne. rewrite F8.
    destruct (Z.eqb_spec (MinSpeechDurationMs c) 0); [contradiction |].
    reflexivity.
  - unfold withNegativeThreshold, withMinSpeechDurationMs. cbn.
    rewrite F1, F2, F3, F4, F5, F6. destruct c. reflexivity.
Qed.

(** X16. The log level of the runtime: each of the five constants of
    [LogLevel] has its own level of the runtime, and every other value,
    the zero value of an unset field among them, gives the level of
    [LogLevelWarn]. *)
Theorem OrtLoggingLevel_default (l : Z) :
  (OrtLoggingLevel l = ORT_LOGGING_LEVEL_WARNING
   <-> l <> LevelVerbose /\ l <> LogLevelInfo
       /\ l <> LogLevelError /\ l <> LogLevelFatal)
  /\ OrtLoggingLevel 0 = OrtLoggingLevel LogLevelWarn
  /\ (1 <= l <= 5 ->
      forall l', 1 <= l' <= 5 ->
                 OrtLoggingLevel l = OrtLoggingLevel l' -> l = l').
Proof.
  unfold OrtLoggingLevel, LevelVerbose, LogLevelInfo, LogLevelWarn,
    LogLevelError, LogLevelFatal.
  split; [| split; [reflexivity |]].
  - destruct (Z.eqb_spec l (0 + 1)); [split; [discriminate | lia] |].
    destruct (Z.eqb_spec l (1 + 1)); [split; [discriminate | lia] |].
    destruct (Z.eqb_spec l (2 + 1)); [split; [lia | reflexivity] |].
    destruct (Z.eqb_spec l (3 + 1)); [split; [discriminate | lia] |].
    destruct (Z.eqb_spec l (4 + 1)); [split; [discriminate | lia] |].
    split; [lia | reflexivity].
  - intros Hl l' Hl'.
    assert (H : l = 1 \/ l = 2 \/ l = 3 \/ l = 4 \/ l = 5) by lia.
    assert (H' : l' = 1 \/ l' = 2 \/ l' = 3 \/ l' = 4 \/ l' = 5) by lia.
    destruct H as [-> | [-> | [-> | [-> | ->]]]];
      destruct H' as [-> | [-> | [-> | [-> | ->]]]];
      cbn; intros E; try reflexivity; discriminate.
Qed.

(* ===================================================================== *)
(** * The windows of a buffer *)
(* ===================================================================== *)

Lemma firstn_add {A : Type} (a b : nat) :
  forall l : list A,
    firstn (a + b) l = firstn a l ++ firstn b (skipn a l).
Proof.
  induction a as [| a IH]; intros l; [reflexivity |].
  destruct l as [| x l]; cbn [Nat.add firstn skipn app].
  - destruct b; reflexivity.
  - rewrite IH. reflexivity.
Qed.

Lemma concat_windows (ws : Z) (pcm : list F32.t) (n : nat) :
  0 < ws ->
  List.concat (map (windowAt ws pcm 0) (seq 0 n))
  = firstn (Z.to_nat (ws * Z.of_nat n)) pcm.
Proof.
  intros Hws. induction n as [| n IH].
  - rewrite Z.mul_0_r. reflexivity.
  - rewrite seq_S, map_app, concat_app, IH. cbn [map List.concat Nat.add].
    rewrite app_nil_r. unfold windowAt, slice.
    replace (Z.to_nat (ws * Z.of_nat (S n)))
      with (Z.to_nat (ws * Z.of_nat n) + Z.to_nat ws)%nat by nia.
    rewrite firstn_add. do 2 f_equal; [nia |]. f_equal. nia.
Qed.

(** X17. The windows on which [Detect] calls the inference tile the buffer
    from its first sample on: they are [(len(pcm) - 1) / windowSize]
    windows of [windowSize] samples each, one after the other without a
    gap or an overlap, and the samples after them, which the call never
    reads, are at least one and at most [windowSize]. *)
Theorem Detect_windows_tile_the_buffer
        (c : DetectorConfig) (pcm : list F32.t) :
  let ws := windowSizeOf c in
  let n := (len pcm - 1) / ws in
  len pcm <= GoInt.max_int -> ws <= len pcm ->
  len (detectWindows c pcm) = n
  /\ Forall (fun w => len w = ws) (detectWindows c pcm)
  /\ List.concat (detectWindows c pcm) = firstn (Z.to_nat (ws * n)) pcm
  /\ 1 <= len pcm - ws * n <= ws.
Proof.
  intros ws n Hfit Hlen.
  pose proof (windowSizeOf_pos c) as Hws. fold ws in Hws.
  assert (Hn : 0 <= n) by (apply Z.div_pos; lia).
  pose proof (Z.mul_div_le (len pcm - 1) ws ltac:(lia)) as Hlo.
  pose proof (Z.mul_succ_div_gt (len pcm - 1) ws ltac:(lia)) as Hhi.
  fold n in Hlo, Hhi.
  split; [apply detectWindows_len; assumption |].
  rewrite detectWindows_enum by assumption. fold ws n.
  split; [| split; [| lia]].
  - apply Forall_forall. intros w Hw. apply in_map_iff in Hw.
    destruct Hw as [k [<- Hk]]. apply in_seq in Hk.
    unfold windowAt, slice, len in *.
    rewrite length_firstn, length_skipn. nia.
  - rewrite concat_windows by lia. f_equal. lia.
Qed.

(* ===================================================================== *)
(** * Asking for a longer silence *)
(* ===================================================================== *)

Section Outlast.

Variable infer : adapter.
Variables c1 c2 : DetectorConfig.
Variables ws ms1 ms2 pad : Z.

Hypothesis ws_pos : 0 < ws.
Hypothesis pad_nonneg : 0 <= pad.
Hypothesis same_rate : SampleRate c1 = SampleRate c2.
Hypothesis same_threshold : Threshold c1 = Threshold c2.
Hypothesis same_negative : NegativeThreshold c1 = NegativeThreshold c2.
Hypothesis longer : ms2 <= ms1.

Lemma outlasts_step n sd1 segments1 sd2 segments2 w :
  outlasts c1 c2 ws pad (S n) sd1 segments1 sd2 segments2 ->
  match detectWindow infer ws ms1 pad sd1 segments1 w,
        detectWindow infer ws ms2 pad sd2 segments2 w with
  | Next sd1' segments1', Next sd2' segments2' =>
      outlasts c1 c2 ws pad n sd1' segments1' sd2' segments2'
  | Return _ err1, Return _ err2 => err1 = err2
  | _, _ => False
  end.
Proof.
  intros [[Hco1 [Hco2 [Hroom [Hcov1 Hcov2]]]]
            [[Hc1 [Hc2 [Hcs [Hst Hctx]]]] [Htr Hlen]]].
  destruct (infer (SampleRate (cfg sd1)) (state sd1, ctx sd1) w)
    as [bufs [p | e]] eqn:E1.
  2:{ assert (E2 := E1). rewrite Hc1, same_rate, <- Hc2, Hst, Hctx in E2.
      rewrite (detectWindow_fails _ _ _ _ _ _ _ _ _ E1).
      rewrite (detectWindow_fails _ _ _ _ _ _ _ _ _ E2). reflexivity. }
  assert (E2 := E1). rewrite Hc1, same_rate, <- Hc2, Hst, Hctx in E2.
  destruct (detectWindow_cases infer ws ms1 pad sd1 segments1 w bufs p
              ws_pos pad_nonneg Hco1 ltac:(lia) Hcov1 E1)
    as [sd1' [segments1' [D1 [Hco1' [Hcov1' [Hc1' [Hcs1 [Hb1 H1]]]]]]]].
  destruct (detectWindow_cases infer ws ms2 pad sd2 segments2 w bufs p
              ws_pos pad_nonneg Hco2 ltac:(lia) Hcov2 E2)
    as [sd2' [segments2' [D2 [Hco2' [Hcov2' [Hc2' [Hcs2 [Hb2 H2]]]]]]]].
  rewrite D1, D2. cbv zeta in H1, H2. unfold isSpeech, isSilence in H1, H2.
  rewrite Hc1 in H1. rewrite Hc2, <- same_threshold, <- same_negative in H2.
  rewrite <- Hcs in H2.
  unfold outlasts.
  split;
    [split; [exact Hco1' |]; split; [exact Hco2' |];
     split; [lia |]; split; assumption |].
  split.
  { rewrite <- Hb1 in Hb2. injection Hb2 as S1 S2.
    repeat split; try congruence; lia. }
  destruct Hco1 as [_ [Ht1 Hp1]]. destruct Hco2 as [_ [Ht2 Hp2]].
  clear D1 D2 E1 E2 Hco1' Hco2' Hcov1' Hcov2' Hcov1 Hcov2 Hb1.
  destruct (F32.geb p (Threshold c1)) eqn:G;
    destruct (F32.ltb p (NegativeThreshold c1)) eqn:L;
    destruct (triggered sd1) eqn:T1; destruct (triggered sd2) eqn:T2;
    cbn [andb orb negb] in H1, H2;
    try (destruct (Htr eq_refl) as [K1 K2]; try discriminate);
    try (assert (K3 : tempEnd sd2 = 0)
           by (destruct (Z.eq_dec (tempEnd sd2) 0) as [K | K];
               [exact K | specialize (Hp2 K); discriminate]));
    try (assert (K4 : tempEnd sd1 = 0)
           by (destruct (Z.eq_dec (tempEnd sd1) 0) as [K | K];
               [exact K | specialize (Hp1 K); discriminate]));
    rewrite ?K2, ?K3, ?K4 in *; cbn [Z.eqb] in H1, H2;
    repeat match type of H1 with
           | context [if ?b then _ else _] => destruct b eqn:?
           end;
    repeat match type of H2 with
           | context [if ?b then _ else _] => destruct b eqn:?
           end;
    destruct H1 as [U1 [U2 U3]]; destruct H2 as [V1 [V2 V3]];
    subst segments1' segments2';
    rewrite ?length_setLastEnd, ?length_app; cbn [List.length];
    repeat match goal with
           | H : (_ <? _) = true |- _ => apply Z.ltb_lt in H
           | H : (_ <? _) = false |- _ => apply Z.ltb_ge in H
           | H : (_ =? _) = true |- _ => apply Z.eqb_eq in H
           | H : (_ =? _) = false |- _ => apply Z.eqb_neq in H
           end;
    try lia;
    (split; [intros; split; congruence || lia | lia]).
Qed.

Lemma outlasts_run windows k sd1 segments1 sd2 segments2 :
  outlasts c1 c2 ws pad (List.length windows + k) sd1 segments1 sd2 segments2 ->
  match runWindows infer ws ms1 pad windows sd1 segments1,
        runWindows infer ws ms2 pad windows sd2 segments2 with
  | Next sd1' segments1', Next sd2' segments2' =>
      outlasts c1 c2 ws pad k sd1' segments1' sd2' segments2'
  | Return _ err1, Return _ err2 => err1 = err2
  | _, _ => False
  end.
Proof.
  apply (runWindows_simulation infer ws ms1 pad ms2 pad
                               (outlasts c1 c2 ws pad)).
  intros n sd1' s1 sd2' s2 w. apply outlasts_step.
Qed.

End Outlast.

(** X18. Asking for a longer silence splits no more, as long as the
    conversions to samples of lines 221 and 222 do not wrap around: at a
    sample rate of 8000 or 16000, for [0 <= v2 <= v1 < 2^49]
    milliseconds and a padding that is not negative and whose product
    with the sample rate stays in the range of [int], on the same
    detector and buffer, entered between two segments, the window loop
    emits with the larger [MinSilenceDurationMs = v1] at most as many
    segments, before the filter, as with the smaller one [v2], and the
    two calls fail together, with the same error. *)
Theorem longer_min_silence_emits_no_more
        (infer : adapter) (sd : Detector) (v1 v2 : Z) (pcm : list F32.t) :
  wellPadded (cfg sd) ->
  coherent (windowSizeOf (cfg sd)) sd -> triggered sd = false ->
  currSample sd + len pcm + speechPadSamplesOf (cfg sd) <= GoInt.max_int ->
  0 <= v2 <= v1 -> v1 < 2 ^ 49 ->
  let sd1 := withCfg sd (withMinSilenceDurationMs (cfg sd) v1) in
  let sd2 := withCfg sd (withMinSilenceDurationMs (cfg sd) v2) in
  match emitted infer sd1 pcm, emitted infer sd2 pcm with
  | Next _ segments1, Next _ segments2 =>
      (List.length segments1 <= List.length segments2)%nat
  | Return _ err1, Return _ err2 => err1 = err2
  | _, _ => False
  end.
Proof.
  intros Hpad Hco Htr Hfit Hv Hb sd1 sd2.
  pose proof (windowSizeOf_pos (cfg sd)) as Hws.
  destruct (speechPadSamplesOf_exact (cfg sd) Hpad) as [_ [Hp0 _]].
  assert (Hlen : len pcm <= GoInt.max_int) by (destruct Hco; lia).
  pose proof (detectWindows_room (cfg sd) pcm Hlen) as Hroom.
  assert (Hms : minSilenceSamplesOf (cfg sd2) <= minSilenceSamplesOf (cfg sd1)).
  { destruct (samples_mono (SampleRate (cfg sd)) v2 v1 (proj1 Hpad) Hv Hb)
      as [[_ H] _].
    exact H. }
  assert (Hinit : outlasts (cfg sd1) (cfg sd2) (windowSizeOf (cfg sd))
                    (speechPadSamplesOf (cfg sd))
                    (List.length (detectWindows (cfg sd) pcm) + 0)
                    sd1 [] sd2 []).
  { unfold outlasts. rewrite Nat.add_0_r.
    split.
    - split; [exact Hco |]. split; [exact Hco |].
      split; [cbn [currSample sd1 withCfg]; lia |].
      split; unfold covered; cbn [triggered sd1 sd2 withCfg]; congruence.
    - split; [repeat split |].
      split; [cbn [triggered sd1 sd2 withCfg]; congruence | cbn; lia]. }
  pose proof (outlasts_run infer (cfg sd1) (cfg sd2) (windowSizeOf (cfg sd))
                (minSilenceSamplesOf (cfg sd1)) (minSilenceSamplesOf (cfg sd2))
                (speechPadSamplesOf (cfg sd)) ltac:(lia) Hp0
                eq_refl eq_refl eq_refl Hms
                (detectWindows (cfg sd) pcm) 0 sd1 [] sd2 [] Hinit) as H.
  unfold emitted.
  change (windowSizeOf (cfg sd1)) with (windowSizeOf (cfg sd)).
  change (windowSizeOf (cfg sd2)) with (windowSizeOf (cfg sd)).
  change (speechPadSamplesOf (cfg sd1)) with (speechPadSamplesOf (cfg sd)).
  change (speechPadSamplesOf (cfg sd2)) with (speechPadSamplesOf (cfg sd)).
  change (detectWindows (cfg sd1) pcm) with (detectWindows (cfg sd) pcm).
  change (detectWindows (cfg sd2) pcm) with (detectWindows (cfg sd) pcm).
  destruct (runWindows infer _ (minSilenceSamplesOf (cfg sd1)) _ _ sd1 []),
           (runWindows infer _ (minSilenceSamplesOf (cfg sd2)) _ _ sd2 []);
    try contradiction; [apply H | exact H].
Qed.

(* ===================================================================== *)
(** * The further properties at concrete detectors, buffers and files *)
(* ===================================================================== *)

Lemma room_pcmSpeech :
  currSample detector8k + len pcmSpeech + speechPadSamplesOf (cfg detector8k)
  <= GoInt.max_int.
Proof. vm_compute. discriminate. Qed.

Lemma Detect_pcmSpeech :
  exists sd' segments,
    Detect firstSample (Some detector8k) pcmSpeech
    = Some (Some sd', (segments, None)).
Proof. do 2 eexists. vm_compute. reflexivity. Qed.

(** [Detect] on [pcmSpeech], then [Reset], at the detector that
    [NewDetector] builds from [cfg8k]. *)
Lemma Reset_undoes_Detect_witness :
  exists sd' segments,
    Detect firstSample (Some detector8k) pcmSpeech
    = Some (Some sd', (segments, None))
    /\ cfg sd' = cfg detector8k
    /\ Reset (Some sd') = Reset (Some detector8k)
    /\ Reset (Some sd') = (Some detector8k, None).
Proof.
  destruct Detect_pcmSpeech as [sd' [segments H]].
  exists sd', segments. split; [exact H |].
  destruct (Reset_undoes_Detect firstSample ortOk detector8k sd' pcmSpeech
              (segments, None) H) as [A [B C]].
  split; [exact A |]. split; [exact B |].
  exact (C cfg8k NewDetector_cfg8k).
Defined.

(** The nine windows of [pcmSpeech] at the new detector. *)
Lemma Detect_consumes_windows_witness :
  coherent (windowSizeOf (cfg detector8k)) detector8k
  /\ triggered detector8k = false
  /\ currSample detector8k + len pcmSpeech <= GoInt.max_int
  /\ windowSizeOf (cfg detector8k) <= len pcmSpeech
  /\ exists sd' segments err,
      Detect firstSample (Some detector8k) pcmSpeech
      = Some (Some sd', (segments, err))
      /\ (err = None ->
          currSample sd'
          = currSample detector8k
            + windowSizeOf (cfg detector8k)
              * ((len pcmSpeech - 1) / windowSizeOf (cfg detector8k))).
Proof.
  assert (H1 : currSample detector8k + len pcmSpeech <= GoInt.max_int)
    by (vm_compute; discriminate).
  assert (H2 : windowSizeOf (cfg detector8k) <= len pcmSpeech)
    by (vm_compute; discriminate).
  split; [exact coherent_detector8k |]. split; [reflexivity |].
  split; [exact H1 |]. split; [exact H2 |].
  pose proof (Detect_consumes_windows firstSample detector8k pcmSpeech
                coherent_detector8k eq_refl H1 H2) as X.
  cbv zeta in X. destruct X as [sd' [segments [err [A [B _]]]]].
  exists sd', segments, err. split; [exact A | exact B].
Defined.


Lemma Detect_stamps_not_negative_witness :
  wellPadded (cfg detector8k)
  /\ coherent (windowSizeOf (cfg detector8k)) detector8k
  /\ triggered detector8k = false
  /\ exists sd' segments,
      Detect firstSample (Some detector8k) pcmSpeech
      = Some (Some sd', (segments, None))
      /\ Forall (fun s => nonNegative (SpeechStartAt s)
                          /\ nonNegative (SpeechEndAt s)) segments.
Proof.
  split; [exact wellPadded_cfg8k |]. split; [exact coherent_detector8k |].
  split; [reflexivity |].
  destruct Detect_pcmSpeech as [sd' [segments H]].
  exists sd', segments. split; [exact H |].
  pose proof (Detect_stamps_not_negative firstSample detector8k sd' pcmSpeech
                segments wellPadded_cfg8k coherent_detector8k eq_refl
                room_pcmSpeech H) as X.
  cbv zeta in X. destruct X as [X _]. exact X.
Defined.

Lemma probabilities_pcmQuiet :
  probabilities firstSample (SampleRate (cfg detector8k))
                (state detector8k, ctx detector8k)
                (detectWindows (cfg detector8k) pcmQuiet)
  = [quiet; quiet].
Proof. vm_compute. reflexivity. Qed.

(** Two quiet windows at the new detector. *)
Lemma no_speech_no_segments_witness :
  len pcmQuiet <= GoInt.max_int
  /\ triggered detector8k = false
  /\ Forall (fun p => F32.geb p (Threshold (cfg detector8k)) = false)
            (probabilities firstSample (SampleRate (cfg detector8k))
                           (state detector8k, ctx detector8k)
                           (detectWindows (cfg detector8k) pcmQuiet))
  /\ exists sd' err,
      Detect firstSample (Some detector8k) pcmQuiet
      = Some (Some sd', ([], err))
      /\ triggered sd' = false /\ tempEnd sd' = tempEnd detector8k.
Proof.
  assert (H1 : len pcmQuiet <= GoInt.max_int) by (vm_compute; discriminate).
  assert (H2 : Forall (fun p => F32.geb p (Threshold (cfg detector8k)) = false)
                      (probabilities firstSample (SampleRate (cfg detector8k))
                                     (state detector8k, ctx detector8k)
                                     (detectWindows (cfg detector8k) pcmQuiet))).
  { rewrite probabilities_pcmQuiet.
    repeat constructor; vm_compute; reflexivity. }
  split; [exact H1 |]. split; [reflexivity |]. split; [exact H2 |].
  exact (no_speech_no_segments firstSample detector8k pcmQuiet H1 eq_refl H2).
Defined.

(** The speech of [pcmSpeech] at a detector whose threshold is not a
    number. *)
Lemma nan_threshold_detects_nothing_witness :
  len pcmSpeech <= GoInt.max_int
  /\ triggered detectorNaN = false
  /\ Threshold (cfg detectorNaN) = F32.nan
  /\ IsValid (cfg detectorNaN) = None
  /\ exists sd' err,
      Detect firstSample (Some detectorNaN) pcmSpeech
      = Some (Some sd', ([], err))
      /\ triggered sd' = false.
Proof.
  assert (H1 : len pcmSpeech <= GoInt.max_int) by (vm_compute; discriminate).
  split; [exact H1 |]. split; [reflexivity |]. split; [reflexivity |].
  split; [vm_compute; reflexivity |].
  exact (nan_threshold_detects_nothing firstSample detectorNaN pcmSpeech
           H1 eq_refl eq_refl).
Defined.

Lemma probabilities_pcmSpeech :
  probabilities firstSample (SampleRate (cfg detector8k))
                (state detector8k, ctx detector8k)
                (detectWindows (cfg detector8k) pcmSpeech)
  = [] ++ speech :: repeat speech 7 ++ [quiet].
Proof. vm_compute. reflexivity. Qed.

(** [pcmSpeech]: eight windows of speech and one of silence, with no
    minimum of silence asked for; the segment runs from sample 0 to
    sample 2304, the end of the silent window. *)
Lemma pause_closes_segment_witness :
  wellPadded (cfg detector8k)
  /\ coherent (windowSizeOf (cfg detector8k)) detector8k
  /\ triggered detector8k = false
  /\ minSilenceSamplesOf (cfg detector8k)
     <= windowSizeOf (cfg detector8k) * (len [quiet] - 1)
  /\ exists sd',
      Detect firstSample (Some detector8k) pcmSpeech
      = Some (Some sd',
              (filterShort (cfg detector8k)
                           (minSpeechSamplesOf (cfg detector8k))
                           [closedAt 8000 0 0 2304],
               None))
      /\ triggered sd' = false.
Proof.
  assert (Hms : minSilenceSamplesOf (cfg detector8k)
                <= windowSizeOf (cfg detector8k) * (len [quiet] - 1))
    by (vm_compute; discriminate).
  split; [exact wellPadded_cfg8k |]. split; [exact coherent_detector8k |].
  split; [reflexivity |]. split; [exact Hms |].
  pose proof (pause_closes_segment firstSample detector8k pcmSpeech
                [] speech (repeat speech 7) [quiet]
                wellPadded_cfg8k coherent_detector8k eq_refl room_pcmSpeech
                probabilities_pcmSpeech) as X.
  cbv zeta in X.
  assert (Hs : Forall (fun p => isSilence (cfg detector8k) p = false)
                      (speech :: repeat speech 7))
    by (repeat constructor; vm_compute; reflexivity).
  assert (Hz : Forall (fun p => isSpeech (cfg detector8k) p = false
                                /\ isSilence (cfg detector8k) p = true)
                      [quiet])
    by (repeat constructor; vm_compute; reflexivity).
  destruct (X ltac:(vm_compute; reflexivity) (Forall_nil _)
              ltac:(vm_compute; reflexivity) Hs ltac:(discriminate) Hz Hms)
    as [sd' [A B]].
  exists sd'. split; [exact A | exact B].
Defined.

Lemma room_pcmOpen :
  currSample detector8k + len pcmOpen + speechPadSamplesOf (cfg detector8k)
  <= GoInt.max_int.
Proof. vm_compute. discriminate. Qed.

Lemma probabilities_pcmOpen :
  probabilities firstSample (SampleRate (cfg detector8k))
                (state detector8k, ctx detector8k)
                (detectWindows (cfg detector8k) pcmOpen)
  = [] ++ speech :: [] ++ [].
Proof. vm_compute. reflexivity. Qed.

(** [pcmOpen]: speech to the end of the buffer. *)
Lemma short_pause_keeps_segment_open_witness :
  wellPadded (cfg detector8k)
  /\ coherent (windowSizeOf (cfg detector8k)) detector8k
  /\ triggered detector8k = false
  /\ exists sd',
      Detect firstSample (Some detector8k) pcmOpen
      = Some (Some sd', ([opened 8000 0], None))
      /\ triggered sd' = true.
Proof.
  split; [exact wellPadded_cfg8k |]. split; [exact coherent_detector8k |].
  split; [reflexivity |].
  pose proof (short_pause_keeps_segment_open firstSample detector8k pcmOpen
                [] speech [] []
                wellPadded_cfg8k coherent_detector8k eq_refl room_pcmOpen
                probabilities_pcmOpen) as X.
  cbv zeta in X.
  assert (Hs : Forall (fun p => isSilence (cfg detector8k) p = false) [speech])
    by (repeat constructor; vm_compute; reflexivity).
  destruct (X ltac:(vm_compute; reflexivity) (Forall_nil _)
              ltac:(vm_compute; reflexivity) Hs (Forall_nil _)
              (or_introl eq_refl))
    as [sd' [A B]].
  exists sd'. split; [exact A | exact B].
Defined.

Lemma Detect_unfiltered_pcmDip :
  exists sd1 segments1,
    Detect firstSample (Some (SetMinSpeechDurationMs detector8k 0)) pcmDip
    = Some (Some sd1, (segments1, None)).
Proof. do 2 eexists. vm_compute. reflexivity. Qed.

(** [pcmDip] with the filter off and with a minimum of 250 ms. *)
Lemma raising_min_speech_returns_fewer_witness :
  (SampleRate (cfg detector8k) = 8000 \/ SampleRate (cfg detector8k) = 16000)
  /\ 0 <= 250 /\ 250 < 2 ^ 49
  /\ len pcmDip <= GoInt.max_int
  /\ exists sd1 segments1 sd2 segments2,
      Detect firstSample (Some (SetMinSpeechDurationMs detector8k 0)) pcmDip
      = Some (Some sd1, (segments1, None))
      /\ Detect firstSample (Some (SetMinSpeechDurationMs detector8k 250))
                pcmDip
         = Some (Some sd2, (segments2, None))
      /\ (List.length segments2 <= List.length segments1)%nat.
Proof.
  assert (H1 : SampleRate (cfg detector8k) = 8000
               \/ SampleRate (cfg detector8k) = 16000) by (left; reflexivity).
  assert (H2 : 0 <= 250) by lia.
  assert (H3 : 250 < 2 ^ 49) by reflexivity.
  assert (H4 : len pcmDip <= GoInt.max_int) by (vm_compute; discriminate).
  split; [exact H1 |]. split; [exact H2 |]. split; [exact H3 |].
  split; [exact H4 |].
  destruct Detect_unfiltered_pcmDip as [sd1 [segments1 H]].
  pose proof (raising_min_speech_returns_fewer firstSample detector8k sd1
                0 250 pcmDip segments1 H1 H2 H3 H4 H) as X.
  cbv zeta in X. destruct X as [sd2 [segments2 [A [_ [B _]]]]].
  exists sd1, segments1, sd2, segments2.
  split; [exact H |]. split; [exact A | exact B].
Defined.

(** The file of one sample and three more bytes. *)
Lemma readPCMFile_samples_witness :
  exampleFiles "both.pcm" = inl (bytesSpeech ++ [Byte.x66; Byte.x66; Byte.x66])
  /\ exists samples,
      readPCMFile exampleFiles "both.pcm" = Some (inl samples)
      /\ len samples = 7 / 4
      /\ nth_error samples 0 = Some speech.
Proof.
  split; [reflexivity |].
  destruct (readPCMFile_samples exampleFiles "both.pcm"
              (bytesSpeech ++ [Byte.x66; Byte.x66; Byte.x66]) eq_refl
              ltac:(vm_compute; discriminate))
    as [samples [A [B C]]].
  exists samples. split; [exact A |]. split; [exact B |].
  rewrite (C 0%nat ltac:(vm_compute; reflexivity)).
  vm_compute. reflexivity.
Defined.

Lemma readPCMFile_concatenation_witness :
  exists samples1 samples2,
    readPCMFile exampleFiles "head.pcm" = Some (inl samples1)
    /\ readPCMFile exampleFiles "tail.pcm" = Some (inl samples2)
    /\ readPCMFile exampleFiles "both.pcm" = Some (inl (samples1 ++ samples2))
    /\ samples2 = [].
Proof.
  destruct (readPCMFile_concatenation exampleFiles "head.pcm" "tail.pcm"
              "both.pcm" bytesSpeech [Byte.x66; Byte.x66; Byte.x66]
              eq_refl eq_refl eq_refl eq_refl
              ltac:(vm_compute; discriminate))
    as [samples1 [samples2 [A [B [C D]]]]].
  exists samples1, samples2.
  split; [exact A |]. split; [exact B |]. split; [exact C |].
  apply D. vm_compute. reflexivity.
Defined.

Lemma exampleFiles_fit (path : string) (data : list Byte.byte) :
  exampleFiles path = inl data -> len data + 4 <= GoInt.max_int.
Proof.
  unfold exampleFiles.
  repeat (destruct (String.eqb path _);
          [intros H; injection H as <-; vm_compute; discriminate |]).
  discriminate.
Qed.

(** The tester on the file of 100 samples. *)
Lemma main_failures_witness :
  exists o,
    main exampleFiles firstSample ortOk flagsShort = Some o
    /\ o = Exit1 errNotEnoughSamples.
Proof.
  destruct (main_failures exampleFiles firstSample ortOk flagsShort
              (exampleFiles_fit (audioPath flagsShort)))
    as [o [A _]].
  exists o. split; [exact A |].
  assert (E : main exampleFiles firstSample ortOk flagsShort
              = Some (Exit1 errNotEnoughSamples)) by (vm_compute; reflexivity).
  congruence.
Defined.

Lemma main_needs_one_window_witness :
  exampleFiles (audioPath flagsShort)
  = inl (List.concat (repeat bytesSpeech 100))
  /\ IsValid (configOf flagsShort) = None
  /\ main exampleFiles firstSample ortOk flagsShort
     = Some (Exit1 errNotEnoughSamples).
Proof.
  assert (H : IsValid (configOf flagsShort) = None)
    by (vm_compute; reflexivity).
  split; [reflexivity |]. split; [exact H |].
  apply (main_needs_one_window exampleFiles firstSample ortOk flagsShort
           (List.concat (repeat bytesSpeech 100)) eq_refl
           (exampleFiles_fit (audioPath flagsShort) _ eq_refl) H
           (fun _ => eq_refl)).
  vm_compute. reflexivity.
Defined.

Lemma main_flags8k :
  exists r, main exampleFiles firstSample ortOk flags8k = Some (Done r).
Proof. eexists. vm_compute. reflexivity. Qed.

(** The tester on the file of 512 samples of speech. *)
Lemma main_report_witness :
  exists r,
    main exampleFiles firstSample ortOk flags8k = Some (Done r)
    /\ audioDuration r = seconds 8000 (2048 / 4)
    /\ exists open next,
        timeline 8000 256 4000 240 0 (detected r) open next
        /\ next <= 2048 / 4.
Proof.
  destruct main_flags8k as [r H]. exists r. split; [exact H |].
  pose proof (main_report exampleFiles firstSample ortOk flags8k
                (List.concat (repeat bytesSpeech 512)) r eq_refl
                ltac:(vm_compute; discriminate) H) as X.
  cbv zeta in X. destruct X as [A [[open [next [B [C _]]]] _]].
  split; [exact A |]. exists open, next. split; [exact B | exact C].
Defined.

(** [NewDetector] on [cfg8k]. *)
Lemma NewDetector_starts_reset_witness :
  NewDetector ortOk cfg8k = (Some detector8k, None)
  /\ Reset (Some detector8k) = (Some detector8k, None)
  /\ 0 < MinSpeechDurationMs (cfg detector8k)
  /\ MinSpeechDurationMs cfg8k = 0.
Proof.
  split; [exact NewDetector_cfg8k |].
  destruct (NewDetector_starts_reset ortOk cfg8k detector8k NewDetector_cfg8k)
    as [_ [A [_ [_ [_ [_ [B _]]]]]]].
  split; [exact A |]. split; [exact B | reflexivity].
Defined.

(** [pcmSpeech]: ten windows of 256 samples, of which nine are read. *)
Lemma Detect_windows_tile_the_buffer_witness :
  len pcmSpeech <= GoInt.max_int
  /\ windowSizeOf cfg8k <= len pcmSpeech
  /\ len (detectWindows cfg8k pcmSpeech) = 9
  /\ 1 <= len pcmSpeech - windowSizeOf cfg8k * 9 <= windowSizeOf cfg8k.
Proof.
  assert (H1 : len pcmSpeech <= GoInt.max_int) by (vm_compute; discriminate).
  assert (H2 : windowSizeOf cfg8k <= len pcmSpeech)
    by (vm_compute; discriminate).
  split; [exact H1 |]. split; [exact H2 |].
  pose proof (Detect_windows_tile_the_buffer cfg8k pcmSpeech) as X.
  cbv zeta in X. destruct (X H1 H2) as [A [_ [_ B]]].
  assert (E : (len pcmSpeech - 1) / windowSizeOf cfg8k = 9)
    by (vm_compute; reflexivity).
  rewrite E in A, B. split; [exact A | exact B].
Defined.

(** [pcmDip] with a minimum of silence of 500 ms and with none. *)
Lemma longer_min_silence_emits_no_more_witness :
  wellPadded (cfg detector8k)
  /\ coherent (windowSizeOf (cfg detector8k)) detector8k
  /\ triggered detector8k = false
  /\ 0 <= 0 <= 500 /\ 500 < 2 ^ 49
  /\ match emitted firstSample
                   (withCfg detector8k
                            (withMinSilenceDurationMs (cfg detector8k) 500))
                   pcmDip,
           emitted firstSample
                   (withCfg detector8k
                            (withMinSilenceDurationMs (cfg detector8k) 0))
                   pcmDip with
     | Next _ segments1, Next _ segments2 =>
         (List.length segments1 <= List.length segments2)%nat
     | Return _ err1, Return _ err2 => err1 = err2
     | _, _ => False
     end.
Proof.
  assert (H1 : currSample detector8k + len pcmDip
               + speechPadSamplesOf (cfg detector8k) <= GoInt.max_int)
    by (vm_compute; discriminate).
  assert (H2 : 0 <= 0 <= 500) by lia.
  assert (H3 : 500 < 2 ^ 49) by reflexivity.
  split; [exact wellPadded_cfg8k |]. split; [exact coherent_detector8k |].
  split; [reflexivity |]. split; [exact H2 |]. split; [exact H3 |].
  pose proof (longer_min_silence_emits_no_more firstSample detector8k 500 0
                pcmDip wellPadded_cfg8k coherent_detector8k eq_refl H1 H2 H3)
    as X.
  cbv zeta in X. exact X.
Defined.
